(** * estrella: the build/watch engine of [src/estrella.js]

    A shallow embedding of the configuration normalizer, the project
    identity, the cancellable build handle, the build cycle, the watch-set
    refresh and the type-check process registry, with the properties the
    specification states about them.

    JavaScript objects used as dictionaries are finite maps, arrays are
    lists, and the mutable state a function closes over is passed
    explicitly.  External collaborators (the bundler, the file system, the
    glob library, user hooks) appear as parameters or as recorded events. *)

From Stdlib Require Import ZArith List Bool Ascii String Lia.
From stdpp Require Import base option list strings gmap pretty.
Import ListNotations.
Local Open Scope string_scope.
Local Open Scope list_scope.

(** ** JavaScript values and errors *)

Module Js.

(** The values that flow through the hooks and the outcome of a cycle.
    Of an object or function only two things matter: that it is truthy,
    and the string its conversion to a primitive gives, when it gives a
    string (["inline"] for [["inline"]] and for [new String("inline")],
    [None] for a [Number] object). *)
Inductive Value :=
| Undefined
| Null
| Bool (b : bool)
| Num (n : Z)
| NaN
| Str (s : string)
| Obj (tag : nat) (str : option string).

#[global] Instance Value_eq_dec : EqDecision Value.
Proof. solve_decision. Defined.

(** ToBoolean, as used by [!!v], [if (v)] and [v || w]. *)
Definition truthy (v : Value) : bool :=
  match v with
  | Undefined | Null | NaN => false
  | Bool b => b
  | Num n => negb (n =? 0)%Z
  | Str s => negb (String.eqb s "")
  | Obj _ _ => true
  end.

(** [!!v] *)
Definition notnot (v : Value) : Value := Bool (truthy v).

(** [v == s] for a string [s] that is not the text of a number (so that no
    number or boolean equals it): a string equals it when it is [s], an
    object when its conversion to a primitive gives [s]. *)
Definition loose_eq_string (v : Value) (s : string) : bool :=
  match v with
  | Str t => String.eqb t s
  | Obj _ (Some t) => String.eqb t s
  | _ => false
  end.

(** Exceptions: the runtime's own ([TypeError], [RangeError]), the
    [Error] objects the code constructs, and arbitrary thrown values. *)
Inductive Exn :=
| Error (msg : string)
| TypeError (msg : string)
| RangeError (msg : string)
| Thrown (v : Value).

#[global] Instance Exn_eq_dec : EqDecision Exn.
Proof. solve_decision. Defined.

(** The property names a plain object inherits from [Object.prototype]. *)
Definition Object_prototype : list string :=
  [ "constructor"; "__defineGetter__"; "__defineSetter__"; "hasOwnProperty";
    "__lookupGetter__"; "__lookupSetter__"; "isPrototypeOf";
    "propertyIsEnumerable"; "toString"; "valueOf"; "__proto__"; "toLocaleString" ].

(** Truthiness of a string, for [s || d] and [if (s)]. *)
Definition str_truthy (s : string) : bool := negb (String.eqb s "").

Lemma str_truthy_spec s : str_truthy s = true <-> s <> "".
Proof.
  unfold str_truthy. destruct (String.eqb_spec s ""); simpl; split; congruence.
Qed.

End Js.

(** ** Config normalizer: [processConfig] and [guessEntryPoints] *)

Module Config.

(** [config.entry]: a string, an array of strings, or absent. *)
Inductive Entry :=
| EntryAbsent
| EntryString (s : string)
| EntryArray (l : list string).

(** The part of a tsconfig.json that entry-point inference reads. *)
Record TSConfig := {
  files : option (list string);
  include : option (list string);
  exclude : option (list string);
}.

(** The fields of a build configuration that [processConfig] touches. *)
Record BuildConfig := {
  entryPoints : option (list string);
  entry : Entry;
  sourcemap : Js.Value;
}.

Section Normalizer.

(** [tsutil.getTSConfigForConfig], [glob.glob] and [glob.match] live outside
    this file (they read the file system); they are parameters here. *)
Variable getTSConfigForConfig : BuildConfig -> option TSConfig.
Variable glob : string -> list string.
Variable glob_match : string -> string -> bool.

(** [for (let pat of tsconfig.include) files = files.concat(glob.glob(pat))] *)
Definition globAll (pats : list string) : list string :=
  fold_left (fun files pat => files ++ glob pat) pats [].

(** [for (let pat of tsconfig.exclude) files = files.filter(fn => !glob.match(pat, fn))] *)
Definition dropExcluded (pats : list string) (files : list string) : list string :=
  fold_left (fun files pat => List.filter (fun fn => negb (glob_match pat fn)) files)
            pats files.

(** [files.slice(0, 1)] *)
Definition slice01 (files : list string) : list string :=
  match files with
  | [] => []
  | f :: _ => [f]
  end.

Definition guessEntryPoints (config : BuildConfig) : list string :=
  match getTSConfigForConfig config with
  | Some tsconfig =>
      match files tsconfig with
      | Some fs => fs                       (* an array is truthy, even when empty *)
      | None =>
          match include tsconfig with
          | Some inc =>
              let files := globAll inc in
              let files := match exclude tsconfig with
                           | Some exc => dropExcluded exc files
                           | None => files
                           end in
              slice01 files
          | None => []
          end
      end
  | None => []
  end.

(** [config.entry] is falsy when absent or the empty string. *)
Definition entry_truthy (e : Entry) : bool :=
  match e with
  | EntryAbsent => false
  | EntryString s => Js.str_truthy s
  | EntryArray _ => true
  end.

(** Lines 132-141: merge [entry] into [entryPoints]. *)
Definition mergeEntry (config : BuildConfig) : list string :=
  let eps := match entryPoints config with
             | Some l => l
             | None => []
             end in
  if entry_truthy (entry config) then
    match entry config with
    | EntryArray l => eps ++ l
    | EntryString s => eps ++ [s]
    | EntryAbsent => eps
    end
  else eps.

(** Lines 155-161: a truthy value with
    [config.sourcemap != "inline" && config.sourcemap != "external"]
    becomes [true], a falsy value becomes [false]; the comparison is the
    loose one, so a value that converts to one of the two strings is left
    as it is. *)
Definition normalizeSourcemap (v : Js.Value) : Js.Value :=
  if Js.truthy v then
    if negb (Js.loose_eq_string v "inline") && negb (Js.loose_eq_string v "external")
    then Js.Bool true
    else v
  else Js.Bool false.

Definition noEntryPointsError (config : BuildConfig) : Js.Exn :=
  Js.Error ("config.entryPoints is empty or not set" ++
            match getTSConfigForConfig config with
            | Some _ => " (could not guess from tsconfig.json)"
            | None => ""
            end).

(** [processConfig(config)]: the updated configuration, or the thrown error. *)
Definition processConfig (config : BuildConfig) : Js.Exn + BuildConfig :=
  let eps := mergeEntry config in
  let config1 := {| entryPoints := Some eps; entry := EntryAbsent;
                    sourcemap := sourcemap config |} in
  match eps with
  | [] =>
      let guessed := guessEntryPoints config1 in
      let config2 := {| entryPoints := Some guessed; entry := EntryAbsent;
                        sourcemap := sourcemap config |} in
      match guessed with
      | [] => inl (noEntryPointsError config2)
      | _ :: _ =>
          inr {| entryPoints := Some guessed; entry := EntryAbsent;
                 sourcemap := normalizeSourcemap (sourcemap config) |}
      end
  | _ :: _ =>
      inr {| entryPoints := Some eps; entry := EntryAbsent;
             sourcemap := normalizeSourcemap (sourcemap config) |}
  end.

(** What the two loops of the include branch compute: the matches of the
    include patterns in pattern order, without those matched by some
    exclude pattern. *)
Definition includedFiles (inc exc : list string) : list string :=
  List.filter (fun fn => forallb (fun pat => negb (glob_match pat fn)) exc)
              (flat_map glob inc).

Lemma globAll_from acc pats :
  fold_left (fun files pat => files ++ glob pat) pats acc = acc ++ flat_map glob pats.
Proof.
  revert acc. induction pats as [|p ps IH]; intros acc; simpl.
  - now rewrite app_nil_r.
  - rewrite IH. now rewrite <- app_assoc.
Qed.

Lemma globAll_flat_map pats : globAll pats = flat_map glob pats.
Proof. unfold globAll. now rewrite globAll_from. Qed.

Lemma dropExcluded_filter exc : forall fs,
  dropExcluded exc fs =
  List.filter (fun fn => forallb (fun pat => negb (glob_match pat fn)) exc) fs.
Proof.
  unfold dropExcluded.
  induction exc as [|p ps IH]; intros fs; simpl.
  - induction fs as [|f fs IHfs]; simpl; congruence.
  - rewrite IH. clear IH.
    induction fs as [|f fs IHfs]; simpl; [reflexivity|].
    destruct (glob_match p f); simpl.
    + exact IHfs.
    + destruct (forallb _ ps); simpl; congruence.
Qed.

Lemma guessEntryPoints_include config ts inc :
  getTSConfigForConfig config = Some ts ->
  files ts = None ->
  include ts = Some inc ->
  guessEntryPoints config = slice01 (includedFiles inc (default [] (exclude ts))).
Proof.
  intros Hts Hf Hi. unfold guessEntryPoints, includedFiles.
  rewrite Hts, Hf, Hi.
  destruct (exclude ts) as [exc|]; simpl.
  - now rewrite dropExcluded_filter, globAll_flat_map.
  - rewrite globAll_flat_map.
    induction (flat_map glob inc) as [|f fs IH]; simpl; congruence.
Qed.

(** The inference as the specification words it: the manifest's declared
    file list, or else the first match of the include patterns that no
    exclude pattern matches; nothing without a manifest. *)
Definition inferredEntryPoints (tsconfig : option TSConfig) : list string :=
  match tsconfig with
  | None => []
  | Some ts =>
      match files ts, include ts with
      | Some fs, _ => fs
      | None, Some inc => take 1 (includedFiles inc (default [] (exclude ts)))
      | None, None => []
      end
  end.

Lemma slice01_take (l : list string) : slice01 l = take 1 l.
Proof. destruct l as [|x [|y l]]; reflexivity. Qed.

Lemma guessEntryPoints_inferred config :
  guessEntryPoints config = inferredEntryPoints (getTSConfigForConfig config).
Proof.
  unfold inferredEntryPoints.
  destruct (getTSConfigForConfig config) as [ts|] eqn:Hts.
  - destruct (files ts) as [fs|] eqn:Hf.
    + unfold guessEntryPoints. now rewrite Hts, Hf.
    + destruct (include ts) as [inc|] eqn:Hi.
      * rewrite (guessEntryPoints_include config ts inc Hts Hf Hi).
        apply slice01_take.
      * unfold guessEntryPoints. now rewrite Hts, Hf, Hi.
  - unfold guessEntryPoints. now rewrite Hts.
Qed.

(** The configuration [guessEntryPoints] sees: [entryPoints] has been set
    to the (empty) merged list and [entry] deleted. *)
Definition emptied (config : BuildConfig) : BuildConfig :=
  {| entryPoints := Some []; entry := EntryAbsent; sourcemap := sourcemap config |}.

(** C7 (amended). [entry] (a string or an array of strings) is appended
    to [entryPoints]; an absent or empty [entry] adds nothing.  When no
    entry points are supplied (the merged list is empty), [processConfig]
    infers them with [guessEntryPoints], which yields the manifest's
    declared file list or else the first match of the include patterns
    not matched by an exclude pattern; when the list is still empty it
    throws an [Error] with the message "config.entryPoints is empty or
    not set", followed by " (could not guess from tsconfig.json)" when a
    manifest was found; and whenever it returns, for supplied (string or
    array) as for inferred entry points, [config.entryPoints] is a
    non-empty list of strings, in the order given. *)
Theorem processConfig_entryPoints (config : BuildConfig) :
  mergeEntry config
    = default [] (entryPoints config) ++
      match entry config with
      | EntryString s => if Js.str_truthy s then [s] else []
      | EntryArray l => l
      | EntryAbsent => []
      end /\
  guessEntryPoints (emptied config)
    = inferredEntryPoints (getTSConfigForConfig (emptied config)) /\
  match processConfig config with
  | inr config' =>
      exists l, entryPoints config' = Some l /\ 0 < length l /\
        l = match mergeEntry config with
            | [] => guessEntryPoints (emptied config)
            | _ :: _ => mergeEntry config
            end
  | inl err =>
      mergeEntry config = [] /\ guessEntryPoints (emptied config) = [] /\
      err = Js.Error ("config.entryPoints is empty or not set" ++
                      match getTSConfigForConfig (emptied config) with
                      | Some _ => " (could not guess from tsconfig.json)"
                      | None => ""
                      end)
  end.
Proof.
  split; [|split; [apply guessEntryPoints_inferred|]].
  - unfold mergeEntry. destruct (entryPoints config) as [eps|];
      destruct (entry config) as [|s|l]; simpl; rewrite ?app_nil_r; try reflexivity;
      destruct (Js.str_truthy s); now rewrite ?app_nil_r.
  - unfold processConfig, emptied.
    destruct (mergeEntry config) as [|e eps] eqn:Hm.
    + destruct (guessEntryPoints _) as [|g gs] eqn:Hg.
      * repeat split; reflexivity.
      * exists (g :: gs). repeat split; simpl; lia.
    + exists (e :: eps). repeat split; simpl; lia.
Qed.

End Normalizer.

(** Entry points given as a string, as an array, and inferred. *)
Example processConfig_entry_string :
  processConfig (fun _ => None) (fun _ => []) (fun _ _ => false)
    {| entryPoints := None; entry := EntryString "a.ts"; sourcemap := Js.Undefined |}
  = inr {| entryPoints := Some ["a.ts"]; entry := EntryAbsent; sourcemap := Js.Bool false |}.
Proof. reflexivity. Qed.

Example processConfig_entry_array :
  processConfig (fun _ => None) (fun _ => []) (fun _ _ => false)
    {| entryPoints := Some ["m.ts"]; entry := EntryArray ["a.ts"; "b.ts"];
       sourcemap := Js.Str "external" |}
  = inr {| entryPoints := Some ["m.ts"; "a.ts"; "b.ts"]; entry := EntryAbsent;
           sourcemap := Js.Str "external" |}.
Proof. reflexivity. Qed.

Example processConfig_inferred_first_match :
  processConfig
    (fun _ => Some {| files := None; include := Some ["src/*.ts"; "lib/*.ts"];
                      exclude := Some ["*.d.ts"] |})
    (fun pat => if String.eqb pat "src/*.ts" then ["src/x.d.ts"; "src/a.ts"; "src/b.ts"]
                else ["lib/c.ts"])
    (fun pat fn => String.eqb fn "src/x.d.ts")
    {| entryPoints := None; entry := EntryAbsent; sourcemap := Js.Str "yes" |}
  = inr {| entryPoints := Some ["src/a.ts"]; entry := EntryAbsent; sourcemap := Js.Bool true |}.
Proof. reflexivity. Qed.

Example processConfig_declared_files :
  processConfig
    (fun _ => Some {| files := Some ["a.ts"; "b.ts"]; include := Some ["src/*.ts"];
                      exclude := None |})
    (fun _ => ["src/z.ts"]) (fun _ _ => false)
    {| entryPoints := Some []; entry := EntryString ""; sourcemap := Js.Str "inline" |}
  = inr {| entryPoints := Some ["a.ts"; "b.ts"]; entry := EntryAbsent;
           sourcemap := Js.Str "inline" |}.
Proof. reflexivity. Qed.

Example processConfig_no_entry_points :
  processConfig (fun _ => None) (fun _ => []) (fun _ _ => false)
    {| entryPoints := None; entry := EntryAbsent; sourcemap := Js.Undefined |}
  = inl (Js.Error "config.entryPoints is empty or not set").
Proof. reflexivity. Qed.

(** *** Further properties of the normalizer *)

Section NormalizerProperties.

Variable getTSConfigForConfig : BuildConfig -> option TSConfig.
Variable glob : string -> list string.
Variable glob_match : string -> string -> bool.

Lemma normalizeSourcemap_values v :
  normalizeSourcemap v = Js.Bool false \/ normalizeSourcemap v = Js.Bool true \/
  (normalizeSourcemap v = v /\
   (Js.loose_eq_string v "inline" = true \/ Js.loose_eq_string v "external" = true)).
Proof.
  unfold normalizeSourcemap. destruct (Js.truthy v); [|auto].
  destruct (Js.loose_eq_string v "inline") eqn:Hi; [auto|].
  destruct (Js.loose_eq_string v "external") eqn:He; simpl; auto.
Qed.

Lemma loose_eq_string_truthy v s :
  s <> "" -> Js.loose_eq_string v s = true -> Js.truthy v = true.
Proof.
  intros Hs. destruct v as [| |b|n| |t|tag [t|]]; simpl; try discriminate; auto.
  intros Ht. apply String.eqb_eq in Ht. subst t.
  destruct (String.eqb_spec s ""); [contradiction|reflexivity].
Qed.

Lemma normalizeSourcemap_idempotent v :
  normalizeSourcemap (normalizeSourcemap v) = normalizeSourcemap v.
Proof.
  destruct (normalizeSourcemap_values v) as [H|[H|[H [Hl|Hl]]]]; rewrite H;
    try reflexivity; unfold normalizeSourcemap; rewrite Hl.
  - rewrite (loose_eq_string_truthy v "inline"); [reflexivity|discriminate|exact Hl].
  - rewrite (loose_eq_string_truthy v "external"); [|discriminate|exact Hl].
    simpl. now rewrite andb_false_r.
Qed.

(** X4. Whenever [processConfig] returns, [config.sourcemap] is [false],
    [true], or the value it was, and then a value that loosely equals
    ["inline"] or ["external"]: one of the two strings, or an object that
    converts to one of them.  For a value that is not an object these are
    exactly four values: [false], [true], ["inline"] and ["external"]. *)
Theorem processConfig_sourcemap (config config' : BuildConfig) :
  processConfig getTSConfigForConfig glob glob_match config = inr config' ->
  (sourcemap config' = Js.Bool false \/ sourcemap config' = Js.Bool true \/
   (sourcemap config' = sourcemap config /\
    (Js.loose_eq_string (sourcemap config) "inline" = true \/
     Js.loose_eq_string (sourcemap config) "external" = true))) /\
  ((forall tag str, sourcemap config <> Js.Obj tag str) ->
   sourcemap config' = Js.Bool false \/ sourcemap config' = Js.Bool true \/
   sourcemap config' = Js.Str "inline" \/ sourcemap config' = Js.Str "external").
Proof.
  unfold processConfig. intros H.
  assert (Hs : sourcemap config' = normalizeSourcemap (sourcemap config)).
  { destruct (mergeEntry config);
      [destruct (guessEntryPoints _ _ _ _); [discriminate|]|];
      now injection H as <-. }
  rewrite Hs. split; [apply normalizeSourcemap_values|].
  intros Hobj.
  destruct (normalizeSourcemap_values (sourcemap config)) as [Hv|[Hv|[Hv Hl]]];
    [auto|auto|].
  rewrite Hv. right. right.
  destruct (sourcemap config) as [| |b|n| |t|tag str];
    try (destruct Hl; discriminate).
  - simpl in Hl. destruct Hl as [Hl|Hl]; apply String.eqb_eq in Hl; subst t; auto.
  - exfalso. now apply (Hobj tag str).
Qed.

(** X5. [processConfig] is idempotent: applied to a configuration it has
    returned, it returns it unchanged, and looks at no manifest to do so. *)
Theorem processConfig_idempotent (config config' : BuildConfig) :
  processConfig getTSConfigForConfig glob glob_match config = inr config' ->
  processConfig getTSConfigForConfig glob glob_match config' = inr config' /\
  mergeEntry config' <> [].
Proof.
  unfold processConfig. intros H.
  destruct (mergeEntry config) as [|e eps] eqn:Hm.
  - destruct (guessEntryPoints _ _ _ _) as [|g gs]; [discriminate|].
    injection H as <-. unfold mergeEntry. simpl.
    now rewrite normalizeSourcemap_idempotent.
  - injection H as <-. unfold mergeEntry. simpl.
    now rewrite normalizeSourcemap_idempotent.
Qed.

(** X7. What inference from include patterns returns: at most one file; it
    is a match of one of the include patterns, and no exclude pattern
    matches it. *)
Theorem guessEntryPoints_include_sound (config : BuildConfig) (ts : TSConfig)
    (inc : list string) (fn : string) :
  getTSConfigForConfig config = Some ts ->
  files ts = None ->
  include ts = Some inc ->
  In fn (guessEntryPoints getTSConfigForConfig glob glob_match config) ->
  guessEntryPoints getTSConfigForConfig glob glob_match config = [fn] /\
  (exists pat, In pat inc /\ In fn (glob pat)) /\
  (forall pat, In pat (default [] (exclude ts)) -> glob_match pat fn = false).
Proof.
  intros Hts Hf Hi.
  rewrite (guessEntryPoints_include _ _ _ config ts inc Hts Hf Hi).
  unfold includedFiles.
  destruct (List.filter _ (flat_map glob inc)) as [|f fs] eqn:Hfs; simpl;
    [intros []|].
  intros [<-|[]]. split; [reflexivity|].
  assert (Hin : In f (List.filter
                        (fun fn => forallb (fun pat => negb (glob_match pat fn))
                                           (default [] (exclude ts)))
                        (flat_map glob inc))) by (rewrite Hfs; now left).
  apply filter_In in Hin. destruct Hin as [Hflat Hex].
  split.
  - apply in_flat_map in Hflat. exact Hflat.
  - intros pat Hpat. rewrite forallb_forall in Hex.
    apply negb_true_iff. apply Hex. exact Hpat.
Qed.

(** X8. A manifest that declares a file list hides its include patterns,
    even when the list is empty: then nothing is inferred, and without
    supplied entry points [processConfig] throws although the include
    patterns may match files. *)
Theorem declared_files_hide_include (config : BuildConfig) (ts : TSConfig)
    (fs : list string) :
  getTSConfigForConfig (emptied config) = Some ts ->
  files ts = Some fs ->
  guessEntryPoints getTSConfigForConfig glob glob_match (emptied config) = fs /\
  (mergeEntry config = [] -> fs = [] ->
   processConfig getTSConfigForConfig glob glob_match config
   = inl (Js.Error
            "config.entryPoints is empty or not set (could not guess from tsconfig.json)")).
Proof.
  intros Hts Hf.
  assert (Hg : guessEntryPoints getTSConfigForConfig glob glob_match (emptied config) = fs).
  { unfold guessEntryPoints. now rewrite Hts, Hf. }
  split; [exact Hg|].
  intros Hm ->. unfold processConfig. rewrite Hm.
  fold (emptied config). rewrite Hg. unfold noEntryPointsError.
  fold (emptied config). now rewrite Hts.
Qed.

End NormalizerProperties.

(** X6. Supplied entry points make [processConfig] independent of the
    outside: with [entry] or [entryPoints] given, no manifest is read and
    no pattern is expanded, so the result is the same whatever the file
    system holds. *)
Theorem supplied_entryPoints_need_no_manifest
    (tsconfig1 tsconfig2 : BuildConfig -> option TSConfig)
    (glob1 glob2 : string -> list string)
    (match1 match2 : string -> string -> bool) (config : BuildConfig) :
  mergeEntry config <> [] ->
  processConfig tsconfig1 glob1 match1 config
  = processConfig tsconfig2 glob2 match2 config /\
  exists config', processConfig tsconfig1 glob1 match1 config = inr config'.
Proof.
  intros Hm. unfold processConfig.
  destruct (mergeEntry config); [congruence|]. eauto.
Qed.

Definition tsconfig_with_empty_files : TSConfig :=
  {| files := Some []; include := Some ["src/*.ts"]; exclude := None |}.

Definition config_without_entry : BuildConfig :=
  {| entryPoints := None; entry := EntryAbsent; sourcemap := Js.Undefined |}.

Definition config_with_entry : BuildConfig :=
  {| entryPoints := None; entry := EntryString "main.ts"; sourcemap := Js.Num 1 |}.

Lemma processConfig_sourcemap_witness :
  sourcemap {| entryPoints := Some ["main.ts"]; entry := EntryAbsent;
               sourcemap := Js.Bool true |} = Js.Bool false \/
  sourcemap {| entryPoints := Some ["main.ts"]; entry := EntryAbsent;
               sourcemap := Js.Bool true |} = Js.Bool true \/
  sourcemap {| entryPoints := Some ["main.ts"]; entry := EntryAbsent;
               sourcemap := Js.Bool true |} = Js.Str "inline" \/
  sourcemap {| entryPoints := Some ["main.ts"]; entry := EntryAbsent;
               sourcemap := Js.Bool true |} = Js.Str "external".
Proof.
  apply (processConfig_sourcemap (fun _ => None) (fun _ => []) (fun _ _ => false)
           config_with_entry).
  - reflexivity.
  - discriminate.
Defined.

(** An array holding the one string ["inline"] is left as it is. *)
Example processConfig_sourcemap_array :
  processConfig (fun _ => None) (fun _ => []) (fun _ _ => false)
    {| entryPoints := Some ["main.ts"]; entry := EntryAbsent;
       sourcemap := Js.Obj 0 (Some "inline") |}
  = inr {| entryPoints := Some ["main.ts"]; entry := EntryAbsent;
           sourcemap := Js.Obj 0 (Some "inline") |}.
Proof. reflexivity. Qed.

(** C7 (as stated) fails: what is thrown is a plain [Error], and its
    message is not "no entry points". *)
Lemma no_entry_points_error_message :
  processConfig (fun _ => None) (fun _ => []) (fun _ _ => false) config_without_entry
    = inl (Js.Error "config.entryPoints is empty or not set") /\
  "config.entryPoints is empty or not set" <> "no entry points".
Proof. split; [reflexivity|discriminate]. Qed.

Lemma processConfig_idempotent_witness :
  processConfig (fun _ => None) (fun _ => []) (fun _ _ => false)
    {| entryPoints := Some ["main.ts"]; entry := EntryAbsent; sourcemap := Js.Bool true |}
  = inr {| entryPoints := Some ["main.ts"]; entry := EntryAbsent;
           sourcemap := Js.Bool true |}.
Proof.
  apply (processConfig_idempotent (fun _ => None) (fun _ => []) (fun _ _ => false)
           config_with_entry).
  reflexivity.
Defined.

Lemma supplied_entryPoints_need_no_manifest_witness :
  processConfig (fun _ => None) (fun _ => []) (fun _ _ => false) config_with_entry
  = processConfig (fun _ => Some tsconfig_with_empty_files) (fun _ => ["src/a.ts"])
      (fun _ _ => true) config_with_entry.
Proof.
  apply (supplied_entryPoints_need_no_manifest (fun _ => None)
           (fun _ => Some tsconfig_with_empty_files) (fun _ => []) (fun _ => ["src/a.ts"])
           (fun _ _ => false) (fun _ _ => true) config_with_entry).
  discriminate.
Defined.

Lemma guessEntryPoints_include_sound_witness :
  guessEntryPoints
    (fun _ => Some {| files := None; include := Some ["src/*.ts"];
                      exclude := Some ["*.d.ts"] |})
    (fun _ => ["src/x.d.ts"; "src/a.ts"; "src/b.ts"])
    (fun _ fn => String.eqb fn "src/x.d.ts")
    config_without_entry
  = ["src/a.ts"].
Proof.
  apply (guessEntryPoints_include_sound
           (fun _ => Some {| files := None; include := Some ["src/*.ts"];
                             exclude := Some ["*.d.ts"] |})
           (fun _ => ["src/x.d.ts"; "src/a.ts"; "src/b.ts"])
           (fun _ fn => String.eqb fn "src/x.d.ts")
           config_without_entry
           {| files := None; include := Some ["src/*.ts"]; exclude := Some ["*.d.ts"] |}
           ["src/*.ts"] "src/a.ts"); try reflexivity.
  simpl. now left.
Defined.

Lemma declared_files_hide_include_witness :
  processConfig (fun _ => Some tsconfig_with_empty_files) (fun _ => ["src/a.ts"])
    (fun _ _ => false) config_without_entry
  = inl (Js.Error
           "config.entryPoints is empty or not set (could not guess from tsconfig.json)").
Proof.
  apply (declared_files_hide_include (fun _ => Some tsconfig_with_empty_files)
           (fun _ => ["src/a.ts"]) (fun _ _ => false) config_without_entry
           tsconfig_with_empty_files []); reflexivity.
Defined.

End Config.

(** ** Project identity: [projectIDForConfig], [base36EncodeBuf], [sha1] *)

Module Identity.

Local Open Scope Z_scope.

(** *** SHA-1 over byte lists

    [sha1(input)] is [crypto.createHash('sha1').update(input).digest()] of
    the Node.js runtime.  It is written out here (FIPS 180-4) so that
    identities can be computed; bytes and 32-bit words are integers. *)

Definition w32 (x : Z) : Z := x mod 2 ^ 32.

Definition rotl (n x : Z) : Z :=
  w32 (Z.lor (Z.shiftl x n) (Z.shiftr x (32 - n))).

(** A 32-bit word as four bytes, most significant first. *)
Definition be_bytes (x : Z) : list Z :=
  [Z.shiftr x 24 mod 256; Z.shiftr x 16 mod 256; Z.shiftr x 8 mod 256; x mod 256].

Definition be_word (b0 b1 b2 b3 : Z) : Z :=
  Z.lor (Z.shiftl b0 24) (Z.lor (Z.shiftl b1 16) (Z.lor (Z.shiftl b2 8) b3)).

(** Padding: a one bit, zeros up to 56 mod 64, the bit length on 64 bits. *)
Definition sha1_pad (msg : list Z) : list Z :=
  let len := Z.of_nat (length msg) in
  let zeros := Z.to_nat ((55 - len) mod 64) in
  let bits := 8 * len in
  msg ++ [128] ++ repeat 0 zeros
      ++ be_bytes (Z.shiftr bits 32 mod 2 ^ 32) ++ be_bytes (bits mod 2 ^ 32).

(** The big-endian words of a byte list (a trailing partial word is dropped;
    padded messages have none). *)
Fixpoint be_words (bs : list Z) : list Z :=
  match bs with
  | b0 :: b1 :: b2 :: b3 :: rest => be_word b0 b1 b2 b3 :: be_words rest
  | _ => []
  end.

(** Message schedule, most recent word first: [rev_ws] holds W[t-1], W[t-2], ... *)
Fixpoint sha1_schedule (n : nat) (rev_ws : list Z) : list Z :=
  match n with
  | O => rev_ws
  | S n' =>
      let w := rotl 1 (Z.lxor (Z.lxor (nth 2 rev_ws 0) (nth 7 rev_ws 0))
                              (Z.lxor (nth 13 rev_ws 0) (nth 15 rev_ws 0))) in
      sha1_schedule n' (w :: rev_ws)
  end.

Definition sha1_f (t : nat) (b c d : Z) : Z :=
  if (t <? 20)%nat then Z.lor (Z.land b c) (Z.land (Z.lxor b (2 ^ 32 - 1)) d)
  else if (t <? 40)%nat then Z.lxor (Z.lxor b c) d
  else if (t <? 60)%nat then Z.lor (Z.lor (Z.land b c) (Z.land b d)) (Z.land c d)
  else Z.lxor (Z.lxor b c) d.

Definition sha1_k (t : nat) : Z :=
  if (t <? 20)%nat then 1518500249
  else if (t <? 40)%nat then 1859775393
  else if (t <? 60)%nat then 2400959708
  else 3395469782.

Definition Sha1State : Type := Z * Z * Z * Z * Z.

Fixpoint sha1_rounds (t : nat) (ws : list Z) (s : Sha1State) : Sha1State :=
  match ws with
  | [] => s
  | w :: ws' =>
      let '(a, b, c, d, e) := s in
      let tmp := w32 (rotl 5 a + sha1_f t b c d + e + sha1_k t + w) in
      sha1_rounds (S t) ws' (tmp, a, rotl 30 b, c, d)
  end.

Definition sha1_block (h : Sha1State) (block : list Z) : Sha1State :=
  let ws := rev (sha1_schedule 64 (rev block)) in
  let '(h0, h1, h2, h3, h4) := h in
  let '(a, b, c, d, e) := sha1_rounds 0 ws h in
  (w32 (h0 + a), w32 (h1 + b), w32 (h2 + c), w32 (h3 + d), w32 (h4 + e)).

(** Consume the words sixteen at a time. *)
Fixpoint sha1_blocks (n : nat) (ws : list Z) (h : Sha1State) : Sha1State :=
  match n with
  | O => h
  | S n' => sha1_blocks n' (drop 16 ws) (sha1_block h (take 16 ws))
  end.

Definition sha1_init : Sha1State :=
  (1732584193, 4023233417, 2562383102, 271733878, 3285377520).

Definition sha1 (input : list Z) : list Z :=
  let ws := be_words (sha1_pad input) in
  let '(h0, h1, h2, h3, h4) := sha1_blocks (length ws / 16)%nat ws sha1_init in
  be_bytes h0 ++ be_bytes h1 ++ be_bytes h2 ++ be_bytes h3 ++ be_bytes h4.

(** [Buffer.from(s, "utf8")]: a string is its sequence of bytes. *)
Definition Buffer_from (s : string) : list Z :=
  map (fun c => Z.of_N (N_of_ascii c)) (list_ascii_of_string s).

Definition digit36 (d : Z) : string :=
  String.substring (Z.to_nat d) 1 "0123456789abcdefghijklmnopqrstuvwxyz".

Definition hex_of_bytes (bs : list Z) : string :=
  fold_right (fun b acc => digit36 (b / 16) ++ digit36 (b mod 16) ++ acc)%string
             ""%string bs.

(** The standard test vectors. *)
Example sha1_empty :
  hex_of_bytes (sha1 (Buffer_from "")) = "da39a3ee5e6b4b0d3255bfef95601890afd80709"%string.
Proof. vm_compute. reflexivity. Qed.

Example sha1_abc :
  hex_of_bytes (sha1 (Buffer_from "abc")) = "a9993e364706816aba3e25717850c26c9cd0d89d"%string.
Proof. vm_compute. reflexivity. Qed.

Example sha1_two_blocks :
  hex_of_bytes
    (sha1 (Buffer_from "abcdbcdecdefdefgefghfghighijhijkijkljklmklmnlmnomnopnopq"))
  = "84983e441c3bd26ebaae4aa1f95129e5e54670f1"%string.
Proof. vm_compute. reflexivity. Qed.

Lemma sha1_length input : length (sha1 input) = 20%nat.
Proof.
  unfold sha1.
  destruct (sha1_blocks _ _ _) as [[[[h0 h1] h2] h3] h4]. reflexivity.
Qed.

(** *** [base36EncodeBuf] *)

(** [n.toString(36)] for a non-negative integer: no padding, ["0"] for zero. *)
Fixpoint toString36_go (fuel : nat) (n : Z) (acc : string) : string :=
  match fuel with
  | O => acc
  | S fuel' =>
      let acc' := (digit36 (n mod 36) ++ acc)%string in
      if n / 36 =? 0 then acc' else toString36_go fuel' (n / 36) acc'
  end.

Definition toString36 (n : Z) : string :=
  toString36_go (S (Z.to_nat (Z.log2 n))) n ""%string.

(** [buf.readUInt32LE(i)] on the four bytes at [i]. *)
Definition readUInt32LE (b0 b1 b2 b3 : Z) : Z :=
  b0 + b1 * 2 ^ 8 + b2 * 2 ^ 16 + b3 * 2 ^ 24.

(** A number in decimal, as a template literal prints it. *)
Definition decimal (n : nat) : string := pretty (N.of_nat n).

(** The runtime's [addNumericalSeparator]: an underscore before every
    group of three digits, counted from the right. *)
Fixpoint separate (digits : list ascii) : list ascii :=
  match digits with
  | a :: b :: c :: rest =>
      match rest with
      | [] => digits
      | _ :: _ => a :: b :: c :: "_"%char :: separate rest
      end
  | _ => digits
  end.

Definition addNumericalSeparator (val : string) : string :=
  string_of_list_ascii (rev (separate (rev (list_ascii_of_string val)))).

(** What [buf.readUInt32LE(offset)] throws when the four bytes at
    [offset] are not all there, for a buffer of [len] bytes: the
    runtime's [ERR_BUFFER_OUT_OF_BOUNDS] when the buffer has fewer than
    four bytes, its [ERR_OUT_OF_RANGE] otherwise; both are [RangeError]s.
    The received value is printed with separators when it exceeds 2^32. *)
Definition outOfBounds (len offset : nat) : Js.Exn :=
  if (len <? 4)%nat
  then Js.RangeError "Attempt to access memory outside buffer bounds"
  else Js.RangeError
         ("The value of " ++ String "034"%char "offset" ++ String "034"%char
          " is out of range. It must be >= 0 and <= " ++ decimal (len - 4) ++
          ". Received " ++
          (if (2 ^ 32 <? Z.of_nat offset)%Z
           then addNumericalSeparator (decimal offset)
           else decimal offset))%string.

(** [for (i = 0; i < buf.length; i += 4) s += buf.readUInt32LE(i).toString(36)],
    from offset [i] on, for a buffer of [len] bytes of which [buf] are
    left. *)
Fixpoint base36EncodeBuf_from (len i : nat) (s : string) (buf : list Z)
  : Js.Exn + string :=
  match buf with
  | [] => inr s
  | b0 :: b1 :: b2 :: b3 :: rest =>
      base36EncodeBuf_from len (i + 4)
        (s ++ toString36 (readUInt32LE b0 b1 b2 b3))%string rest
  | _ => inl (outOfBounds len i)
  end.

Definition base36EncodeBuf (buf : list Z) : Js.Exn + string :=
  base36EncodeBuf_from (length buf) 0 ""%string buf.

Example toString36_values :
  map toString36 [0; 35; 36; 1295; 4294967295]
  = ["0"; "z"; "10"; "zz"; "1z141z3"]%string.
Proof. vm_compute. reflexivity. Qed.

Example base36EncodeBuf_two_words :
  base36EncodeBuf [1; 0; 0; 0; 0; 1; 0; 0] = inr "174"%string.
Proof. vm_compute. reflexivity. Qed.

Example base36EncodeBuf_short_buffer :
  base36EncodeBuf [1; 0; 0] = inl (Js.RangeError "Attempt to access memory outside buffer bounds").
Proof. reflexivity. Qed.

Example base36EncodeBuf_five_bytes :
  base36EncodeBuf [1; 2; 3; 4; 5]
  = inl (Js.RangeError
           ("The value of " ++ String "034"%char "offset" ++ String "034"%char
            " is out of range. It must be >= 0 and <= 1. Received 4")%string).
Proof. vm_compute. reflexivity. Qed.

Example addNumericalSeparator_values :
  map addNumericalSeparator ["123"; "1234"; "4294967300"]%string
  = ["123"; "1_234"; "4_294_967_300"]%string.
Proof. vm_compute. reflexivity. Qed.

(** A buffer whose length is a multiple of four is always encoded. *)
Lemma base36EncodeBuf_from_total (n : nat) : forall len i buf s,
  length buf = (4 * n)%nat -> exists id, base36EncodeBuf_from len i s buf = inr id.
Proof.
  induction n as [|n IH]; intros len i buf s Hlen.
  - destruct buf; [|discriminate]. now exists s.
  - destruct buf as [|b0 [|b1 [|b2 [|b3 rest]]]]; simpl in Hlen; try lia.
    simpl. apply IH. lia.
Qed.

(** *** [projectIDForConfig] *)

(** [config.entryPoints] as [projectIDForConfig] may find it: an array, a
    single string, or nothing. *)
Inductive EntryPoints :=
| EPArray (l : list string)
| EPString (s : string)
| EPAbsent.

(** The fields read by [projectIDForConfig], and the slot [config[PROJECT_ID]]
    on which the identity is memoized. *)
Record Config := {
  cwd : option string;
  outfile : option string;
  entryPoints : EntryPoints;
  PROJECT_ID : option string;
}.

(** The (cwd, outfile, entryPoints) triple of a configuration. *)
Definition triple (config : Config) : option string * option string * EntryPoints :=
  (cwd config, outfile config, entryPoints config).

(** [Array.isArray(eps) ? eps : eps ? [eps] : []] *)
Definition entryPointList (eps : EntryPoints) : list string :=
  match eps with
  | EPArray l => l
  | EPString s => if Js.str_truthy s then [s] else []
  | EPAbsent => []
  end.

(** [array.join(sep)] *)
Fixpoint join (sep : string) (l : list string) : string :=
  match l with
  | [] => ""
  | [x] => x
  | x :: rest => x ++ sep ++ join sep rest
  end%string.

Section ProjectID.

(** [Path.delimiter]: [":"] on POSIX, [";"] on Windows. *)
Variable delimiter : string.

(** [[config.cwd, config.outfile||"", ...entryPoints].join(Path.delimiter)];
    [join] renders an undefined [cwd] as the empty string. *)
Definition projectKey (config : Config) : string :=
  join delimiter
       (default ""%string (cwd config)
        :: (match outfile config with
            | Some o => if Js.str_truthy o then o else ""%string
            | None => ""%string
            end)
        :: entryPointList (entryPoints config)).

(** The identity computed from scratch. *)
Definition computeProjectID (config : Config) : Js.Exn + string :=
  base36EncodeBuf (sha1 (Buffer_from (projectKey config))).

(** [projectIDForConfig(config)]: the identity and the configuration with the
    memo slot filled. *)
Definition projectIDForConfig (config : Config) : Js.Exn + (string * Config) :=
  match PROJECT_ID config with
  | Some projectID =>
      if Js.str_truthy projectID then inr (projectID, config)
      else
        match computeProjectID config with
        | inr id => inr (id, {| cwd := cwd config; outfile := outfile config;
                                entryPoints := entryPoints config;
                                PROJECT_ID := Some id |})
        | inl e => inl e
        end
  | None =>
      match computeProjectID config with
      | inr id => inr (id, {| cwd := cwd config; outfile := outfile config;
                              entryPoints := entryPoints config;
                              PROJECT_ID := Some id |})
      | inl e => inl e
      end
  end.

(** The identity string alone. *)
Definition identity (config : Config) : Js.Exn + string :=
  match projectIDForConfig config with
  | inr (id, _) => inr id
  | inl e => inl e
  end.

Lemma computeProjectID_total config : exists id, computeProjectID config = inr id.
Proof.
  unfold computeProjectID, base36EncodeBuf.
  apply (base36EncodeBuf_from_total 5). apply sha1_length.
Qed.

Lemma identity_fresh config :
  PROJECT_ID config = None -> identity config = computeProjectID config.
Proof.
  intros H. unfold identity, projectIDForConfig. rewrite H.
  destruct (computeProjectID config); reflexivity.
Qed.

Lemma triple_projectKey c1 c2 : triple c1 = triple c2 -> projectKey c1 = projectKey c2.
Proof.
  unfold triple, projectKey. intros H. injection H as -> -> ->. reflexivity.
Qed.

(** Memoization: once computed, the identity is read back from the slot. *)
Lemma projectIDForConfig_memo config id config' :
  projectIDForConfig config = inr (id, config') ->
  projectIDForConfig config' = inr (id, config').
Proof.
  assert (Hsame : forall m,
    computeProjectID {| cwd := cwd config; outfile := outfile config;
                        entryPoints := entryPoints config; PROJECT_ID := m |}
    = computeProjectID config) by reflexivity.
  unfold projectIDForConfig.
  destruct (PROJECT_ID config) as [m|] eqn:Hm.
  - destruct (Js.str_truthy m) eqn:Ht.
    + intros [= <- <-]. now rewrite Hm, Ht.
    + destruct (computeProjectID config) as [e|i] eqn:Hc; [discriminate|].
      intros [= <- <-]. cbn [PROJECT_ID].
      destruct (Js.str_truthy i) eqn:Hi; [reflexivity|].
      now rewrite Hsame.
  - destruct (computeProjectID config) as [e|i] eqn:Hc; [discriminate|].
    intros [= <- <-]. cbn [PROJECT_ID].
    destruct (Js.str_truthy i) eqn:Hi; [reflexivity|].
    now rewrite Hsame.
Qed.

(** C4 (amended). On configurations whose identity has not been memoized
    yet, the identity is always produced and is a pure function of the
    (cwd, outfile, entryPoints) triple: equal triples yield the same
    identity string.  It depends on the triple only through the joined
    key, so configurations with equal keys share their identity, whether
    or not their triples are equal. *)
Theorem identity_of_equal_triples (c1 c2 : Config) :
  PROJECT_ID c1 = None -> PROJECT_ID c2 = None ->
  (exists id, identity c1 = inr id) /\
  (triple c1 = triple c2 -> identity c1 = identity c2) /\
  (projectKey c1 = projectKey c2 -> identity c1 = identity c2).
Proof.
  intros H1 H2. rewrite !identity_fresh by assumption.
  split; [apply computeProjectID_total|].
  assert (Hkey : projectKey c1 = projectKey c2 ->
                 computeProjectID c1 = computeProjectID c2).
  { intros Hk. unfold computeProjectID. now rewrite Hk. }
  split; [|exact Hkey].
  intros Ht. apply Hkey, triple_projectKey, Ht.
Qed.

End ProjectID.

(** Two projects in the same directory: one with the single entry point
    ["a:b"], one with the two entry points ["a"] and ["b"]. *)
Definition config_one_entry : Config :=
  {| cwd := Some "/p"%string; outfile := None;
     entryPoints := EPArray ["a:b"%string]; PROJECT_ID := None |}.

Definition config_two_entries : Config :=
  {| cwd := Some "/p"%string; outfile := None;
     entryPoints := EPArray ["a"; "b"]%string; PROJECT_ID := None |}.

Example projectKey_one_entry : projectKey ":" config_one_entry = "/p::a:b"%string.
Proof. reflexivity. Qed.

Example projectKey_two_entries : projectKey ":" config_two_entries = "/p::a:b"%string.
Proof. reflexivity. Qed.

(** C4 (as stated) fails: unequal triples with the same identity. *)
Lemma identity_collision :
  triple config_one_entry <> triple config_two_entries /\
  identity ":" config_one_entry = inr "1hxsnbzu60do0lwnfp9ts5lap1n0jpds"%string /\
  identity ":" config_two_entries = inr "1hxsnbzu60do0lwnfp9ts5lap1n0jpds"%string.
Proof.
  split; [discriminate|]. split; vm_compute; reflexivity.
Qed.

Lemma identity_of_equal_triples_witness :
  PROJECT_ID config_one_entry = None /\
  PROJECT_ID config_two_entries = None /\
  projectKey ":" config_one_entry = projectKey ":" config_two_entries /\
  identity ":" config_one_entry = identity ":" config_two_entries.
Proof.
  split; [reflexivity|]. split; [reflexivity|]. split; [reflexivity|].
  destruct (identity_of_equal_triples ":" config_one_entry config_two_entries
              eq_refl eq_refl) as (_ & _ & Hkey).
  exact (Hkey eq_refl).
Defined.

(** *** The shape of an identity *)

(** The characters [0-9a-z]. *)
Definition is_digit36 (c : ascii) : bool :=
  let n := nat_of_ascii c in
  ((48 <=? n) && (n <=? 57) || (97 <=? n) && (n <=? 122))%nat.

Fixpoint is_base36 (s : string) : bool :=
  match s with
  | EmptyString => true
  | String c s' => is_digit36 c && is_base36 s'
  end.

Lemma is_base36_app s1 s2 :
  is_base36 (s1 ++ s2)%string = is_base36 s1 && is_base36 s2.
Proof.
  induction s1 as [|c s1 IH]; simpl; [reflexivity|].
  now rewrite IH, andb_assoc.
Qed.

Lemma length_string_app s1 s2 :
  String.length (s1 ++ s2)%string = (String.length s1 + String.length s2)%nat.
Proof. induction s1 as [|c s1 IH]; simpl; [reflexivity|]. now rewrite IH. Qed.

Lemma digit36_spec d :
  0 <= d < 36 -> is_base36 (digit36 d) = true /\ String.length (digit36 d) = 1%nat.
Proof.
  intros Hd. unfold digit36.
  assert (Hn : (Z.to_nat d < 36)%nat) by lia.
  generalize dependent (Z.to_nat d). intros n Hn.
  do 36 (destruct n as [|n]; [split; reflexivity|]). lia.
Qed.

(** [toString36] writes between one and [k] digits for a number below [36^k]. *)
Lemma toString36_go_spec fuel : forall n acc k,
  0 <= n < 36 ^ Z.of_nat (S k) ->
  is_base36 acc = true ->
  is_base36 (toString36_go fuel n acc) = true /\
  (String.length acc <= String.length (toString36_go fuel n acc)
   <= String.length acc + S k)%nat.
Proof.
  induction fuel as [|fuel IH]; intros n acc k Hn Hacc; simpl.
  - split; [exact Hacc|lia].
  - assert (Hmod : 0 <= n mod 36 < 36) by (apply Z.mod_pos_bound; lia).
    destruct (digit36_spec (n mod 36) Hmod) as [Hd Hl].
    assert (Hacc' : is_base36 (digit36 (n mod 36) ++ acc)%string = true)
      by (rewrite is_base36_app, Hd, Hacc; reflexivity).
    assert (Hlen' : String.length (digit36 (n mod 36) ++ acc)%string
                    = S (String.length acc))
      by (rewrite length_string_app, Hl; reflexivity).
    destruct (n / 36 =? 0) eqn:Hq.
    + split; [exact Hacc'|]. rewrite Hlen'. lia.
    + apply Z.eqb_neq in Hq.
      destruct k as [|k].
      * exfalso. apply Hq. apply Z.div_small. simpl in Hn. lia.
      * destruct (IH (n / 36) (digit36 (n mod 36) ++ acc)%string k) as [Hb Hl'];
          [|exact Hacc'|].
        { split; [apply Z.div_pos; lia|].
          apply Z.div_lt_upper_bound; [lia|].
          replace (36 * 36 ^ Z.of_nat (S k)) with (36 ^ Z.of_nat (S (S k))); [lia|].
          rewrite (Nat2Z.inj_succ (S k)), Z.pow_succ_r by lia. reflexivity. }
        split; [exact Hb|]. rewrite Hlen' in Hl'. lia.
Qed.

Lemma append_empty_r (s : string) : (s ++ "")%string = s.
Proof.
  induction s as [|c s IH]; [reflexivity|].
  change (String c (s ++ "")%string = String c s). now rewrite IH.
Qed.

Lemma toString36_word w :
  0 <= w < 2 ^ 32 ->
  is_base36 (toString36 w) = true /\
  (1 <= String.length (toString36 w) <= 7)%nat.
Proof.
  intros Hw. unfold toString36.
  remember (Z.to_nat (Z.log2 w)) as fuel. simpl.
  assert (Hmod : 0 <= w mod 36 < 36) by (apply Z.mod_pos_bound; lia).
  destruct (digit36_spec (w mod 36) Hmod) as [Hd Hl].
  destruct (w / 36 =? 0) eqn:Hq.
  - rewrite append_empty_r, Hd, Hl. split; [reflexivity|lia].
  - destruct (toString36_go_spec fuel (w / 36) (digit36 (w mod 36) ++ "")%string 5)
      as [Hb Hlen].
    + split; [apply Z.div_pos; lia|].
      apply Z.div_lt_upper_bound; [lia|]. change (36 ^ Z.of_nat 6) with 2176782336. lia.
    + rewrite is_base36_app, Hd. reflexivity.
    + rewrite length_string_app, Hl in Hlen. simpl in Hlen.
      split; [exact Hb|lia].
Qed.

Definition is_byte (b : Z) : Prop := 0 <= b < 256.

Lemma readUInt32LE_range b0 b1 b2 b3 :
  is_byte b0 -> is_byte b1 -> is_byte b2 -> is_byte b3 ->
  0 <= readUInt32LE b0 b1 b2 b3 < 2 ^ 32.
Proof. unfold is_byte, readUInt32LE. intros. lia. Qed.

Lemma outOfBounds_message len i :
  exists msg, outOfBounds len i = Js.RangeError msg /\
    (msg = "Attempt to access memory outside buffer bounds"%string <-> (len < 4)%nat).
Proof.
  unfold outOfBounds. destruct (Nat.ltb_spec len 4) as [Hlt|Hge].
  - eexists. split; [reflexivity|]. split; auto.
  - eexists. split; [reflexivity|]. split; [discriminate|lia].
Qed.

(** X1. [base36EncodeBuf] returns exactly for the buffers whose length is
    a multiple of four.  For every other buffer the read of the last,
    incomplete word raises a [RangeError], whatever was encoded before:
    the runtime's "Attempt to access memory outside buffer bounds" exactly
    when the whole buffer has fewer than four bytes, its out-of-range
    error for the offset of that word otherwise. *)
Theorem base36EncodeBuf_defined_iff (buf : list Z) :
  ((exists id, base36EncodeBuf buf = inr id) <-> (length buf mod 4 = 0)%nat) /\
  ((length buf mod 4 <> 0)%nat ->
   base36EncodeBuf buf = inl (outOfBounds (length buf) (4 * (length buf / 4))) /\
   exists msg, base36EncodeBuf buf = inl (Js.RangeError msg) /\
     (msg = "Attempt to access memory outside buffer bounds"%string
      <-> (length buf < 4)%nat)).
Proof.
  unfold base36EncodeBuf.
  assert (H : forall n (buf : list Z) len i s, (length buf <= n)%nat ->
    ((length buf mod 4 = 0)%nat ->
     exists id, base36EncodeBuf_from len i s buf = inr id) /\
    ((length buf mod 4 <> 0)%nat ->
     base36EncodeBuf_from len i s buf
     = inl (outOfBounds len (i + 4 * (length buf / 4))))).
  { induction n as [|n IH]; intros b len i s Hlen.
    - destruct b; [|simpl in Hlen; lia]. simpl. split; [eauto|congruence].
    - destruct b as [|b0 [|b1 [|b2 [|b3 rest]]]];
        try (simpl; split; [intros; eauto; discriminate|
                            intros; try congruence; now rewrite Nat.add_0_r]).
      change (length (b0 :: b1 :: b2 :: b3 :: rest)) with (4 + length rest)%nat.
      replace ((4 + length rest) mod 4)%nat with (length rest mod 4)%nat
        by (rewrite Nat.add_comm; rewrite <- (Nat.Div0.mod_add (length rest) 1 4);
            f_equal; lia).
      replace ((4 + length rest) / 4)%nat with (S (length rest / 4))
        by (change (4 + length rest)%nat with (1 * 4 + length rest)%nat;
            rewrite Nat.div_add_l by lia; reflexivity).
      simpl base36EncodeBuf_from.
      destruct (IH rest len (i + 4)%nat
                  (s ++ toString36 (readUInt32LE b0 b1 b2 b3))%string) as [Hok Hbad];
        [simpl in Hlen; lia|].
      split; [exact Hok|]. intros Hne. rewrite (Hbad Hne). do 2 f_equal. lia. }
  destruct (H (length buf) buf (length buf) 0%nat ""%string (le_n _)) as [Hok Hbad].
  split.
  - split; [|exact Hok].
    intros [id Hid].
    destruct (Nat.eq_dec (length buf mod 4)%nat 0%nat) as [|Hne]; [assumption|].
    rewrite (Hbad Hne) in Hid. discriminate.
  - intros Hne. rewrite (Hbad Hne). rewrite Nat.add_0_l. split; [reflexivity|].
    destruct (outOfBounds_message (length buf) (4 * (length buf / 4)))
      as (msg & -> & Hmsg).
    exists msg. split; [reflexivity|exact Hmsg].
Qed.

Lemma base36EncodeBuf_from_shape n : forall len i buf s,
  length buf = (4 * n)%nat -> Forall is_byte buf -> is_base36 s = true ->
  exists id, base36EncodeBuf_from len i s buf = inr id /\ is_base36 id = true /\
    (String.length s + n <= String.length id <= String.length s + 7 * n)%nat.
Proof.
  induction n as [|n IH]; intros len i buf s Hlen Hb Hs.
  - destruct buf; [|discriminate]. exists s. simpl. repeat split; auto; lia.
  - destruct buf as [|b0 [|b1 [|b2 [|b3 rest]]]]; simpl in Hlen; try lia.
    inversion Hb as [|? ? H0 Hb1]; subst. inversion Hb1 as [|? ? H1 Hb2]; subst.
    inversion Hb2 as [|? ? H2 Hb3]; subst. inversion Hb3 as [|? ? H3 Hrest]; subst.
    destruct (toString36_word _ (readUInt32LE_range b0 b1 b2 b3 H0 H1 H2 H3)) as [Hw Hl].
    destruct (IH len (i + 4)%nat rest
                (s ++ toString36 (readUInt32LE b0 b1 b2 b3))%string)
      as (id & Hid & Hbase & Hlen'); [lia|exact Hrest| |].
    + rewrite is_base36_app, Hs, Hw. reflexivity.
    + exists id. simpl. split; [exact Hid|]. split; [exact Hbase|].
      rewrite length_string_app in Hlen'. lia.
Qed.

Lemma be_bytes_bytes x : Forall is_byte (be_bytes x).
Proof.
  unfold be_bytes, is_byte.
  repeat constructor; apply Z.mod_pos_bound; lia.
Qed.

Lemma sha1_bytes input : Forall is_byte (sha1 input).
Proof.
  unfold sha1. destruct (sha1_blocks _ _ _) as [[[[h0 h1] h2] h3] h4].
  repeat (apply Forall_app; split); apply be_bytes_bytes.
Qed.

Section IdentityShape.

Variable delimiter : string.

(** The characters and the length of a computed identity. *)
Lemma identity_digits (config : Config) :
  PROJECT_ID config = None ->
  exists id, identity delimiter config = inr id /\
    is_base36 id = true /\
    (5 <= String.length id <= 35)%nat.
Proof.
  intros Hfresh. rewrite (identity_fresh delimiter config Hfresh).
  unfold computeProjectID, base36EncodeBuf.
  destruct (base36EncodeBuf_from_shape 5
              (length (sha1 (Buffer_from (projectKey delimiter config)))) 0%nat
              (sha1 (Buffer_from (projectKey delimiter config))) ""%string)
    as (id & Hid & Hb & Hl).
  - apply sha1_length.
  - apply sha1_bytes.
  - reflexivity.
  - exists id. simpl in Hl. repeat split; auto; lia.
Qed.

(** X2. A freshly computed project identity is a string of 5 to 35
    characters, all of them digits or lower-case letters: five 32-bit
    words of the digest, each written with one to seven base-36 digits.
    In particular it is never empty, and it can be put in a file name. *)
Theorem identity_shape (config : Config) :
  PROJECT_ID config = None ->
  exists id, identity delimiter config = inr id /\
    is_base36 id = true /\
    (5 <= String.length id <= 35)%nat.
Proof. exact (identity_digits config). Qed.

Lemma str_truthy_length (s : string) :
  (1 <= String.length s)%nat -> Js.str_truthy s = true.
Proof. destruct s; simpl; [lia|reflexivity]. Qed.

(** X3. The identity is memoized on the configuration: once
    [projectIDForConfig] has computed it, every later call on that
    configuration object returns the same identity without recomputing,
    even after [cwd], [outfile] or [entryPoints] have been changed. *)
Theorem identity_memoized (config config' : Config) (id : string)
    (cwd' outfile' : option string) (entryPoints' : EntryPoints) :
  PROJECT_ID config = None ->
  projectIDForConfig delimiter config = inr (id, config') ->
  projectIDForConfig delimiter
    {| cwd := cwd'; outfile := outfile'; entryPoints := entryPoints';
       PROJECT_ID := PROJECT_ID config' |}
  = inr (id, {| cwd := cwd'; outfile := outfile'; entryPoints := entryPoints';
                PROJECT_ID := PROJECT_ID config' |}).
Proof.
  intros Hfresh Hcall.
  destruct (identity_digits config Hfresh) as (id0 & Hid & _ & Hlen).
  unfold identity in Hid. rewrite Hcall in Hid. injection Hid as <-.
  unfold projectIDForConfig in Hcall. rewrite Hfresh in Hcall.
  destruct (computeProjectID delimiter config) as [e|i]; [discriminate|].
  injection Hcall as <- <-.
  unfold projectIDForConfig. cbn [PROJECT_ID].
  now rewrite str_truthy_length by lia.
Qed.

End IdentityShape.

Lemma identity_shape_witness :
  exists id, identity ":" config_one_entry = inr id /\
    is_base36 id = true /\ (5 <= String.length id <= 35)%nat.
Proof. apply (identity_shape ":" config_one_entry). reflexivity. Defined.

Lemma identity_memoized_witness :
  projectIDForConfig ":"
    {| cwd := Some "/elsewhere"%string; outfile := Some "out.js"%string;
       entryPoints := EPString "main.ts";
       PROJECT_ID := Some "1hxsnbzu60do0lwnfp9ts5lap1n0jpds"%string |}
  = inr ("1hxsnbzu60do0lwnfp9ts5lap1n0jpds"%string,
         {| cwd := Some "/elsewhere"%string; outfile := Some "out.js"%string;
            entryPoints := EPString "main.ts";
            PROJECT_ID := Some "1hxsnbzu60do0lwnfp9ts5lap1n0jpds"%string |}).
Proof.
  apply (identity_memoized ":" config_one_entry
           {| cwd := Some "/p"%string; outfile := None;
              entryPoints := EPArray ["a:b"%string];
              PROJECT_ID := Some "1hxsnbzu60do0lwnfp9ts5lap1n0jpds"%string |}).
  - reflexivity.
  - vm_compute. reflexivity.
Defined.

Lemma base36EncodeBuf_defined_iff_witness :
  base36EncodeBuf [1; 2; 3; 4; 5]%Z = inl (outOfBounds 5 4) /\
  base36EncodeBuf [1; 2; 3]%Z
  = inl (Js.RangeError "Attempt to access memory outside buffer bounds").
Proof.
  split.
  - destruct (base36EncodeBuf_defined_iff [1; 2; 3; 4; 5]%Z) as [_ H].
    apply H. simpl. lia.
  - destruct (base36EncodeBuf_defined_iff [1; 2; 3]%Z) as [_ H].
    apply H. simpl. lia.
Defined.

End Identity.

(** ** The cancellable build handle and the build cycle *)

Module Build.

(** What a build does to the outside world, in the order it happens. *)
Inductive Event :=
| LogDebug (msg : string)
| LogInfo (msg : string)
| LogWarn (msg : string)
| LogError (msg : string)
| Invoked (f : nat)                       (* a cancel callback was called *)
| ScreenClear                             (* screen.clear() *)
| OnStart (changedFiles : list string)    (* config.onStart(config, changedFiles, ctx) *)
| EsbuildBuild                            (* esbuild.build(esbuildOptions) *)
| PatchSourceMap                          (* patchSourceMap(mapfile, overrides) *)
| Chmod                                   (* chmod(config.outfile, config.outfileMode) *)
| OnEnd (warnings errors : list string)   (* userOnEnd(config, {warnings, errors}, ctx) *)
| SetErrorExitCode
| TSLintCancel.                           (* tslintProcess.cancel() *)

#[global] Instance Event_eq_dec : EqDecision Event.
Proof. solve_decision. Defined.

(** A cleanup function passed to [addCancelCallback].  It is named by a
    number; it is called for its effect outside the handle (it cancels a
    watcher or a subprocess), the call is recorded as [Invoked], and the
    call either returns or throws. *)
Record Cleanup := {
  fn_id : nat;
  fn_throws : option Js.Exn;
}.

(** A value passed to [addCancelCallback]: a function, or a falsy value
    such as [undefined] (skipped by [f && f()]). *)
Definition Callback : Type := option Cleanup.

(** The state of the promise returned by [build]. *)
Inductive Settled :=
| Pending
| Resolved (v : Js.Value)
| Rejected (e : Js.Exn).

(** The mutable state behind one [build()] call: [config[CANCELED]] of the
    configuration object [build] works on, the [cancelCallbacks] array,
    the [resolver] object, the promise [p], the [ctx.rebuild] slot, the
    flag [isInsideCallToUserOnEnd], and the effects so far. *)
Record Handle := {
  CANCELED : bool;
  cancelCallbacks : list Callback;
  resolverInstalled : bool;      (* resolver.resolve/reject are the promise's own *)
  promise : Settled;
  rebuildInstalled : bool;       (* build1 has replaced ctx.rebuild *)
  isInsideCallToUserOnEnd : bool;
  log : list Event;
}.

Definition set_CANCELED (b : bool) (h : Handle) : Handle :=
  {| CANCELED := b; cancelCallbacks := cancelCallbacks h;
     resolverInstalled := resolverInstalled h; promise := promise h;
     rebuildInstalled := rebuildInstalled h;
     isInsideCallToUserOnEnd := isInsideCallToUserOnEnd h; log := log h |}.

Definition set_cancelCallbacks (l : list Callback) (h : Handle) : Handle :=
  {| CANCELED := CANCELED h; cancelCallbacks := l;
     resolverInstalled := resolverInstalled h; promise := promise h;
     rebuildInstalled := rebuildInstalled h;
     isInsideCallToUserOnEnd := isInsideCallToUserOnEnd h; log := log h |}.

Definition set_resolverInstalled (b : bool) (h : Handle) : Handle :=
  {| CANCELED := CANCELED h; cancelCallbacks := cancelCallbacks h;
     resolverInstalled := b; promise := promise h;
     rebuildInstalled := rebuildInstalled h;
     isInsideCallToUserOnEnd := isInsideCallToUserOnEnd h; log := log h |}.

Definition set_promise (p : Settled) (h : Handle) : Handle :=
  {| CANCELED := CANCELED h; cancelCallbacks := cancelCallbacks h;
     resolverInstalled := resolverInstalled h; promise := p;
     rebuildInstalled := rebuildInstalled h;
     isInsideCallToUserOnEnd := isInsideCallToUserOnEnd h; log := log h |}.

Definition set_rebuildInstalled (b : bool) (h : Handle) : Handle :=
  {| CANCELED := CANCELED h; cancelCallbacks := cancelCallbacks h;
     resolverInstalled := resolverInstalled h; promise := promise h;
     rebuildInstalled := b;
     isInsideCallToUserOnEnd := isInsideCallToUserOnEnd h; log := log h |}.

Definition set_isInsideCallToUserOnEnd (b : bool) (h : Handle) : Handle :=
  {| CANCELED := CANCELED h; cancelCallbacks := cancelCallbacks h;
     resolverInstalled := resolverInstalled h; promise := promise h;
     rebuildInstalled := rebuildInstalled h;
     isInsideCallToUserOnEnd := b; log := log h |}.

Definition emit (e : Event) (h : Handle) : Handle :=
  {| CANCELED := CANCELED h; cancelCallbacks := cancelCallbacks h;
     resolverInstalled := resolverInstalled h; promise := promise h;
     rebuildInstalled := rebuildInstalled h;
     isInsideCallToUserOnEnd := isInsideCallToUserOnEnd h; log := log h ++ [e] |}.

Definition emits (l : list Event) (h : Handle) : Handle :=
  fold_left (fun h e => emit e h) l h.

(** [build(config)] up to [return p]: nothing is canceled, no callback is
    registered, [resolver] holds two empty functions and [ctx.rebuild] is
    the stub of lines 303-306. *)
Definition build : Handle :=
  {| CANCELED := false; cancelCallbacks := []; resolverInstalled := false;
     promise := Pending; rebuildInstalled := false;
     isInsideCallToUserOnEnd := false; log := [] |}.

(** State and exceptions: a computation changes the handle and either
    returns (an async function's promise is fulfilled) or throws (it is
    rejected). *)
Definition M (A : Type) : Type := Handle -> Handle * (Js.Exn + A).

Definition ret {A} (a : A) : M A := fun h => (h, inr a).
Definition throw {A} (e : Js.Exn) : M A := fun h => (h, inl e).
Definition bind {A B} (m : M A) (k : A -> M B) : M B :=
  fun h => match m h with
           | (h', inr a) => k a h'
           | (h', inl e) => (h', inl e)
           end.
Definition act (f : Handle -> Handle) : M unit := fun h => (f h, inr tt).
Definition get {A} (f : Handle -> A) : M A := fun h => (h, inr (f h)).
Definition when (b : bool) (m : M unit) : M unit := if b then m else ret tt.

Notation "'let*' x ':=' m 'in' k" := (bind m (fun x => k))
  (at level 10, x name, m at level 100, k at level 200).
Notation "m ;;; k" := (bind m (fun _ => k))
  (at level 100, k at level 200, right associativity).

(** [resolver.resolve(v)] and [resolver.reject(e)]: empty functions until
    the promise executor has stored the real ones; settling a promise that
    is already settled does nothing. *)
Definition settle (s : Settled) (h : Handle) : Handle :=
  if resolverInstalled h then
    match promise h with
    | Pending => set_promise s h
    | _ => h
    end
  else h.

(** [f()] for a cleanup function. *)
Definition call (f : Cleanup) : M unit :=
  fun h => (emit (Invoked (fn_id f)) h,
            match fn_throws f with
            | Some e => inl e
            | None => inr tt
            end).

(** [for (let f of cancelCallbacks) f && f()]: there is no handler around
    the calls, so a function that throws ends the loop. *)
Fixpoint callAll (fs : list Callback) : M unit :=
  match fs with
  | [] => ret tt
  | None :: fs' => callAll fs'
  | Some f :: fs' => call f ;;; callAll fs'
  end.

(** [cancel(reason)], lines 284-298. *)
Definition cancel_call (reason : Js.Value) : M unit :=
  let* canceled := get CANCELED in
  if canceled then ret tt
  else
    act (emit (LogDebug "build cancelled")) ;;;
    act (set_CANCELED true) ;;;
    (let* fs := get cancelCallbacks in callAll fs) ;;;
    act (set_cancelCallbacks []) ;;;
    act (settle (if Js.truthy reason then Rejected (Js.Thrown reason)
                 else Resolved Js.Undefined)).

(** The handle after [cancel(reason)], whether the call returned or threw. *)
Definition cancel (reason : Js.Value) (h : Handle) : Handle :=
  fst (cancel_call reason h).

(** [addCancelCallback(f)]; calling a value that is not a function raises a
    [TypeError]. *)
Definition addCancelCallback (f : Callback) : M unit :=
  let* canceled := get CANCELED in
  if canceled then
    match f with
    | Some c => call c
    | None => throw (Js.TypeError "f is not a function")
    end
  else act (fun h => set_cancelCallbacks (cancelCallbacks h ++ [f]) h).

(** The callbacks that have been called, in order. *)
Fixpoint calls (l : list Event) : list nat :=
  match l with
  | [] => []
  | Invoked f :: l' => f :: calls l'
  | _ :: l' => calls l'
  end.

Definition invocations (h : Handle) : list nat := calls (log h).

(** The functions among registered values. *)
Fixpoint functions (fs : list Callback) : list nat :=
  match fs with
  | [] => []
  | Some f :: fs' => fn_id f :: functions fs'
  | None :: fs' => functions fs'
  end.

(** The functions the loop of [cancel] calls: those up to and including
    the first one that throws. *)
Fixpoint called (fs : list Callback) : list nat :=
  match fs with
  | [] => []
  | None :: fs' => called fs'
  | Some f :: fs' =>
      fn_id f :: match fn_throws f with
                 | Some _ => []
                 | None => called fs'
                 end
  end.

(** The exception that ends the loop, if any. *)
Fixpoint thrown (fs : list Callback) : option Js.Exn :=
  match fs with
  | [] => None
  | None :: fs' => thrown fs'
  | Some f :: fs' =>
      match fn_throws f with
      | Some e => Some e
      | None => thrown fs'
      end
  end.

(** *** Cancellation *)

Lemma emits_app l1 l2 h : emits (l1 ++ l2) h = emits l2 (emits l1 h).
Proof. unfold emits. apply fold_left_app. Qed.

Lemma emits_fields l : forall h,
  CANCELED (emits l h) = CANCELED h /\
  cancelCallbacks (emits l h) = cancelCallbacks h /\
  resolverInstalled (emits l h) = resolverInstalled h /\
  promise (emits l h) = promise h /\
  rebuildInstalled (emits l h) = rebuildInstalled h /\
  isInsideCallToUserOnEnd (emits l h) = isInsideCallToUserOnEnd h /\
  log (emits l h) = log h ++ l.
Proof.
  induction l as [|e l IH]; intros h.
  - simpl. now rewrite app_nil_r.
  - change (emits (e :: l) h) with (emits l (emit e h)).
    destruct (IH (emit e h)) as (-> & -> & -> & -> & -> & -> & ->).
    simpl. now rewrite <- app_assoc.
Qed.

Lemma emits_CANCELED l h : CANCELED (emits l h) = CANCELED h.
Proof. apply emits_fields. Qed.

Lemma emits_log l h : log (emits l h) = log h ++ l.
Proof. apply emits_fields. Qed.

Lemma callAll_spec fs : forall h,
  callAll fs h
  = (emits (map Invoked (called fs)) h,
     match thrown fs with
     | Some e => inl e
     | None => inr tt
     end).
Proof.
  induction fs as [|[f|] fs IH]; intros h.
  - reflexivity.
  - cbn [callAll called thrown]. unfold bind, call.
    destruct (fn_throws f) as [e|]; [reflexivity|].
    rewrite IH. reflexivity.
  - cbn [callAll called thrown]. apply IH.
Qed.

Lemma settle_fields s h :
  CANCELED (settle s h) = CANCELED h /\
  cancelCallbacks (settle s h) = cancelCallbacks h /\
  log (settle s h) = log h.
Proof.
  unfold settle. destruct (resolverInstalled h); [|auto].
  destruct (promise h); auto.
Qed.

Lemma settle_slots s h :
  rebuildInstalled (settle s h) = rebuildInstalled h /\
  resolverInstalled (settle s h) = resolverInstalled h /\
  isInsideCallToUserOnEnd (settle s h) = isInsideCallToUserOnEnd h.
Proof.
  unfold settle. destruct (resolverInstalled h) eqn:Hr; [|auto].
  destruct (promise h); simpl; auto.
Qed.

Lemma calls_app (l1 l2 : list Event) : calls (l1 ++ l2) = calls l1 ++ calls l2.
Proof.
  induction l1 as [|e l1 IH]; [reflexivity|].
  destruct e; simpl; rewrite IH; reflexivity.
Qed.

Lemma calls_Invoked (fs : list nat) : calls (map Invoked fs) = fs.
Proof. induction fs as [|f fs IH]; simpl; [reflexivity|]. now rewrite IH. Qed.

Lemma functions_app (fs gs : list Callback) :
  functions (fs ++ gs) = functions fs ++ functions gs.
Proof.
  induction fs as [|[f|] fs IH]; simpl; [reflexivity| |exact IH].
  now rewrite IH.
Qed.

Lemma called_returning fs : thrown fs = None -> called fs = functions fs.
Proof.
  induction fs as [|[f|] fs IH]; simpl; intros H; auto.
  destruct (fn_throws f); [discriminate|]. now rewrite IH.
Qed.

(** What a call of [cancel] does.  On a canceled handle: nothing.  On a
    live one: the flag is set, the callbacks are called up to the first
    one that throws; only when none throws is the list emptied and the
    promise settled. *)
Definition cancelSettlement (reason : Js.Value) : Settled :=
  if Js.truthy reason then Rejected (Js.Thrown reason) else Resolved Js.Undefined.

Lemma cancel_call_canceled reason h :
  CANCELED h = true -> cancel_call reason h = (h, inr tt).
Proof. intros Hc. unfold cancel_call, bind, get, ret. now rewrite Hc. Qed.

Lemma cancel_call_live reason h :
  CANCELED h = false ->
  cancel_call reason h
  = match thrown (cancelCallbacks h) with
    | Some e =>
        (emits (map Invoked (called (cancelCallbacks h)))
           (set_CANCELED true (emit (LogDebug "build cancelled") h)), inl e)
    | None =>
        (settle (cancelSettlement reason)
           (set_cancelCallbacks []
              (emits (map Invoked (called (cancelCallbacks h)))
                 (set_CANCELED true (emit (LogDebug "build cancelled") h)))),
         inr tt)
    end.
Proof.
  intros Hc. unfold cancel_call, cancelSettlement.
  cbv beta delta [bind get act ret]. rewrite Hc. cbv beta iota.
  rewrite callAll_spec. cbn [cancelCallbacks set_CANCELED emit].
  destruct (thrown (cancelCallbacks h)); reflexivity.
Qed.

Lemma cancel_CANCELED reason h : CANCELED (cancel reason h) = true.
Proof.
  unfold cancel. destruct (CANCELED h) eqn:Hc.
  - now rewrite cancel_call_canceled.
  - rewrite cancel_call_live by exact Hc.
    destruct (thrown (cancelCallbacks h)); cbn [fst].
    + now rewrite emits_CANCELED.
    + destruct (settle_fields (cancelSettlement reason)
                  (set_cancelCallbacks []
                     (emits (map Invoked (called (cancelCallbacks h)))
                        (set_CANCELED true (emit (LogDebug "build cancelled") h)))))
        as (-> & _).
      cbn [CANCELED set_cancelCallbacks]. now rewrite emits_CANCELED.
Qed.

Lemma cancel_again reason reason' h :
  cancel_call reason' (cancel reason h) = (cancel reason h, inr tt).
Proof. apply cancel_call_canceled, cancel_CANCELED. Qed.

Lemma cancel_live reason h :
  CANCELED h = false ->
  log (cancel reason h)
    = log h ++ LogDebug "build cancelled" :: map Invoked (called (cancelCallbacks h)) /\
  cancelCallbacks (cancel reason h)
    = match thrown (cancelCallbacks h) with
      | Some _ => cancelCallbacks h
      | None => []
      end /\
  snd (cancel_call reason h)
    = match thrown (cancelCallbacks h) with
      | Some e => inl e
      | None => inr tt
      end.
Proof.
  intros Hc. unfold cancel. rewrite cancel_call_live by exact Hc.
  destruct (thrown (cancelCallbacks h)); cbn [fst snd].
  - destruct (emits_fields (map Invoked (called (cancelCallbacks h)))
                (set_CANCELED true (emit (LogDebug "build cancelled") h)))
      as (_ & -> & _ & _ & _ & _ & ->).
    simpl. rewrite <- app_assoc. auto.
  - destruct (settle_fields (cancelSettlement reason)
                (set_cancelCallbacks []
                   (emits (map Invoked (called (cancelCallbacks h)))
                      (set_CANCELED true (emit (LogDebug "build cancelled") h)))))
      as (_ & -> & ->).
    cbn [log cancelCallbacks set_cancelCallbacks].
    rewrite emits_log. simpl. rewrite <- app_assoc. auto.
Qed.

(** The slots a cancellation never touches. *)
Lemma cancel_slots reason h :
  rebuildInstalled (cancel reason h) = rebuildInstalled h /\
  resolverInstalled (cancel reason h) = resolverInstalled h /\
  isInsideCallToUserOnEnd (cancel reason h) = isInsideCallToUserOnEnd h.
Proof.
  unfold cancel. destruct (CANCELED h) eqn:Hc.
  - rewrite cancel_call_canceled by exact Hc. auto.
  - rewrite cancel_call_live by exact Hc.
    destruct (thrown (cancelCallbacks h)); cbn [fst].
    + destruct (emits_fields (map Invoked (called (cancelCallbacks h)))
                  (set_CANCELED true (emit (LogDebug "build cancelled") h)))
        as (_ & _ & -> & _ & -> & -> & _). auto.
    + destruct (settle_slots (cancelSettlement reason)
                  (set_cancelCallbacks []
                     (emits (map Invoked (called (cancelCallbacks h)))
                        (set_CANCELED true (emit (LogDebug "build cancelled") h)))))
        as (-> & -> & ->).
      cbn [rebuildInstalled resolverInstalled isInsideCallToUserOnEnd
           set_cancelCallbacks].
      destruct (emits_fields (map Invoked (called (cancelCallbacks h)))
                  (set_CANCELED true (emit (LogDebug "build cancelled") h)))
        as (_ & _ & -> & _ & -> & -> & _). auto.
Qed.

(** The promise after a cancellation. *)
Lemma cancel_promise reason h :
  promise (cancel reason h)
  = if CANCELED h then promise h
    else match thrown (cancelCallbacks h) with
         | Some _ => promise h
         | None =>
             if resolverInstalled h then
               match promise h with
               | Pending => cancelSettlement reason
               | settled => settled
               end
             else promise h
         end.
Proof.
  unfold cancel. destruct (CANCELED h) eqn:Hc.
  - now rewrite cancel_call_canceled.
  - rewrite cancel_call_live by exact Hc.
    destruct (emits_fields (map Invoked (called (cancelCallbacks h)))
                (set_CANCELED true (emit (LogDebug "build cancelled") h)))
      as (_ & _ & Hr & Hp & _).
    destruct (thrown (cancelCallbacks h)); cbn [fst]; [exact Hp|].
    unfold settle. cbn [resolverInstalled promise set_cancelCallbacks].
    rewrite Hr, Hp. cbn [resolverInstalled promise set_CANCELED emit].
    destruct (resolverInstalled h); [|exact Hp].
    destruct (promise h) eqn:E; cbn [promise set_promise set_cancelCallbacks];
      try reflexivity; rewrite Hp; exact E.
Qed.

(** Register the values [fs], in order, on a handle. *)
Definition registerAll (fs : list Callback) (h : Handle) : Handle :=
  fold_left (fun h f => fst (addCancelCallback f h)) fs h.

Lemma addCancelCallback_live f h :
  CANCELED h = false ->
  addCancelCallback f h = (set_cancelCallbacks (cancelCallbacks h ++ [f]) h, inr tt).
Proof. intros Hc. unfold addCancelCallback, bind, get, act. now rewrite Hc. Qed.


Lemma registerAll_live fs : forall h,
  CANCELED h = false ->
  registerAll fs h = set_cancelCallbacks (cancelCallbacks h ++ fs) h.
Proof.
  induction fs as [|f fs IH]; intros h Hc.
  - simpl. rewrite app_nil_r. now destruct h.
  - unfold registerAll. simpl. rewrite addCancelCallback_live by exact Hc. cbn [fst].
    fold (registerAll fs (set_cancelCallbacks (cancelCallbacks h ++ [f]) h)).
    rewrite IH by exact Hc. simpl. now rewrite <- app_assoc.
Qed.

(** C5 (amended). [cancel()] is idempotent: a second or later call returns
    at once and leaves the handle as it is.  On a live handle the first
    [cancel()] calls the registered callbacks in registration order up to
    the first one that throws.  When none throws, every registered
    callback has been called exactly once and the callback list is empty
    afterwards.  When one throws, [cancel()] throws its exception: the
    callbacks after it are not called, the list is not emptied and the
    promise is not settled. *)
Theorem cancel_idempotent_callbacks_once
    (h : Handle) (fs : list Callback) (reason reason' : Js.Value) :
  cancel_call reason' (cancel reason h) = (cancel reason h, inr tt) /\
  (CANCELED h = false ->
   invocations (cancel reason (registerAll fs h))
     = invocations h ++ called (cancelCallbacks h ++ fs) /\
   (thrown (cancelCallbacks h ++ fs) = None ->
    snd (cancel_call reason (registerAll fs h)) = inr tt /\
    invocations (cancel reason (registerAll fs h))
      = invocations h ++ functions (cancelCallbacks h) ++ functions fs /\
    cancelCallbacks (cancel reason (registerAll fs h)) = [] /\
    invocations (cancel reason' (cancel reason (registerAll fs h)))
      = invocations h ++ functions (cancelCallbacks h) ++ functions fs) /\
   (forall e, thrown (cancelCallbacks h ++ fs) = Some e ->
    snd (cancel_call reason (registerAll fs h)) = inl e /\
    cancelCallbacks (cancel reason (registerAll fs h)) = cancelCallbacks h ++ fs /\
    promise (cancel reason (registerAll fs h)) = promise h)).
Proof.
  split; [apply cancel_again|].
  intros Hc. rewrite (registerAll_live fs h Hc).
  assert (Hc' : CANCELED (set_cancelCallbacks (cancelCallbacks h ++ fs) h) = false)
    by exact Hc.
  destruct (cancel_live reason _ Hc') as (Hlog & Hcbs & Hres).
  cbn [cancelCallbacks set_cancelCallbacks log] in Hlog, Hcbs, Hres.
  assert (Hinv : invocations (cancel reason
                                (set_cancelCallbacks (cancelCallbacks h ++ fs) h))
                 = invocations h ++ called (cancelCallbacks h ++ fs)).
  { unfold invocations. rewrite Hlog, calls_app. cbn [calls].
    now rewrite calls_Invoked. }
  split; [exact Hinv|]. split.
  - intros Hnone. rewrite Hnone in Hcbs, Hres.
    rewrite (called_returning _ Hnone), functions_app in Hinv.
    repeat split; try assumption.
    unfold cancel at 1. rewrite cancel_again. exact Hinv.
  - intros e He. rewrite He in Hcbs, Hres. repeat split; try assumption.
    rewrite cancel_promise. cbn [CANCELED cancelCallbacks promise set_cancelCallbacks].
    now rewrite Hc, He.
Qed.

Definition returning (n : nat) : Cleanup := {| fn_id := n; fn_throws := None |}.

Definition throwing (n : nat) (e : Js.Exn) : Cleanup :=
  {| fn_id := n; fn_throws := Some e |}.

Lemma cancel_idempotent_callbacks_once_witness :
  invocations (cancel Js.Undefined
                 (registerAll [Some (returning 1); None; Some (returning 2)] build))
    = [1; 2]%nat /\
  invocations (cancel (Js.Str "again")
                 (cancel Js.Undefined
                    (registerAll [Some (returning 1); None; Some (returning 2)] build)))
    = [1; 2]%nat.
Proof.
  destruct (cancel_idempotent_callbacks_once build
              [Some (returning 1); None; Some (returning 2)]
              Js.Undefined (Js.Str "again")) as [_ H].
  destruct (H eq_refl) as (_ & Hret & _).
  destruct (Hret eq_refl) as (_ & H1 & _ & H3).
  split; [exact H1 | exact H3].
Defined.

(** C5 (as stated) fails: after [cancel()] on a handle whose first callback
    throws, the second registered callback has not been called, the
    callback list is not empty and the promise of the started build is
    still pending; a second [cancel()] changes nothing, so the second
    callback is never called. *)
Lemma throwing_callback_stops_cancel :
  let h := registerAll [Some (throwing 1 (Js.Error "cleanup failed"));
                        Some (returning 2)]
             (set_resolverInstalled true build) in
  snd (cancel_call Js.Undefined h) = inl (Js.Error "cleanup failed") /\
  invocations (cancel Js.Undefined h) = [1]%nat /\
  cancelCallbacks (cancel Js.Undefined h) <> [] /\
  promise (cancel Js.Undefined h) = Pending /\
  cancel Js.Undefined (cancel Js.Undefined h) = cancel Js.Undefined h.
Proof. repeat split; discriminate. Qed.

(** *** Registration before and after cancellation *)

(** What a client can do with a handle between two steps of the build:
    register a cleanup function, or cancel. *)
Inductive HandleOp :=
| OpAdd (f : Cleanup)
| OpCancel (reason : Js.Value).

Definition step (h : Handle) (op : HandleOp) : Handle :=
  match op with
  | OpAdd f => fst (addCancelCallback (Some f) h)
  | OpCancel reason => cancel reason h
  end.

Definition run (ops : list HandleOp) (h : Handle) : Handle := fold_left step ops h.




Lemma functions_Some (regs : list Cleanup) : functions (map Some regs) = map fn_id regs.
Proof. induction regs as [|f regs IH]; simpl; [reflexivity|]. now rewrite IH. Qed.








(** *** The build cycle: [_esbuild], [onBuildSuccess], [onBuildFail], [onEnd] *)

(** How a user hook ends: with a plain value, with a promise (fulfilled or
    rejected), or by throwing. *)
Inductive HookResult :=
| Returns (v : Js.Value)
| ReturnsPromise (r : Js.Exn + Js.Value)
| Throws (e : Js.Exn).

(** One run of a hook: whether [cancel(reason)] is called on the handle
    while the hook runs or is awaited, how the hook ends, and - for
    [onEnd], which is handed the object [props] - the array the hook
    leaves in [props.errors] when it changes it ([None]: the hook leaves
    [props.errors] as it got it; an emptied or deleted property is [[]]). *)
Record HookRun := {
  hook_cancel : option Js.Value;
  hook_result : HookResult;
  hook_errors : option (list string);
}.

(** [r instanceof Promise ? await r : r], inside [try]. *)
Definition awaited (r : HookResult) : Js.Exn + Js.Value :=
  match r with
  | Returns v => inr v
  | ReturnsPromise s => s
  | Throws e => inl e
  end.

(** The object [esbuild.build] rejects with. *)
Record EsbuildFailure := {
  fail_warnings : option (list string);
  fail_errors : option (list string);
  fail_string : string;                    (* String(err) *)
}.

Inductive BundlerResult :=
| Fulfilled (warnings : list string)
| RejectedWith (err : EsbuildFailure).

(** The configuration of a build as [_esbuild] reads it, with what the
    outside does during one cycle.

    [isMainCall] is [IS_MAIN_CALL in config] (line 329): the build was
    started by [main], and [build1] goes on with the configuration object
    of [build].  Otherwise line 336 replaces it by the copy [{...config}];
    the copy has no [CANCELED] property, because [build] defines that
    property with [Object.defineProperty] (line 270), hence not
    enumerable, and a spread copies enumerable properties only. *)
Record Env := {
  isMainCall : bool;
  watch : bool;                            (* config.watch is truthy *)
  clear : bool;                            (* config.clear is truthy *)
  onStart : option (list string -> HookRun);
  userOnEnd : option (list string -> list string -> HookRun);
  outfile : option string;
  outdir : option string;
  outfileMode : bool;                      (* config.outfileMode is truthy *)
  sourcemap : Js.Value;
  bundler : BundlerResult;                 (* how esbuild.build settles *)
  patchSourceMap_throws : option Js.Exn;
  chmod_throws : option string;            (* err.message *)
}.

(** [config[CANCELED]] as [build1] and the functions it defines read it
    (lines 627, 676, 709): the flag of the handle when [build1] works on
    the object of [build], [undefined] on the copy. *)
Definition canceledSeen (env : Env) : M bool :=
  if isMainCall env then get CANCELED else ret false.

Definition logWarnings (warnings : list string) : M unit :=
  when (negb (Nat.eqb (length warnings) 0))
       (act (emit (LogWarn ("[warn] " ++ Identity.join (String "010"%char "") warnings)))).

Definition logErrors (errors : list string) : M unit :=
  when (negb (Nat.eqb (length errors) 0))
       (act (emit (LogError (Identity.join (String "010"%char "") errors)))).

(** A hook's call to [cancel], if any; an exception of [cancel] is the
    hook's to handle, and shows in how the hook ends. *)
Definition hookCancel (run : HookRun) : M unit :=
  match hook_cancel run with
  | Some reason => act (cancel reason)
  | None => ret tt
  end.

(** Line 495: [returnValue === undefined ? defaultReturn : !!returnValue]. *)
Definition outcome (returnValue : Js.Value) (defaultReturn : bool) : Js.Value :=
  match returnValue with
  | Js.Undefined => Js.Bool defaultReturn
  | _ => Js.notnot returnValue
  end.

(** [props.errors] when the hook has returned (line 494). *)
Definition errorsAfter (run : HookRun) (errors : list string) : list string :=
  default errors (hook_errors run).

(** [onEnd] as defined at lines 479-501. *)
Definition onEndInner (env : Env) (warnings errors : list string)
    (defaultReturn : bool) : M Js.Value :=
  match userOnEnd env with
  | Some hook =>
      let run := hook warnings errors in
      act (set_isInsideCallToUserOnEnd true) ;;;
      act (emit (OnEnd warnings errors)) ;;;
      hookCancel run ;;;
      match awaited (hook_result run) with
      | inl err =>
          act (emit (LogDebug "error in onEnd handler")) ;;;
          act (set_isInsideCallToUserOnEnd false) ;;;
          throw err
      | inr returnValue =>
          act (set_isInsideCallToUserOnEnd false) ;;;
          logErrors (errorsAfter run errors) ;;;
          ret (outcome returnValue defaultReturn)
      end
  | None =>
      logErrors errors ;;;
      ret (Js.Bool defaultReturn)
  end.

Definition str_opt_truthy (o : option string) : bool :=
  match o with
  | Some s => Js.str_truthy s
  | None => false
  end.

(** [onEnd] after lines 503-514: with [outfileMode] and [outfile] set, the
    mode is applied first; a failure there is logged, not thrown. *)
Definition onEnd (env : Env) (warnings errors : list string)
    (defaultReturn : bool) : M Js.Value :=
  if outfileMode env && str_opt_truthy (outfile env) then
    act (emit Chmod) ;;;
    match chmod_throws env with
    | Some msg =>
        act (emit (LogError ("configuration error: outfileMode: " ++ msg))) ;;;
        act (emit SetErrorExitCode)
    | None => ret tt
    end ;;;
    onEndInner env warnings errors defaultReturn
  else onEndInner env warnings errors defaultReturn.

(** [config.sourcemap && config.sourcemap != "inline"] *)
Definition externalSourcemap (v : Js.Value) : bool :=
  Js.truthy v && negb (Js.loose_eq_string v "inline").

Definition onBuildSuccess (env : Env) (warnings : list string) : M Js.Value :=
  logWarnings warnings ;;;
  (if str_opt_truthy (outfile env) then
     (if externalSourcemap (sourcemap env) then
        act (emit PatchSourceMap) ;;;
        match patchSourceMap_throws env with
        | Some e => throw e
        | None => ret tt
        end
      else ret tt) ;;;
     act (emit (LogInfo "Wrote"))
   else
     act (emit (LogInfo (if str_opt_truthy (outdir env) then "Wrote to dir"
                         else "Finished (write=false)")))) ;;;
  onEnd env warnings [] true.

Definition onBuildFail (env : Env) (err : EsbuildFailure) : M Js.Value :=
  let warnings := default [] (fail_warnings err) in
  let errors := default [] (fail_errors err) in
  let errors := match errors with
                | [] => [fail_string err]
                | _ :: _ => errors
                end in
  logWarnings warnings ;;;
  onEnd env warnings errors false.

(** [_esbuild(changedFiles)], lines 610-625: the screen clear and the
    [onStart] hook. *)
Definition _esbuild_prologue (env : Env) (changedFiles : list string) : M unit :=
  when (watch env && clear env) (act (emit ScreenClear)) ;;;
  match onStart env with
  | Some hook =>
      let run := hook changedFiles in
      act (emit (OnStart changedFiles)) ;;;
      hookCancel run ;;;
      match awaited (hook_result run) with
      | inl err => act (emit (LogDebug "error in onStart handler")) ;;; throw err
      | inr _ => ret tt
      end
  | None => ret tt
  end.

(** [_esbuild(changedFiles)] up to and including the call of
    [esbuild.build]: [true] when the bundler was called, [false] when the
    function returned at the test of line 627. *)
Definition _esbuild_invoke (env : Env) (changedFiles : list string) : M bool :=
  _esbuild_prologue env changedFiles ;;;
  let* canceled := canceledSeen env in
  if canceled then ret false
  else
    act (emit (LogDebug "invoking esbuild.build()")) ;;;
    act (emit EsbuildBuild) ;;;
    ret true.

(** [esbuildPromise.then(onBuildSuccess, onBuildFail)] *)
Definition _esbuild_settle (env : Env) : M Js.Value :=
  match bundler env with
  | Fulfilled warnings => onBuildSuccess env warnings
  | RejectedWith err => onBuildFail env err
  end.

(** One build cycle. *)
Definition _esbuild (env : Env) (changedFiles : list string) : M Js.Value :=
  let* invoked := _esbuild_invoke env changedFiles in
  if invoked then _esbuild_settle env else ret Js.Undefined.

(** [ctx.rebuild()]: the stub installed by [build], or the function
    installed by [build1] (lines 553-560). *)
Definition rebuild (env : Env) : M Js.Value :=
  let* installed := get rebuildInstalled in
  if installed then
    let* ok := _esbuild env [] in
    let* inside := get isInsideCallToUserOnEnd in
    when inside
      (act (emit (LogWarn "waiting for rebuild() inside onEnd handler may cause a deadlock"))) ;;;
    ret ok
  else
    act (emit (LogWarn "rebuild() called before initial build completed. Ignoring")) ;;;
    ret (Js.Bool true).

(** The callback [watchFiles] hands to the watcher (lines 683-688): the
    changed files are announced, then a cycle runs. *)
Definition fileChange (env : Env) (changedFiles : list string) : M Js.Value :=
  act (emit (LogInfo "files changed")) ;;;
  _esbuild env changedFiles.

(** *** [build1] and the promise returned by [build] *)

(** How the configuration phase of [build1] (lines 329-372) ends: it goes
    on, it logs an error and returns [false] (program mode without source
    files, or a malformed [-esbuild] option), or [processConfig] throws. *)
Inductive ConfigPhase :=
| ConfigOk
| ConfigReturnsFalse (msg : string)
| ConfigThrows (e : Js.Exn).

(** The type-check process [startTSLint] hands to [build1]: whether it is
    shared with an earlier build, its [cancel] method - called by the
    cleanup function [() => { tslintProcess.cancel() }] and at line 698 -
    and how the process settles. *)
Record TSLintProcess := {
  tslint_reused : bool;
  tslint_cancel : Cleanup;
  tslint_result : Js.Exn + Js.Value;
}.

(** [newWatcher]: [watchFiles] finds no watcher for the project and
    creates one; this is its cleanup function
    [() => { fswatcher.promise.cancel() }].  [watchFiles_result]: how the
    promise of [watchFiles] settles - rejected when [refreshFiles] throws
    or the watcher's promise is rejected, fulfilled when the watcher's
    promise is, [None] as long as the watcher runs. *)
Record Build1Env := {
  configPhase : ConfigPhase;
  diag : bool;                             (* opts.diag is truthy *)
  tslintProcess : option TSLintProcess;
  newWatcher : option Cleanup;
  watchFiles_result : option (Js.Exn + unit);
}.

(** [buildPromise] while [build1] has not awaited it yet. *)
Inductive Flight :=
| NoBuild                                  (* -diag: buildPromise is null *)
| InFlight (invoked : bool)                (* _esbuild([]) is past its synchronous part *)
| StartFailed (e : Js.Exn).                (* onStart threw: buildPromise is rejected *)

(** Line 650: [buildPromise = opts.diag ? null : _esbuild([])], run up to
    the first suspension of [_esbuild]. *)
Definition build1_initial (b : Build1Env) (env : Env) : M Flight :=
  if diag b then ret NoBuild
  else fun h => match _esbuild_invoke env [] h with
                | (h', inr invoked) => (h', inr (InFlight invoked))
                | (h', inl e) => (h', inr (StartFailed e))
                end.

(** Lines 657-669: a type-check process of this build's own is canceled
    with the build; its rejection is logged (lines 659-662). *)
Definition build1_typecheck (b : Build1Env) (env : Env) : M unit :=
  match tslintProcess b with
  | Some t =>
      if tslint_reused t then ret tt
      else addCancelCallback (Some (tslint_cancel t)) ;;;
           when (diag b && watch env && clear env) (act (emit ScreenClear))
  | None => ret tt
  end.

(** [build1] from its first line to [await buildPromise]: either it has
    returned a value already, or the initial cycle is in flight. *)
Definition build1_begin (b : Build1Env) (env : Env) : M (Js.Value + Flight) :=
  match configPhase b with
  | ConfigThrows e => throw e
  | ConfigReturnsFalse msg => act (emit (LogError msg)) ;;; ret (inl (Js.Bool false))
  | ConfigOk =>
      act (set_rebuildInstalled true) ;;;
      let* flight := build1_initial b env in
      build1_typecheck b env ;;;
      ret (inr flight)
  end.

(** [await tslintProcess.catch(() => false)] at line 704; a rejection of a
    process of this build's own is logged by the handler of lines
    659-662. *)
Definition awaitTSLint (t : TSLintProcess) : M Js.Value :=
  match tslint_result t with
  | inr v => ret v
  | inl _ =>
      when (negb (tslint_reused t)) (act (emit (LogError "tslint failed"))) ;;;
      ret (Js.Bool false)
  end.

(** [build1] from [await buildPromise] on.  [None]: the build is watching
    and [build1] has not returned. *)
Definition build1_end (b : Build1Env) (env : Env) (flight : Flight) : M (option Js.Value) :=
  let* ok :=
    match flight with
    | NoBuild => ret (Js.Bool true)
    | InFlight invoked => if invoked then _esbuild_settle env else ret Js.Undefined
    | StartFailed e => throw e
    end in
  let* canceled := canceledSeen env in
  if match flight with NoBuild => false | _ => canceled end then ret (Some (Js.Bool false))
  else if watch env then
    match newWatcher b with
    | Some w => addCancelCallback (Some w)
    | None => ret tt
    end ;;;
    match watchFiles_result b with
    | None => ret None
    | Some (inl e) => throw e
    | Some (inr _) => act (emit (LogDebug "fswatch ended")) ;;; ret (Some (Js.Bool true))
    end
  else
    let* ok :=
      match tslintProcess b with
      | Some t =>
          if negb (Js.truthy ok) then
            act (emit TSLintCancel) ;;;
            match fn_throws (tslint_cancel t) with
            | Some e => throw e
            | None => ret ok
            end
          else awaitTSLint t
      | None => ret ok
      end in
    let* canceled := canceledSeen env in
    when (negb canceled && negb (Js.truthy ok)) (act (emit SetErrorExitCode)) ;;;
    ret (Some ok).

(** The callback of [cli_ready.then] at lines 309-317, in two steps: up to
    the first suspension of [build1], and from its resumption on.  The
    test of line 310 reads the configuration object of [build] itself. *)
Definition ready_begin (b : Build1Env) (env : Env) (h : Handle) : Handle * option Flight :=
  if CANCELED h then (emit (LogDebug "build cancelled immediately") h, None)
  else
    match build1_begin b env (set_resolverInstalled true h) with
    | (h', inr (inr flight)) => (h', Some flight)
    | (h', inr (inl v)) => (settle (Resolved v) h', None)
    | (h', inl e) => (settle (Rejected e) h', None)
    end.

Definition ready_end (b : Build1Env) (env : Env) (flight : Flight) (h : Handle) : Handle :=
  match build1_end b env flight h with
  | (h', inr (Some v)) => settle (Resolved v) h'
  | (h', inr None) => h'
  | (h', inl e) => settle (Rejected e) h'
  end.

(** A build that nothing interrupts between the two steps. *)
Definition ready (b : Build1Env) (env : Env) (h : Handle) : Handle :=
  match ready_begin b env h with
  | (h', Some flight) => ready_end b env flight h'
  | (h', None) => h'
  end.

(** *** What a cycle leaves untouched *)

(** The number of times the bundler has been called. *)
Fixpoint bundlerCalls (l : list Event) : nat :=
  match l with
  | [] => 0
  | EsbuildBuild :: l' => S (bundlerCalls l')
  | _ :: l' => bundlerCalls l'
  end.

Lemma bundlerCalls_app l1 l2 :
  bundlerCalls (l1 ++ l2) = bundlerCalls l1 + bundlerCalls l2.
Proof.
  induction l1 as [|e l1 IH]; [reflexivity|].
  destruct e; simpl; rewrite IH; reflexivity.
Qed.

Lemma bundlerCalls_Invoked fs : bundlerCalls (map Invoked fs) = 0.
Proof. induction fs; simpl; auto. Qed.

(** [follows h h']: from [h] to [h'] the bundler was not called, the
    [rebuild] and [resolver] slots were not touched, a canceled build
    stayed canceled, and the promise was settled only by a cancellation. *)
Definition follows (h h' : Handle) : Prop :=
  bundlerCalls (log h') = bundlerCalls (log h) /\
  rebuildInstalled h' = rebuildInstalled h /\
  resolverInstalled h' = resolverInstalled h /\
  (CANCELED h = true -> CANCELED h' = true) /\
  (CANCELED h' = false -> promise h' = promise h).

Lemma follows_refl h : follows h h.
Proof. unfold follows. auto. Qed.

Lemma follows_trans h1 h2 h3 : follows h1 h2 -> follows h2 h3 -> follows h1 h3.
Proof.
  unfold follows.
  intros (Hb1 & Hr1 & Hs1 & Hc1 & Hp1) (Hb2 & Hr2 & Hs2 & Hc2 & Hp2).
  repeat split; try congruence; auto.
  intros Hc3. rewrite (Hp2 Hc3). apply Hp1.
  destruct (CANCELED h2) eqn:Hc; [|reflexivity].
  rewrite (Hc2 eq_refl) in Hc3. discriminate.
Qed.

(** A computation that only does such things. *)
Definition quiet {A} (m : M A) : Prop := forall h, follows h (fst (m h)).

Lemma quiet_ret {A} (a : A) : quiet (ret a).
Proof. intros h. apply follows_refl. Qed.

Lemma quiet_throw {A} (e : Js.Exn) : quiet (@throw A e).
Proof. intros h. apply follows_refl. Qed.

Lemma quiet_get {A} (f : Handle -> A) : quiet (get f).
Proof. intros h. apply follows_refl. Qed.

Lemma quiet_bind {A B} (m : M A) (k : A -> M B) :
  quiet m -> (forall a, quiet (k a)) -> quiet (bind m k).
Proof.
  intros Hm Hk h. unfold bind. specialize (Hm h).
  destruct (m h) as [h' [e|a]]; simpl in *; [exact Hm|].
  eapply follows_trans; [exact Hm|apply Hk].
Qed.

Lemma quiet_when b (m : M unit) : quiet m -> quiet (when b m).
Proof. intros Hm. destruct b; [exact Hm|apply quiet_ret]. Qed.

Lemma quiet_emit e : e <> EsbuildBuild -> quiet (act (emit e)).
Proof.
  intros He h. unfold follows, act, emit. simpl.
  repeat split; auto.
  rewrite bundlerCalls_app. destruct e; simpl; try lia. congruence.
Qed.

Lemma quiet_set_isInside b : quiet (act (set_isInsideCallToUserOnEnd b)).
Proof. intros h. unfold follows. simpl. auto. Qed.

Lemma follows_cancel reason h : follows h (cancel reason h).
Proof.
  destruct (CANCELED h) eqn:Hc.
  - unfold cancel. rewrite cancel_call_canceled by exact Hc. apply follows_refl.
  - pose proof (cancel_CANCELED reason h) as Hc'.
    destruct (cancel_live reason h Hc) as (Hlog & _).
    destruct (cancel_slots reason h) as (Hr & Hs & _).
    unfold follows. rewrite Hlog, Hc', Hr, Hs.
    repeat split; try discriminate; auto.
    rewrite bundlerCalls_app. simpl. rewrite bundlerCalls_Invoked. lia.
Qed.

Lemma quiet_hookCancel run : quiet (hookCancel run).
Proof.
  unfold hookCancel. destruct (hook_cancel run) as [reason|]; [|apply quiet_ret].
  intros h. apply follows_cancel.
Qed.

Create HintDb quiet.
#[local] Hint Resolve quiet_ret quiet_throw quiet_get quiet_when quiet_set_isInside
  quiet_hookCancel : quiet.
#[local] Hint Extern 1 (quiet (act (emit _))) => (apply quiet_emit; discriminate) : quiet.
#[local] Hint Extern 2 (quiet (bind _ _)) => (apply quiet_bind; [|intros]) : quiet.

Lemma quiet_logWarnings ws : quiet (logWarnings ws).
Proof. unfold logWarnings. auto with quiet. Qed.

Lemma quiet_logErrors es : quiet (logErrors es).
Proof. unfold logErrors. auto with quiet. Qed.

#[local] Hint Resolve quiet_logWarnings quiet_logErrors : quiet.

Lemma quiet_onEndInner env ws es d : quiet (onEndInner env ws es d).
Proof.
  unfold onEndInner. destruct (userOnEnd env) as [hook|]; [|auto 10 with quiet].
  destruct (awaited (hook_result (hook ws es))); auto 20 with quiet.
Qed.

#[local] Hint Resolve quiet_onEndInner : quiet.

Lemma quiet_onEnd env ws es d : quiet (onEnd env ws es d).
Proof.
  unfold onEnd. destruct (outfileMode env && str_opt_truthy (outfile env));
    [|auto with quiet].
  destruct (chmod_throws env); auto 20 with quiet.
Qed.

#[local] Hint Resolve quiet_onEnd : quiet.

Lemma quiet_onBuildSuccess env ws : quiet (onBuildSuccess env ws).
Proof.
  unfold onBuildSuccess.
  destruct (str_opt_truthy (outfile env)); [|auto 20 with quiet].
  destruct (externalSourcemap (sourcemap env)); [|auto 20 with quiet].
  destruct (patchSourceMap_throws env); auto 20 with quiet.
Qed.

Lemma quiet_onBuildFail env err : quiet (onBuildFail env err).
Proof. unfold onBuildFail. auto 20 with quiet. Qed.

Lemma quiet_esbuild_settle env : quiet (_esbuild_settle env).
Proof.
  unfold _esbuild_settle. destruct (bundler env);
    [apply quiet_onBuildSuccess|apply quiet_onBuildFail].
Qed.

Lemma quiet_esbuild_prologue env files : quiet (_esbuild_prologue env files).
Proof.
  unfold _esbuild_prologue. destruct (onStart env) as [hook|]; [|auto 10 with quiet].
  destruct (awaited (hook_result (hook files))); auto 20 with quiet.
Qed.

Lemma canceledSeen_spec env h :
  canceledSeen env h = (h, inr (isMainCall env && CANCELED h)).
Proof. unfold canceledSeen. destruct (isMainCall env); reflexivity. Qed.

(** The bundler is called at most once by [_esbuild_invoke], and exactly
    when it returns [true]. *)
Lemma esbuild_invoke_calls env files h :
  bundlerCalls (log (fst (_esbuild_invoke env files h)))
    = bundlerCalls (log h)
      + match snd (_esbuild_invoke env files h) with
        | inr true => 1
        | _ => 0
        end /\
  rebuildInstalled (fst (_esbuild_invoke env files h)) = rebuildInstalled h.
Proof.
  unfold _esbuild_invoke, bind.
  pose proof (quiet_esbuild_prologue env files h) as (Hb & Hr & _).
  destruct (_esbuild_prologue env files h) as [h' [e|[]]]; simpl in *.
  - split; [lia|exact Hr].
  - rewrite canceledSeen_spec. unfold act, ret.
    destruct (isMainCall env && CANCELED h'); simpl.
    + split; [lia|exact Hr].
    + rewrite !bundlerCalls_app. simpl. split; [lia|exact Hr].
Qed.

Lemma esbuild_calls env files h :
  bundlerCalls (log (fst (_esbuild env files h))) <= bundlerCalls (log h) + 1 /\
  rebuildInstalled (fst (_esbuild env files h)) = rebuildInstalled h.
Proof.
  unfold _esbuild. unfold bind.
  destruct (esbuild_invoke_calls env files h) as [Hb Hr].
  destruct (_esbuild_invoke env files h) as [h' [e|[|]]]; simpl in *.
  - split; [lia|exact Hr].
  - destruct (quiet_esbuild_settle env h') as (Hb' & Hr' & _).
    split; [lia|congruence].
  - split; [lia|exact Hr].
Qed.

(** *** The outcome of a cycle *)

(** What [onEnd] returns: the default without a user hook, otherwise what
    the hook's return value makes of it. *)
Definition hookOutcome (env : Env) (warnings errors : list string) (defaultReturn : bool)
  : Js.Exn + Js.Value :=
  match userOnEnd env with
  | Some hook =>
      match awaited (hook_result (hook warnings errors)) with
      | inr returnValue => inr (outcome returnValue defaultReturn)
      | inl e => inl e
      end
  | None => inr (Js.Bool defaultReturn)
  end.

Ltac unfold_m :=
  unfold bind, act, ret, throw, when, get, hookCancel, logErrors, logWarnings.

Lemma onEndInner_result env ws es d h :
  snd (onEndInner env ws es d h) = hookOutcome env ws es d.
Proof.
  unfold onEndInner, hookOutcome.
  destruct (userOnEnd env) as [hook|].
  - unfold_m. destruct (hook_cancel (hook ws es)); destruct (awaited _);
      simpl; try reflexivity; destruct (negb _); reflexivity.
  - unfold_m. destruct (negb _); reflexivity.
Qed.

Lemma onEnd_result env ws es d h :
  snd (onEnd env ws es d h) = hookOutcome env ws es d.
Proof.
  unfold onEnd.
  destruct (outfileMode env && str_opt_truthy (outfile env)).
  - unfold bind at 1. unfold act at 1. unfold bind at 1.
    destruct (chmod_throws env); unfold bind, act; simpl; apply onEndInner_result.
  - apply onEndInner_result.
Qed.

(** The properties [onBuildFail] passes to [onEnd]. *)
Definition failWarnings (err : EsbuildFailure) : list string :=
  default [] (fail_warnings err).

Definition failErrors (err : EsbuildFailure) : list string :=
  match default [] (fail_errors err) with
  | [] => [fail_string err]
  | e :: es => e :: es
  end.

Lemma onBuildFail_result env err h :
  snd (onBuildFail env err h)
  = hookOutcome env (failWarnings err) (failErrors err) false.
Proof.
  unfold onBuildFail. unfold bind at 1.
  destruct (logWarnings _ h) as [h' [e|[]]] eqn:Hl.
  - unfold logWarnings, when, act, ret in Hl. destruct (negb _); discriminate.
  - unfold failWarnings, failErrors.
    destruct (default [] (fail_errors err)); apply onEnd_result.
Qed.

(** The source map is patched when there is an output file and the
    source-map mode is neither off nor inline. *)
Definition patches (env : Env) : bool :=
  str_opt_truthy (outfile env) && externalSourcemap (sourcemap env).

Lemma onBuildSuccess_result env ws h :
  (patches env = true -> patchSourceMap_throws env = None) ->
  snd (onBuildSuccess env ws h) = hookOutcome env ws [] true.
Proof.
  unfold patches, onBuildSuccess. intros Hp.
  destruct (str_opt_truthy (outfile env)); simpl in Hp.
  - destruct (externalSourcemap (sourcemap env)).
    + rewrite (Hp eq_refl). unfold_m. destruct (negb _); simpl; apply onEnd_result.
    + unfold_m. destruct (negb _); simpl; apply onEnd_result.
  - unfold_m. destruct (negb _); simpl; apply onEnd_result.
Qed.


Lemma outcome_default v : (forall d, outcome v d = Js.Bool d) <-> v = Js.Undefined.
Proof.
  split.
  - intros H. pose proof (H true) as Ht. pose proof (H false) as Hf.
    destruct v; try reflexivity; unfold outcome, Js.notnot in *; congruence.
  - intros -> d. reflexivity.
Qed.



(** A build whose bundler fails and whose [onEnd] hook returns [true]. *)
Definition env_override : Env :=
  {| isMainCall := false; watch := false; clear := false; onStart := None;
     userOnEnd := Some (fun _ _ => {| hook_cancel := None;
                                      hook_result := Returns (Js.Bool true); hook_errors := None |});
     outfile := Some "out.js"; outdir := None; outfileMode := false;
     sourcemap := Js.Bool false;
     bundler := RejectedWith {| fail_warnings := None; fail_errors := None;
                                fail_string := "Error: boom" |};
     patchSourceMap_throws := None; chmod_throws := None |}.

Definition build_plain : Build1Env :=
  {| configPhase := ConfigOk; diag := false; tslintProcess := None; newWatcher := None;
     watchFiles_result := None |}.




(** C9. The override works in both directions.  After a successful bundler
    run whose [onEnd] hook returns [returnValue], the outcome of the cycle
    is [false] for every defined falsy [returnValue] ([false], [0], [""],
    [null], [NaN]); after a failed run it is [true] for every truthy one;
    and [undefined] is the only return value that leaves the default
    ([true] on success, [false] on failure) unchanged in both cases. *)
Theorem onEnd_overrides_both_ways
    (env : Env) (h : Handle) (hook : list string -> list string -> HookRun)
    (ws : list string) (returnValue : Js.Value) :
  bundler env = Fulfilled ws ->
  (patches env = true -> patchSourceMap_throws env = None) ->
  userOnEnd env = Some hook ->
  awaited (hook_result (hook ws [])) = inr returnValue ->
  snd (_esbuild_settle env h) = inr (outcome returnValue true) /\
  (returnValue <> Js.Undefined -> Js.truthy returnValue = false ->
   snd (_esbuild_settle env h) = inr (Js.Bool false)) /\
  (returnValue = Js.Undefined -> snd (_esbuild_settle env h) = inr (Js.Bool true)) /\
  ((forall defaultReturn, outcome returnValue defaultReturn = Js.Bool defaultReturn)
   <-> returnValue = Js.Undefined).
Proof.
  intros Hb Hp Hu Hr.
  assert (Hres : snd (_esbuild_settle env h) = inr (outcome returnValue true)).
  { unfold _esbuild_settle. rewrite Hb, (onBuildSuccess_result env ws h Hp).
    unfold hookOutcome. now rewrite Hu, Hr. }
  split; [exact Hres|]. split; [|split].
  - intros Hne Hf. rewrite Hres. destruct returnValue; try congruence;
      unfold outcome, Js.notnot; now rewrite Hf.
  - intros ->. exact Hres.
  - apply outcome_default.
Qed.

(** A successful build whose [onEnd] hook returns [0]. *)
Definition env_veto : Env :=
  {| isMainCall := false; watch := false; clear := false; onStart := None;
     userOnEnd := Some (fun _ _ => {| hook_cancel := None;
                                      hook_result := Returns (Js.Num 0); hook_errors := None |});
     outfile := Some "out.js"; outdir := None; outfileMode := false;
     sourcemap := Js.Bool false; bundler := Fulfilled [];
     patchSourceMap_throws := None; chmod_throws := None |}.

Lemma onEnd_overrides_both_ways_witness :
  snd (_esbuild_settle env_veto build) = inr (Js.Bool false).
Proof.
  apply (onEnd_overrides_both_ways env_veto build
           (fun _ _ => {| hook_cancel := None; hook_result := Returns (Js.Num 0); hook_errors := None |})
           [] (Js.Num 0));
    (reflexivity || discriminate).
Defined.

Example veto_resolves_build_to_false :
  promise (ready build_plain env_veto build) = Resolved (Js.Bool false).
Proof. reflexivity. Qed.

(** *** A cycle on a canceled build *)

Lemma esbuild_prologue_result env files h :
  snd (_esbuild_prologue env files h)
  = match onStart env with
    | Some hook => match awaited (hook_result (hook files)) with
                   | inl e => inl e
                   | inr _ => inr tt
                   end
    | None => inr tt
    end.
Proof.
  unfold _esbuild_prologue. unfold_m.
  destruct (watch env && clear env); destruct (onStart env) as [hook|];
    try reflexivity;
    destruct (hook_cancel (hook files)); destruct (awaited (hook_result (hook files)));
    reflexivity.
Qed.



(** A watching build with an [onStart] hook, started by calling [build]. *)
Definition env_watching : Env :=
  {| isMainCall := false; watch := true; clear := true;
     onStart := Some (fun _ => {| hook_cancel := None;
                                  hook_result := Returns Js.Undefined;
                                  hook_errors := None |});
     userOnEnd := None;
     outfile := Some "out.js"; outdir := None; outfileMode := false;
     sourcemap := Js.Bool false; bundler := Fulfilled [];
     patchSourceMap_throws := None; chmod_throws := None |}.

(** Its surroundings: no type-check process; the project's watcher is
    created by this build and is running. *)
Definition build_watching : Build1Env :=
  {| configPhase := ConfigOk; diag := false; tslintProcess := None;
     newWatcher := Some (returning 5); watchFiles_result := None |}.

(** The build after its initial cycle, then canceled. *)
Definition canceled_after_first_build : Handle :=
  cancel Js.Undefined (ready build_watching env_watching build).

(** C6. The claim fails on the code: a cycle started by [rebuild()] or by
    a file change on a build that has been canceled is no short-circuit.
    It clears the screen, calls [onStart], calls the bundler a second
    time, reports the result and resolves to [true].  The test
    [config[CANCELED]] of line 627 is there, but [build1] evaluates it on
    its copy of the configuration, which never has the property. *)
Theorem canceled_rebuild_calls_bundler :
  CANCELED canceled_after_first_build = true /\
  promise canceled_after_first_build = Resolved Js.Undefined /\
  invocations canceled_after_first_build = [5]%nat /\
  bundlerCalls (log canceled_after_first_build) = 1 /\
  log (fst (rebuild env_watching canceled_after_first_build))
    = log canceled_after_first_build
      ++ [ScreenClear; OnStart []; LogDebug "invoking esbuild.build()"; EsbuildBuild;
          LogInfo "Wrote"] /\
  snd (rebuild env_watching canceled_after_first_build) = inr (Js.Bool true) /\
  bundlerCalls (log (fst (fileChange env_watching ["src/a.ts"]
                            canceled_after_first_build))) = 2.
Proof. repeat split. Qed.


(** *** [rebuild] before and after [build1] has installed it *)

Definition rebuildIgnored : Event :=
  LogWarn "rebuild() called before initial build completed. Ignoring".

Lemma addCancelCallback_slots f h :
  rebuildInstalled (fst (addCancelCallback f h)) = rebuildInstalled h /\
  CANCELED (fst (addCancelCallback f h)) = CANCELED h /\
  (CANCELED h = false -> snd (addCancelCallback f h) = inr tt).
Proof.
  unfold addCancelCallback, bind, get, act, call, throw.
  destruct (CANCELED h) eqn:Hc; [destruct f|]; simpl; rewrite ?Hc;
    repeat split; auto; discriminate.
Qed.

Lemma build1_initial_slots b env h :
  rebuildInstalled (fst (build1_initial b env h)) = rebuildInstalled h /\
  exists flight, snd (build1_initial b env h) = inr flight.
Proof.
  unfold build1_initial. destruct (diag b); [simpl; eauto|].
  destruct (esbuild_invoke_calls env [] h) as [_ Hr].
  destruct (_esbuild_invoke env [] h) as [h1 [e|i]]; simpl in *; eauto.
Qed.

Lemma build1_typecheck_slots b env h :
  rebuildInstalled (fst (build1_typecheck b env h)) = rebuildInstalled h /\
  CANCELED (fst (build1_typecheck b env h)) = CANCELED h /\
  (CANCELED h = false -> snd (build1_typecheck b env h) = inr tt).
Proof.
  unfold build1_typecheck.
  destruct (tslintProcess b) as [t|]; [|simpl; auto].
  destruct (tslint_reused t); [simpl; auto|].
  unfold bind.
  destruct (addCancelCallback_slots (Some (tslint_cancel t)) h) as (Hr & Hc' & Hs).
  destruct (addCancelCallback (Some (tslint_cancel t)) h) as [h' [e|[]]];
    simpl in Hr, Hc', Hs.
  - split; [exact Hr|]. split; [exact Hc'|].
    intros Hc. specialize (Hs Hc). discriminate.
  - unfold when, act, ret.
    destruct (diag b && watch env && clear env); simpl; auto.
Qed.

Lemma build1_begin_installs b env h :
  configPhase b = ConfigOk ->
  rebuildInstalled (fst (build1_begin b env h)) = true.
Proof.
  intros Hcfg. unfold build1_begin. rewrite Hcfg.
  cbv beta delta [bind act ret].
  destruct (build1_initial_slots b env (set_rebuildInstalled true h))
    as [Hr [flight Hf]].
  destruct (build1_initial b env (set_rebuildInstalled true h)) as [h1 r1].
  simpl in Hr, Hf. subst r1.
  destruct (build1_typecheck_slots b env h1) as (Hr' & _).
  destruct (build1_typecheck b env h1) as [h2 [e|[]]]; simpl in *; congruence.
Qed.

(** C2 (amended).  Until [build1] has installed the rebuild function,
    [rebuild()] only logs a warning, triggers no build cycle and resolves
    to [true].  From then on - that is, from the start of the initial build
    of a live, well-configured build - [rebuild()] runs exactly one build
    cycle [_esbuild([])], in which the bundler is called at most once, and
    resolves to that cycle's outcome. *)
Theorem rebuild_stub_then_cycle (env : Env) (b : Build1Env) (h : Handle) :
  (rebuildInstalled h = false ->
   rebuild env h = (emit rebuildIgnored h, inr (Js.Bool true))) /\
  (rebuildInstalled h = true ->
   snd (rebuild env h) = snd (_esbuild env [] h) /\
   log (fst (rebuild env h))
     = log (fst (_esbuild env [] h))
       ++ (if isInsideCallToUserOnEnd (fst (_esbuild env [] h))
           then match snd (_esbuild env [] h) with
                | inr _ => [LogWarn "waiting for rebuild() inside onEnd handler may cause a deadlock"]
                | inl _ => []
                end
           else []) /\
   bundlerCalls (log (fst (rebuild env h))) <= bundlerCalls (log h) + 1) /\
  rebuildInstalled build = false /\
  (CANCELED h = false -> configPhase b = ConfigOk ->
   rebuildInstalled (fst (ready_begin b env h)) = true).
Proof.
  split; [|split; [|split]].
  - intros Hr. unfold rebuild. cbv beta delta [bind get act ret]. now rewrite Hr.
  - intros Hr. unfold rebuild. cbv beta delta [bind get act ret when]. rewrite Hr.
    destruct (esbuild_calls env [] h) as [Hb _].
    destruct (_esbuild env [] h) as [h' [e|ok]]; simpl in *.
    + destruct (isInsideCallToUserOnEnd h'); rewrite app_nil_r; auto.
    + destruct (isInsideCallToUserOnEnd h'); simpl.
      * repeat split; auto. rewrite bundlerCalls_app. simpl. lia.
      * rewrite app_nil_r. auto.
  - reflexivity.
  - intros Hc Hcfg. unfold ready_begin. rewrite Hc.
    pose proof (build1_begin_installs b env (set_resolverInstalled true h) Hcfg)
      as Hr.
    destruct (build1_begin b env (set_resolverInstalled true h)) as [h' [e|[v|fl]]];
      simpl in *; try exact Hr;
      match goal with |- rebuildInstalled (settle ?s ?x) = _ =>
        destruct (settle_slots s x) as (-> & _) end; exact Hr.
Qed.

(** The handle while the initial cycle is in flight. *)
Definition initial_build_in_flight : Handle :=
  fst (ready_begin build_plain env_watching build).

Lemma rebuild_stub_then_cycle_witness :
  rebuild env_watching build = (emit rebuildIgnored build, inr (Js.Bool true)) /\
  snd (rebuild env_watching initial_build_in_flight)
    = snd (_esbuild env_watching [] initial_build_in_flight) /\
  rebuildInstalled initial_build_in_flight = true.
Proof.
  destruct (rebuild_stub_then_cycle env_watching build_plain build)
    as (Hstub & _ & _ & Hinst).
  destruct (rebuild_stub_then_cycle env_watching build_plain initial_build_in_flight)
    as (_ & Hcycle & _).
  split; [exact (Hstub eq_refl)|].
  split; [exact (proj1 (Hcycle eq_refl))|].
  exact (Hinst eq_refl eq_refl).
Defined.

(** C2 (as stated) fails: before the initial build has even started,
    [rebuild()] resolves to [true], which is truthy; and while the initial
    build is in flight (its promise still pending, its bundler run not yet
    settled), [rebuild()] does run a build cycle. *)
Lemma rebuild_before_completion :
  snd (rebuild env_watching build) = inr (Js.Bool true) /\
  Js.truthy (Js.Bool true) = true /\
  promise initial_build_in_flight = Pending /\
  bundlerCalls (log initial_build_in_flight) = 1 /\
  bundlerCalls (log (fst (rebuild env_watching initial_build_in_flight))) = 2 /\
  ~ In rebuildIgnored (log (fst (rebuild env_watching initial_build_in_flight))).
Proof.
  repeat split; try reflexivity.
  vm_compute. intros H. repeat (destruct H as [H|H]; [discriminate|]). exact H.
Qed.

(** *** What every operation of a build preserves *)

(** The operations that reach a handle during its life: the client's
    [cancel], [addCancelCallback] and [rebuild], a cycle started by the
    watcher for changed files, and the two steps of the start of the
    build. *)
Inductive Action :=
| Cancel (reason : Js.Value)
| AddCancelCallback (f : Callback)
| Rebuild (env : Env)
| FileChange (env : Env) (changedFiles : list string)
| ReadyBegin (b : Build1Env) (env : Env)
| ReadyEnd (b : Build1Env) (env : Env) (flight : Flight).

Definition perform (h : Handle) (a : Action) : Handle :=
  match a with
  | Cancel reason => cancel reason h
  | AddCancelCallback f => fst (addCancelCallback f h)
  | Rebuild env => fst (rebuild env h)
  | FileChange env changedFiles => fst (fileChange env changedFiles h)
  | ReadyBegin b env => fst (ready_begin b env h)
  | ReadyEnd b env flight => ready_end b env flight h
  end.

Definition performAll (actions : list Action) (h : Handle) : Handle :=
  fold_left perform actions h.

Section Preserved.

(** A relation between the state before and after that the elementary
    state changes respect. *)
Variable R : Handle -> Handle -> Prop.
Hypothesis R_refl : forall h, R h h.
Hypothesis R_trans : forall h1 h2 h3, R h1 h2 -> R h2 h3 -> R h1 h3.
Hypothesis R_emit : forall e h, e <> EsbuildBuild -> R h (emit e h).
Hypothesis R_bundler : forall h, R h (emit EsbuildBuild h).
Hypothesis R_cancel : forall reason h, R h (cancel reason h).
Hypothesis R_inside : forall b h, R h (set_isInsideCallToUserOnEnd b h).
Hypothesis R_rebuild : forall b h, R h (set_rebuildInstalled b h).
Hypothesis R_push : forall f h,
  CANCELED h = false -> R h (set_cancelCallbacks (cancelCallbacks h ++ [f]) h).

Definition keeps {A} (m : M A) : Prop := forall h, R h (fst (m h)).

Lemma keeps_ret {A} (a : A) : keeps (ret a).
Proof. intros h. apply R_refl. Qed.

Lemma keeps_throw {A} (e : Js.Exn) : keeps (@throw A e).
Proof. intros h. apply R_refl. Qed.

Lemma keeps_get {A} (f : Handle -> A) : keeps (get f).
Proof. intros h. apply R_refl. Qed.

Lemma keeps_bind {A B} (m : M A) (k : A -> M B) :
  keeps m -> (forall a, keeps (k a)) -> keeps (bind m k).
Proof.
  intros Hm Hk h. unfold bind. specialize (Hm h).
  destruct (m h) as [h' [e|a]]; simpl in *; [exact Hm|].
  eapply R_trans; [exact Hm|apply Hk].
Qed.

Lemma keeps_when b (m : M unit) : keeps m -> keeps (when b m).
Proof. intros Hm. destruct b; [exact Hm|apply keeps_ret]. Qed.

Lemma keeps_emit e : e <> EsbuildBuild -> keeps (act (emit e)).
Proof. intros He h. apply R_emit, He. Qed.

Lemma keeps_inside b : keeps (act (set_isInsideCallToUserOnEnd b)).
Proof. intros h. apply R_inside. Qed.

Lemma keeps_set_rebuild b : keeps (act (set_rebuildInstalled b)).
Proof. intros h. apply R_rebuild. Qed.

Lemma keeps_hookCancel run : keeps (hookCancel run).
Proof.
  unfold hookCancel. destruct (hook_cancel run); [|apply keeps_ret].
  intros h. apply R_cancel.
Qed.

Lemma keeps_canceledSeen env : keeps (canceledSeen env).
Proof. intros h. rewrite canceledSeen_spec. apply R_refl. Qed.

Lemma keeps_addCancelCallback f : keeps (addCancelCallback f).
Proof.
  intros h. unfold addCancelCallback, bind, get, act, call, throw.
  destruct (CANCELED h) eqn:Hc; [destruct f|]; simpl; auto;
    apply R_emit; discriminate.
Qed.

Hint Resolve keeps_ret keeps_throw keeps_get keeps_when keeps_inside
  keeps_set_rebuild keeps_hookCancel keeps_canceledSeen keeps_addCancelCallback : core.
Hint Extern 1 (keeps (act (emit _))) => (apply keeps_emit; discriminate) : core.
Hint Extern 2 (keeps (bind _ _)) => (apply keeps_bind; [|intros]) : core.

Lemma keeps_logWarnings ws : keeps (logWarnings ws).
Proof. unfold logWarnings. auto. Qed.

Lemma keeps_logErrors es : keeps (logErrors es).
Proof. unfold logErrors. auto. Qed.

Hint Resolve keeps_logWarnings keeps_logErrors : core.

Lemma keeps_onEndInner env ws es d : keeps (onEndInner env ws es d).
Proof.
  unfold onEndInner. destruct (userOnEnd env) as [hook|]; [|auto 10].
  destruct (awaited (hook_result (hook ws es))); auto 20.
Qed.

Hint Resolve keeps_onEndInner : core.

Lemma keeps_onEnd env ws es d : keeps (onEnd env ws es d).
Proof.
  unfold onEnd. destruct (outfileMode env && str_opt_truthy (outfile env)); [|auto].
  destruct (chmod_throws env); auto 20.
Qed.

Hint Resolve keeps_onEnd : core.

Lemma keeps_esbuild_settle env : keeps (_esbuild_settle env).
Proof.
  unfold _esbuild_settle, onBuildSuccess, onBuildFail.
  destruct (bundler env); [|auto 20].
  destruct (str_opt_truthy (outfile env)); [|auto 20].
  destruct (externalSourcemap (sourcemap env)); [|auto 20].
  destruct (patchSourceMap_throws env); auto 20.
Qed.

Lemma keeps_esbuild_invoke env files : keeps (_esbuild_invoke env files).
Proof.
  unfold _esbuild_invoke, _esbuild_prologue.
  apply keeps_bind; [|intros _].
  - destruct (onStart env) as [hook|]; [|auto 10].
    destruct (awaited (hook_result (hook files))); auto 20.
  - apply keeps_bind; [auto|]. intros [|]; [auto|].
    apply keeps_bind; [auto|]. intros _.
    apply keeps_bind; [|auto]. intros h. apply R_bundler.
Qed.

Hint Resolve keeps_esbuild_settle keeps_esbuild_invoke : core.

Lemma keeps_esbuild env files : keeps (_esbuild env files).
Proof. unfold _esbuild. apply keeps_bind; [auto|]. intros []; auto. Qed.

Hint Resolve keeps_esbuild : core.

Lemma keeps_rebuild env : keeps (rebuild env).
Proof.
  unfold rebuild. apply keeps_bind; [auto|]. intros []; [|auto 10].
  apply keeps_bind; [auto|]. intros ok. auto 10.
Qed.

Lemma keeps_fileChange env files : keeps (fileChange env files).
Proof. unfold fileChange. auto. Qed.

Lemma keeps_build1_begin b env : keeps (build1_begin b env).
Proof.
  unfold build1_begin. destruct (configPhase b); [|auto 10|auto].
  apply keeps_bind; [auto|]. intros _. apply keeps_bind.
  - unfold build1_initial. destruct (diag b); [auto|].
    intros h. pose proof (keeps_esbuild_invoke env [] h) as H.
    destruct (_esbuild_invoke env [] h) as [h' [e|i]]; exact H.
  - intros flight. apply keeps_bind; [|auto].
    unfold build1_typecheck. destruct (tslintProcess b) as [t|]; [|auto].
    destruct (tslint_reused t); auto 10.
Qed.

Lemma keeps_awaitTSLint t : keeps (awaitTSLint t).
Proof. unfold awaitTSLint. destruct (tslint_result t); auto 10. Qed.

Hint Resolve keeps_awaitTSLint : core.

Lemma keeps_build1_end b env flight : keeps (build1_end b env flight).
Proof.
  unfold build1_end. apply keeps_bind.
  - destruct flight as [|[]|e]; auto.
  - intros ok. apply keeps_bind; [auto|]. intros canceled.
    destruct (match flight with NoBuild => false | _ => canceled end); [auto|].
    destruct (watch env).
    + apply keeps_bind; [destruct (newWatcher b); auto|]. intros _.
      destruct (watchFiles_result b) as [[e|u]|]; auto 10.
    + apply keeps_bind; [|intros; auto 10].
      destruct (tslintProcess b) as [t|]; [|auto].
      destruct (negb (Js.truthy ok)); [|auto].
      destruct (fn_throws (tslint_cancel t)); auto 10.
Qed.

(** The promise and the resolver are touched only at the start of the
    build and when [build1] settles. *)
Hypothesis R_settle : forall s h, R h (settle s h).
Hypothesis R_resolver : forall h, CANCELED h = false -> R h (set_resolverInstalled true h).

Lemma R_ready_begin b env h : R h (fst (ready_begin b env h)).
Proof.
  unfold ready_begin. destruct (CANCELED h) eqn:Hc; [apply R_emit; discriminate|].
  pose proof (keeps_build1_begin b env (set_resolverInstalled true h)) as H.
  destruct (build1_begin b env (set_resolverInstalled true h)) as [h' [e|[v|fl]]];
    simpl in *.
  - eapply R_trans; [apply (R_resolver h Hc)|]. eapply R_trans; [exact H|apply R_settle].
  - eapply R_trans; [apply (R_resolver h Hc)|]. eapply R_trans; [exact H|apply R_settle].
  - eapply R_trans; [apply (R_resolver h Hc)|exact H].
Qed.

Lemma R_ready_end b env flight h : R h (ready_end b env flight h).
Proof.
  unfold ready_end. pose proof (keeps_build1_end b env flight h) as H.
  destruct (build1_end b env flight h) as [h' [e|[v|]]]; simpl in *.
  - eapply R_trans; [exact H|apply R_settle].
  - eapply R_trans; [exact H|apply R_settle].
  - exact H.
Qed.

Lemma R_perform a h : R h (perform h a).
Proof.
  destruct a as [reason|f|env|env files|b env|b env flight]; simpl.
  - apply R_cancel.
  - apply keeps_addCancelCallback.
  - apply keeps_rebuild.
  - apply keeps_fileChange.
  - apply R_ready_begin.
  - apply R_ready_end.
Qed.

Lemma R_performAll actions : forall h, R h (performAll actions h).
Proof.
  induction actions as [|a actions IH]; intros h; [apply R_refl|].
  simpl. eapply R_trans; [apply R_perform|apply IH].
Qed.

End Preserved.

Lemma bundlerCalls_emit e h :
  e <> EsbuildBuild -> bundlerCalls (log (emit e h)) = bundlerCalls (log h).
Proof.
  intros He. simpl. rewrite bundlerCalls_app. destruct e; simpl; try lia. congruence.
Qed.

(** X14. Canceling a started build whose promise is pending settles the
    promise when every registered callback returns: with a truthy reason
    it is rejected with that reason, without one it is resolved with
    [undefined].  When a callback throws, [cancel] throws its exception
    before it reaches the resolver, and the promise stays pending. *)
Theorem cancel_settles_promise (reason : Js.Value) (h : Handle) :
  CANCELED h = false -> resolverInstalled h = true -> promise h = Pending ->
  (thrown (cancelCallbacks h) = None ->
   snd (cancel_call reason h) = inr tt /\
   promise (cancel reason h)
     = (if Js.truthy reason then Rejected (Js.Thrown reason)
        else Resolved Js.Undefined)) /\
  (forall e, thrown (cancelCallbacks h) = Some e ->
   snd (cancel_call reason h) = inl e /\
   promise (cancel reason h) = Pending).
Proof.
  intros Hc Hr Hp. destruct (cancel_live reason h Hc) as (_ & _ & Hres).
  rewrite cancel_promise, Hc, Hr, Hp, Hres. split.
  - intros ->. split; reflexivity.
  - intros e ->. split; reflexivity.
Qed.

(** X15. Cancellation is final for the handle: once the flag is set it
    stays set and the callback list no longer changes - no callback is
    queued any more - whatever operations follow. *)
Theorem cancellation_is_final (actions : list Action) (h : Handle) :
  CANCELED h = true ->
  CANCELED (performAll actions h) = true /\
  cancelCallbacks (performAll actions h) = cancelCallbacks h.
Proof.
  revert h.
  apply (R_performAll (fun h h' => CANCELED h = true ->
           CANCELED h' = true /\ cancelCallbacks h' = cancelCallbacks h)).
  - auto.
  - intros h1 h2 h3 H12 H23 Hc. destruct (H12 Hc) as (Hc2 & Hq2).
    destruct (H23 Hc2) as (Hc3 & Hq3). split; congruence.
  - intros e h He Hc. auto.
  - intros h Hc. auto.
  - intros reason h Hc. unfold cancel. rewrite cancel_call_canceled by exact Hc. auto.
  - auto.
  - auto.
  - congruence.
  - intros s h Hc. destruct (settle_fields s h) as (-> & -> & _). auto.
  - congruence.
Qed.

(** X16. A build canceled before it has started never settles: its promise
    stays pending for ever, whatever is done with the handle afterwards
    (the start of the build, further cancellations, rebuilds). *)
Theorem canceled_before_start_never_settles
    (reason : Js.Value) (actions : list Action) (h : Handle) :
  resolverInstalled h = false -> promise h = Pending ->
  promise (performAll actions (cancel reason h)) = Pending.
Proof.
  intros Hr Hp.
  assert (Hstart : CANCELED (cancel reason h) = true /\
                   resolverInstalled (cancel reason h) = false /\
                   promise (cancel reason h) = Pending).
  { split; [apply cancel_CANCELED|]. destruct (cancel_slots reason h) as (_ & -> & _).
    split; [exact Hr|]. rewrite cancel_promise, Hr.
    destruct (CANCELED h); [exact Hp|]. now destruct (thrown (cancelCallbacks h)). }
  destruct Hstart as (Hc' & Hr' & Hp'). rewrite <- Hp'.
  assert (H : CANCELED (cancel reason h) = true /\
              resolverInstalled (cancel reason h) = false) by auto.
  revert H. generalize (cancel reason h). clear. intros h H.
  assert (Hall : CANCELED (performAll actions h) = true /\
                 resolverInstalled (performAll actions h) = false /\
                 promise (performAll actions h) = promise h); [|apply Hall].
  revert h H.
  apply (R_performAll (fun h h' =>
           CANCELED h = true /\ resolverInstalled h = false ->
           CANCELED h' = true /\ resolverInstalled h' = false /\
           promise h' = promise h)).
  - intros h [Hc Hr]. auto.
  - intros h1 h2 h3 H12 H23 H1. destruct (H12 H1) as (Hc2 & Hr2 & Hp2).
    destruct (H23 (conj Hc2 Hr2)) as (Hc3 & Hr3 & Hp3). repeat split; congruence.
  - intros e h _ [Hc Hr]. auto.
  - intros h [Hc Hr]. auto.
  - intros reason h [Hc Hr]. unfold cancel.
    rewrite cancel_call_canceled by exact Hc. auto.
  - intros b h [Hc Hr]. auto.
  - intros b h [Hc Hr]. auto.
  - intros f h Hc [Hc' _]. congruence.
  - intros s h [Hc Hr]. unfold settle. rewrite Hr. auto.
  - intros h Hc [Hc' _]. congruence.
Qed.

(** A started build with two cleanup functions, the first of which
    throws. *)
Definition build_with_throwing_cleanup : Handle :=
  registerAll [Some (throwing 1 (Js.Error "cleanup failed")); Some (returning 2)]
    (set_resolverInstalled true build).

Lemma cancel_settles_promise_witness :
  promise (cancel Js.Undefined initial_build_in_flight) = Resolved Js.Undefined /\
  promise (cancel (Js.Str "stop") initial_build_in_flight)
    = Rejected (Js.Thrown (Js.Str "stop")) /\
  promise (cancel (Js.Str "stop") build_with_throwing_cleanup) = Pending.
Proof.
  split; [|split].
  - apply (cancel_settles_promise Js.Undefined initial_build_in_flight);
      reflexivity.
  - apply (cancel_settles_promise (Js.Str "stop") initial_build_in_flight);
      reflexivity.
  - apply (cancel_settles_promise (Js.Str "stop") build_with_throwing_cleanup
             eq_refl eq_refl eq_refl) with (e := Js.Error "cleanup failed").
    reflexivity.
Defined.

Lemma cancellation_is_final_witness :
  cancelCallbacks
    (performAll [Rebuild env_watching; FileChange env_watching ["src/a.ts"];
                 AddCancelCallback (Some (returning 3)); Cancel Js.Null]
       canceled_after_first_build)
  = [].
Proof.
  apply (cancellation_is_final
           [Rebuild env_watching; FileChange env_watching ["src/a.ts"];
            AddCancelCallback (Some (returning 3)); Cancel Js.Null]
           canceled_after_first_build).
  reflexivity.
Defined.

Lemma canceled_before_start_never_settles_witness :
  promise (performAll [ReadyBegin build_plain env_watching; Rebuild env_watching;
                       Cancel (Js.Str "again");
                       ReadyEnd build_plain env_watching (InFlight true)]
             (cancel Js.Undefined build))
  = Pending.
Proof.
  apply (canceled_before_start_never_settles Js.Undefined
           [ReadyBegin build_plain env_watching; Rebuild env_watching;
            Cancel (Js.Str "again");
            ReadyEnd build_plain env_watching (InFlight true)] build);
    reflexivity.
Defined.

(** While a build is not canceled, only [build1] itself settles its
    promise: a step that leaves the build live leaves the promise and the
    resolver as they were. *)
Definition live_unchanged (h h' : Handle) : Prop :=
  resolverInstalled h' = resolverInstalled h /\
  (CANCELED h' = false -> CANCELED h = false /\ promise h' = promise h).

Lemma live_unchanged_keeps {A} (m : M A) :
  (forall R : Handle -> Handle -> Prop,
     (forall h, R h h) ->
     (forall h1 h2 h3, R h1 h2 -> R h2 h3 -> R h1 h3) ->
     (forall e h, e <> EsbuildBuild -> R h (emit e h)) ->
     (forall h, R h (emit EsbuildBuild h)) ->
     (forall reason h, R h (cancel reason h)) ->
     (forall b h, R h (set_isInsideCallToUserOnEnd b h)) ->
     (forall b h, R h (set_rebuildInstalled b h)) ->
     (forall f h, CANCELED h = false ->
                  R h (set_cancelCallbacks (cancelCallbacks h ++ [f]) h)) ->
     keeps R m) ->
  keeps live_unchanged m.
Proof.
  intros H. apply H; unfold live_unchanged; clear H.
  - auto.
  - intros h1 h2 h3 [Hr12 H12] [Hr23 H23]. split; [congruence|].
    intros Hc3. destruct (H23 Hc3) as [Hc2 Hp23]. destruct (H12 Hc2) as [Hc1 Hp12].
    split; congruence.
  - intros e h _. simpl. auto.
  - intros h. simpl. auto.
  - intros reason h. destruct (cancel_slots reason h) as (_ & -> & _).
    split; [reflexivity|]. rewrite cancel_CANCELED. discriminate.
  - intros b h. simpl. auto.
  - intros b h. simpl. auto.
  - intros f h _. simpl. auto.
Qed.

Lemma build1_begin_live b env : keeps live_unchanged (build1_begin b env).
Proof. apply live_unchanged_keeps. intros. now apply keeps_build1_begin. Qed.

Lemma build1_end_live b env flight : keeps live_unchanged (build1_end b env flight).
Proof. apply live_unchanged_keeps. intros. now apply keeps_build1_end. Qed.

(** X17. An [onStart] hook that throws, or whose promise is rejected,
    aborts the cycle before the bundler is called: the cycle is rejected
    with the hook's exception, and so is the promise of a build whose
    initial cycle it was, unless the build was canceled meanwhile. *)
Theorem onStart_failure_aborts (env : Env) (b : Build1Env) (files : list string)
    (h : Handle) (hook : list string -> HookRun) (e e0 : Js.Exn) :
  onStart env = Some hook ->
  awaited (hook_result (hook files)) = inl e ->
  snd (_esbuild env files h) = inl e /\
  bundlerCalls (log (fst (_esbuild env files h))) = bundlerCalls (log h) /\
  (awaited (hook_result (hook [])) = inl e0 ->
   configPhase b = ConfigOk -> diag b = false -> promise h = Pending ->
   CANCELED (ready b env h) = false ->
   promise (ready b env h) = Rejected e0).
Proof.
  intros Hs Ha.
  assert (Hpro : forall fs x, awaited (hook_result (hook fs)) = inl x ->
            forall h0, snd (_esbuild_invoke env fs h0) = inl x /\
                       bundlerCalls (log (fst (_esbuild_invoke env fs h0)))
                       = bundlerCalls (log h0)).
  { intros fs x Hx h0.
    assert (Heq : _esbuild_invoke env fs h0
                  = (fst (_esbuild_prologue env fs h0), inl x)).
    { unfold _esbuild_invoke, bind.
      pose proof (esbuild_prologue_result env fs h0) as Hres.
      rewrite Hs, Hx in Hres.
      destruct (_esbuild_prologue env fs h0) as [h1 r]. simpl in Hres. now subst r. }
    rewrite Heq. simpl. split; [reflexivity|].
    apply (quiet_esbuild_prologue env fs h0). }
  split; [|split].
  - unfold _esbuild, bind. destruct (Hpro files e Ha h) as [Hr _].
    destruct (_esbuild_invoke env files h) as [h1 r]. simpl in Hr. now subst r.
  - unfold _esbuild, bind. destruct (Hpro files e Ha h) as [Hr Hb].
    destruct (_esbuild_invoke env files h) as [h1 r]. simpl in Hr, Hb. now subst r.
  - intros Ha0 Hcfg Hdiag Hp Hlive. unfold ready, ready_begin in *.
    destruct (CANCELED h) eqn:Hc; [simpl in Hlive; congruence|].
    pose proof (build1_begin_live b env (set_resolverInstalled true h)) as [Hres Hlv].
    assert (Hbeg : exists h1 h2 r2,
              build1_typecheck b env h1 = (h2, r2) /\
              build1_begin b env (set_resolverInstalled true h)
              = (h2, match r2 with
                     | inl e1 => inl e1
                     | inr _ => inr (inr (StartFailed e0))
                     end)).
    { unfold build1_begin. rewrite Hcfg. cbv beta delta [bind act ret].
      unfold build1_initial. rewrite Hdiag.
      destruct (Hpro [] e0 Ha0 (set_rebuildInstalled true (set_resolverInstalled true h)))
        as [Hr _].
      destruct (_esbuild_invoke env [] _) as [h1 r]. simpl in Hr. subst r.
      destruct (build1_typecheck b env h1) as [h2 r2] eqn:Ht.
      exists h1, h2, r2. split; [exact Ht|]. destruct r2 as [e1|[]]; reflexivity. }
    destruct Hbeg as (h1 & h2 & r2 & Ht & Hbeg). rewrite Hbeg in *.
    cbn [fst snd] in *.
    destruct (build1_typecheck_slots b env h1) as (_ & Hcan & Hret).
    rewrite Ht in Hcan, Hret. cbn [fst snd] in Hcan, Hret.
    assert (Hc2 : CANCELED h2 = false).
    { destruct r2 as [e1|[]]; simpl in Hlive.
      - destruct (settle_fields (Rejected e1) h2) as (Hx & _). congruence.
      - unfold ready_end, build1_end, bind, throw in Hlive. simpl in Hlive.
        destruct (settle_fields (Rejected e0) h2) as (Hx & _). congruence. }
    rewrite Hc2 in Hcan. rewrite (Hret (eq_sym Hcan)) in *. cbn [fst snd] in *.
    unfold ready_end, build1_end, bind, throw. simpl.
    destruct (Hlv Hc2) as [_ Hp1].
    unfold settle. rewrite Hres, Hp1. cbn [resolverInstalled promise set_resolverInstalled].
    rewrite Hp. reflexivity.
Qed.

Definition env_onStart_throws : Env :=
  {| isMainCall := false; watch := false; clear := false;
     onStart := Some (fun _ => {| hook_cancel := None;
                                  hook_result := Throws (Js.Error "codegen failed"); hook_errors := None |});
     userOnEnd := None;
     outfile := Some "out.js"; outdir := None; outfileMode := false;
     sourcemap := Js.Bool false; bundler := Fulfilled [];
     patchSourceMap_throws := None; chmod_throws := None |}.

Lemma onStart_failure_aborts_witness :
  snd (_esbuild env_onStart_throws ["src/a.ts"] build)
    = inl (Js.Error "codegen failed") /\
  promise (ready build_plain env_onStart_throws build)
    = Rejected (Js.Error "codegen failed").
Proof.
  destruct (onStart_failure_aborts env_onStart_throws build_plain ["src/a.ts"] build
              (fun _ => {| hook_cancel := None;
                           hook_result := Throws (Js.Error "codegen failed"); hook_errors := None |})
              (Js.Error "codegen failed") (Js.Error "codegen failed")
              eq_refl eq_refl) as (H1 & _ & H3).
  split; [exact H1|]. apply H3; reflexivity.
Defined.

Lemma build1_begin_result b env h :
  configPhase b = ConfigOk ->
  (exists flight, snd (build1_begin b env h) = inr (inr flight)) \/
  (exists e, snd (build1_begin b env h) = inl e).
Proof.
  intros Hcfg. unfold build1_begin. rewrite Hcfg.
  cbv beta delta [bind act ret].
  destruct (build1_initial_slots b env (set_rebuildInstalled true h))
    as [_ [flight Hf]].
  destruct (build1_initial b env (set_rebuildInstalled true h)) as [h1 r1].
  simpl in Hf. subst r1.
  destruct (build1_typecheck b env h1) as [h2 [e|[]]]; simpl; eauto.
Qed.

(** In watch mode [build1] returns a value only at the cancellation test
    of line 676, or [true] once the promise of [watchFiles] is fulfilled. *)
Lemma build1_end_watch_result b env flight h v :
  watch env = true ->
  snd (build1_end b env flight h) = inr (Some v) ->
  CANCELED (fst (build1_end b env flight h)) = true \/
  (v = Js.Bool true /\ exists u, watchFiles_result b = Some (inr u)).
Proof.
  intros Hw. destruct (build1_end b env flight h) as [h' r] eqn:E. simpl. intros ->.
  unfold build1_end in E. unfold bind at 1 in E.
  destruct (match flight with
            | NoBuild => ret (Js.Bool true)
            | InFlight invoked => if invoked then _esbuild_settle env else ret Js.Undefined
            | StartFailed e => throw e
            end h) as [h1 [e|ok]]; [discriminate|].
  unfold bind at 1 in E. rewrite canceledSeen_spec, Hw in E.
  destruct (match flight with
            | NoBuild => false
            | _ => isMainCall env && CANCELED h1
            end) eqn:Hcan.
  - unfold ret in E. injection E as <- _. left.
    destruct flight; try discriminate;
      apply andb_true_iff in Hcan; apply Hcan.
  - unfold bind in E.
    destruct (match newWatcher b with
              | Some w => addCancelCallback (Some w)
              | None => ret tt
              end h1) as [h2 [e|[]]]; [discriminate|].
    destruct (watchFiles_result b) as [[e|u]|]; try discriminate.
    simpl in E. injection E as _ <-. right. eauto.
Qed.

(** X18. In watch mode the build promise follows the watcher.  [build1]
    resolves the promise of a live build only when the promise of
    [watchFiles] has been fulfilled, and then with [true] - whatever the
    outcome of the initial cycle was.  As long as the watcher runs, the
    promise is pending, or it has been rejected by a failure of the
    initial cycle or of [watchFiles]. *)
Theorem watching_build_follows_watcher (b : Build1Env) (env : Env) (h : Handle) :
  watch env = true -> configPhase b = ConfigOk -> promise h = Pending ->
  CANCELED (ready b env h) = false ->
  (forall v, promise (ready b env h) = Resolved v ->
             v = Js.Bool true /\ exists u, watchFiles_result b = Some (inr u)) /\
  (watchFiles_result b = None ->
   promise (ready b env h) = Pending \/
   exists e, promise (ready b env h) = Rejected e).
Proof.
  intros Hw Hcfg Hp Hlive.
  assert (Hmain : forall v, promise (ready b env h) = Resolved v ->
            v = Js.Bool true /\ exists u, watchFiles_result b = Some (inr u)).
  { unfold ready, ready_begin in *.
    destruct (CANCELED h) eqn:Hc; [simpl in Hlive; congruence|].
    pose proof (build1_begin_live b env (set_resolverInstalled true h)) as [Hres Hlv].
    pose proof (build1_begin_result b env (set_resolverInstalled true h) Hcfg) as Hbr.
    destruct (build1_begin b env (set_resolverInstalled true h)) as [h1 r1].
    simpl in Hres, Hlv, Hbr.
    destruct Hbr as [[flight ->]|[e ->]]; simpl in *.
    - unfold ready_end in *.
      pose proof (build1_end_live b env flight h1) as [Hres2 Hlv2].
      pose proof (build1_end_watch_result b env flight h1) as Hsome.
      destruct (build1_end b env flight h1) as [h2 [e|[v|]]]; simpl in *.
      + destruct (settle_fields (Rejected e) h2) as (Hc2 & _). rewrite Hc2 in Hlive.
        destruct (Hlv2 Hlive) as [Hc1 Hp2]. destruct (Hlv Hc1) as [_ Hp1].
        intros v0. unfold settle. rewrite Hres2, Hres, Hp2, Hp1, Hp. discriminate.
      + destruct (settle_fields (Resolved v) h2) as (Hc2 & _). rewrite Hc2 in Hlive.
        destruct (Hsome v Hw eq_refl) as [Hcan|Hv]; [congruence|].
        destruct (Hlv2 Hlive) as [Hc1 Hp2]. destruct (Hlv Hc1) as [_ Hp1].
        intros v0. unfold settle. rewrite Hres2, Hres, Hp2, Hp1, Hp.
        intros [= <-]. exact Hv.
      + destruct (Hlv2 Hlive) as [Hc1 Hp2]. destruct (Hlv Hc1) as [_ Hp1].
        intros v0. rewrite Hp2, Hp1, Hp. discriminate.
    - destruct (settle_fields (Rejected e) h1) as (Hc1 & _). rewrite Hc1 in Hlive.
      destruct (Hlv Hlive) as [_ Hp1].
      intros v0. unfold settle. rewrite Hres, Hp1, Hp. discriminate. }
  split; [exact Hmain|].
  intros Hnone. destruct (promise (ready b env h)) as [|v|e] eqn:E; eauto.
  destruct (Hmain v eq_refl) as (_ & u & Hu). congruence.
Qed.

(** A build whose watcher has ended. *)
Definition build_watch_ended : Build1Env :=
  {| configPhase := ConfigOk; diag := false; tslintProcess := None;
     newWatcher := Some (returning 5); watchFiles_result := Some (inr tt) |}.

(** A watching build whose bundler fails. *)
Definition env_watching_fails : Env :=
  {| isMainCall := false; watch := true; clear := false; onStart := None;
     userOnEnd := None;
     outfile := Some "out.js"; outdir := None; outfileMode := false;
     sourcemap := Js.Bool false;
     bundler := RejectedWith {| fail_warnings := None; fail_errors := None;
                                fail_string := "Error: boom" |};
     patchSourceMap_throws := None; chmod_throws := None |}.

Lemma watching_build_follows_watcher_witness :
  promise (ready build_plain env_watching build) = Pending /\
  promise (ready build_watch_ended env_watching_fails build) = Resolved (Js.Bool true) /\
  exists u, watchFiles_result build_watch_ended = Some (inr u).
Proof.
  split; [|split; [reflexivity|]].
  - destruct (watching_build_follows_watcher build_plain env_watching build)
      as [_ H]; [reflexivity..|].
    destruct (H eq_refl) as [Hp|[e He]]; [exact Hp|discriminate He].
  - destruct (watching_build_follows_watcher build_watch_ended env_watching_fails build)
      as [H _]; [reflexivity..|].
    exact (proj2 (H (Js.Bool true) eq_refl)).
Defined.

(** The events of a run without a build cycle. *)
Definition noCycleEvent (e : Event) : Prop :=
  match e with
  | EsbuildBuild | OnStart _ | OnEnd _ _ | Chmod | PatchSourceMap => False
  | _ => True
  end.

(** A computation that only adds such events to the log. *)
Definition noCycle {A} (m : M A) : Prop :=
  forall h, exists l, log (fst (m h)) = log h ++ l /\ Forall noCycleEvent l.

Lemma noCycle_ret {A} (a : A) : noCycle (ret a).
Proof. intros h. exists []. simpl. rewrite app_nil_r. auto. Qed.

Lemma noCycle_throw {A} (e : Js.Exn) : noCycle (@throw A e).
Proof. intros h. exists []. simpl. rewrite app_nil_r. auto. Qed.

Lemma noCycle_bind {A B} (m : M A) (k : A -> M B) :
  noCycle m -> (forall a, noCycle (k a)) -> noCycle (bind m k).
Proof.
  intros Hm Hk h. unfold bind. destruct (Hm h) as (l & Hl & Hf).
  destruct (m h) as [h' [e|a]]; simpl in *; [eauto|].
  destruct (Hk a h') as (l' & Hl' & Hf').
  exists (l ++ l'). rewrite Hl', Hl, <- app_assoc. split; [reflexivity|].
  now apply Forall_app.
Qed.

Lemma noCycle_emit e : noCycleEvent e -> noCycle (act (emit e)).
Proof. intros He h. exists [e]. simpl. auto. Qed.

Lemma noCycle_when b (m : M unit) : noCycle m -> noCycle (when b m).
Proof. intros Hm. destruct b; [exact Hm|apply noCycle_ret]. Qed.

Lemma noCycle_canceledSeen env : noCycle (canceledSeen env).
Proof.
  intros h. rewrite canceledSeen_spec. exists []. simpl. rewrite app_nil_r. auto.
Qed.

Lemma noCycle_addCancelCallback f : noCycle (addCancelCallback f).
Proof.
  intros h. unfold addCancelCallback, bind, get, act, call, throw.
  destruct (CANCELED h); [destruct f|]; simpl.
  - eexists [_]. split; [reflexivity|]. repeat constructor.
  - exists []. rewrite app_nil_r. auto.
  - exists []. rewrite app_nil_r. auto.
Qed.

Lemma noCycle_set_rebuild v : noCycle (act (set_rebuildInstalled v)).
Proof. intros h. exists []. simpl. rewrite app_nil_r. auto. Qed.

Lemma noCycle_awaitTSLint t : noCycle (awaitTSLint t).
Proof.
  unfold awaitTSLint. destruct (tslint_result t); [|apply noCycle_ret].
  apply noCycle_bind; [|intros; apply noCycle_ret].
  apply noCycle_when, noCycle_emit. exact I.
Qed.

Lemma noCycle_build1_begin b env :
  diag b = true -> noCycle (build1_begin b env).
Proof.
  intros Hd. unfold build1_begin. destruct (configPhase b) as [|msg|e].
  - apply noCycle_bind; [apply noCycle_set_rebuild|]. intros _.
    apply noCycle_bind.
    + unfold build1_initial. rewrite Hd. apply noCycle_ret.
    + intros flight. apply noCycle_bind; [|intros; apply noCycle_ret].
      unfold build1_typecheck. destruct (tslintProcess b) as [t|]; [|apply noCycle_ret].
      destruct (tslint_reused t); [apply noCycle_ret|].
      apply noCycle_bind; [apply noCycle_addCancelCallback|]. intros _.
      apply noCycle_when, noCycle_emit. exact I.
  - apply noCycle_bind; [apply noCycle_emit; exact I|]. intros; apply noCycle_ret.
  - apply noCycle_throw.
Qed.

Lemma noCycle_build1_end b env : noCycle (build1_end b env NoBuild).
Proof.
  unfold build1_end. apply noCycle_bind; [apply noCycle_ret|]. intros ok.
  apply noCycle_bind; [apply noCycle_canceledSeen|]. intros canceled.
  destruct (watch env).
  - apply noCycle_bind.
    + destruct (newWatcher b); [apply noCycle_addCancelCallback|apply noCycle_ret].
    + intros _. destruct (watchFiles_result b) as [[e|u]|].
      * apply noCycle_throw.
      * apply noCycle_bind; [apply noCycle_emit; exact I|]. intros; apply noCycle_ret.
      * apply noCycle_ret.
  - apply noCycle_bind.
    + destruct (tslintProcess b) as [t|]; [|apply noCycle_ret].
      destruct (negb (Js.truthy ok)); [|apply noCycle_awaitTSLint].
      apply noCycle_bind; [apply noCycle_emit; exact I|]. intros _.
      destruct (fn_throws (tslint_cancel t)); [apply noCycle_throw|apply noCycle_ret].
    + intros ok'. apply noCycle_bind; [apply noCycle_canceledSeen|]. intros c.
      apply noCycle_bind; [|intros; apply noCycle_ret].
      apply noCycle_when, noCycle_emit. exact I.
Qed.

Lemma build1_begin_diag b env h :
  diag b = true ->
  match snd (build1_begin b env h) with
  | inr (inr flight) => flight = NoBuild
  | _ => True
  end.
Proof.
  intros Hd. unfold build1_begin. destruct (configPhase b) as [|msg|e]; simpl; auto.
  cbv beta delta [bind act ret]. unfold build1_initial. rewrite Hd.
  cbv beta delta [ret]. cbv beta iota.
  destruct (build1_typecheck b env (set_rebuildInstalled true h)) as [h2 [e|[]]];
    simpl; auto.
Qed.

(** X19. With [-diag] only diagnostics run: [build1] calls neither the
    bundler nor the [onStart] and [onEnd] hooks. *)
Theorem diag_runs_no_build (b : Build1Env) (env : Env) (h : Handle) :
  diag b = true ->
  exists events,
    log (ready b env h) = log h ++ events /\
    Forall (fun e => match e with
                     | EsbuildBuild | OnStart _ | OnEnd _ _ | Chmod | PatchSourceMap => False
                     | _ => True
                     end) events.
Proof.
  intros Hd. unfold ready, ready_begin.
  destruct (CANCELED h) eqn:Hc.
  { simpl. eexists. split; [reflexivity|]. repeat constructor. }
  assert (Hsettle : forall s h0, log (settle s h0) = log h0)
    by (intros s h0; apply settle_fields).
  destruct (noCycle_build1_begin b env Hd (set_resolverInstalled true h))
    as (l1 & Hl1 & Hf1).
  pose proof (build1_begin_diag b env (set_resolverInstalled true h) Hd) as Hfl.
  destruct (build1_begin b env (set_resolverInstalled true h)) as [h1 [e|[v|flight]]];
    simpl in Hl1, Hfl.
  - exists l1. rewrite Hsettle. auto.
  - exists l1. rewrite Hsettle. auto.
  - subst flight. unfold ready_end.
    destruct (noCycle_build1_end b env h1) as (l2 & Hl2 & Hf2).
    exists (l1 ++ l2). split; [|now apply Forall_app].
    destruct (build1_end b env NoBuild h1) as [h2 [e|[v|]]]; simpl in Hl2;
      rewrite ?Hsettle, Hl2, Hl1, <- app_assoc; reflexivity.
Qed.

Definition build_diag : Build1Env :=
  {| configPhase := ConfigOk; diag := true;
     tslintProcess := Some {| tslint_reused := false; tslint_cancel := returning 7;
                              tslint_result := inr (Js.Bool true) |};
     newWatcher := None;
     watchFiles_result := None |}.

Lemma diag_runs_no_build_witness :
  exists events,
    log (ready build_diag env_override build) = events /\
    Forall (fun e => match e with
                     | EsbuildBuild | OnStart _ | OnEnd _ _ | Chmod | PatchSourceMap => False
                     | _ => True
                     end) events.
Proof.
  destruct (diag_runs_no_build build_diag env_override build eq_refl)
    as (events & Hl & Hf).
  exists events. split; [exact Hl|exact Hf].
Defined.

(** The log only grows. *)
Definition log_extends (h h' : Handle) : Prop := exists l, log h' = log h ++ l.

Lemma log_extends_keeps {A} (m : M A) :
  (forall R : Handle -> Handle -> Prop,
     (forall h, R h h) ->
     (forall h1 h2 h3, R h1 h2 -> R h2 h3 -> R h1 h3) ->
     (forall e h, e <> EsbuildBuild -> R h (emit e h)) ->
     (forall h, R h (emit EsbuildBuild h)) ->
     (forall reason h, R h (cancel reason h)) ->
     (forall b h, R h (set_isInsideCallToUserOnEnd b h)) ->
     (forall b h, R h (set_rebuildInstalled b h)) ->
     (forall f h, CANCELED h = false ->
                  R h (set_cancelCallbacks (cancelCallbacks h ++ [f]) h)) ->
     keeps R m) ->
  keeps log_extends m.
Proof.
  intros H. apply H; unfold log_extends; clear H.
  - intros h. exists []. now rewrite app_nil_r.
  - intros h1 h2 h3 [l1 H1] [l2 H2]. exists (l1 ++ l2). now rewrite H2, H1, app_assoc.
  - intros e h _. now exists [e].
  - intros h. now exists [EsbuildBuild].
  - intros reason h. destruct (CANCELED h) eqn:Hc.
    + unfold cancel. rewrite cancel_call_canceled by exact Hc.
      exists []. now rewrite app_nil_r.
    + destruct (cancel_live reason h Hc) as (-> & _). eauto.
  - intros b h. exists []. simpl. now rewrite app_nil_r.
  - intros b h. exists []. simpl. now rewrite app_nil_r.
  - intros f h _. exists []. simpl. now rewrite app_nil_r.
Qed.

Definition with_chmod (c : option string) (env : Env) : Env :=
  {| isMainCall := isMainCall env; watch := watch env; clear := clear env; onStart := onStart env;
     userOnEnd := userOnEnd env; outfile := outfile env; outdir := outdir env;
     outfileMode := outfileMode env; sourcemap := sourcemap env;
     bundler := bundler env; patchSourceMap_throws := patchSourceMap_throws env;
     chmod_throws := c |}.

Lemma onBuildSuccess_outcome env ws h :
  snd (onBuildSuccess env ws h)
  = if patches env then
      match patchSourceMap_throws env with
      | Some e => inl e
      | None => hookOutcome env ws [] true
      end
    else hookOutcome env ws [] true.
Proof.
  unfold patches, onBuildSuccess.
  destruct (str_opt_truthy (outfile env)); simpl.
  - destruct (externalSourcemap (sourcemap env)).
    + destruct (patchSourceMap_throws env).
      * unfold_m. destruct (negb _); reflexivity.
      * unfold_m. destruct (negb _); simpl; apply onEnd_result.
    + unfold_m. destruct (negb _); simpl; apply onEnd_result.
  - unfold_m. destruct (negb _); simpl; apply onEnd_result.
Qed.

Lemma onEnd_applies_mode env ws es d h :
  outfileMode env = true -> str_opt_truthy (outfile env) = true ->
  exists l l',
    log (fst (onEnd env ws es d h))
    = log h ++ l ++ Chmod ::
        match chmod_throws env with
        | Some msg => [LogError ("configuration error: outfileMode: " ++ msg);
                       SetErrorExitCode]
        | None => []
        end ++ l'.
Proof.
  intros Hm Ho. unfold onEnd. rewrite Hm, Ho. simpl.
  assert (Hin : forall h0, exists l', log (fst (onEndInner env ws es d h0)) = log h0 ++ l').
  { intros h0. apply (log_extends_keeps (onEndInner env ws es d)).
    intros. now apply keeps_onEndInner. }
  exists []. unfold bind, act, ret.
  destruct (chmod_throws env) as [msg|].
  - destruct (Hin (emit SetErrorExitCode
                     (emit (LogError ("configuration error: outfileMode: " ++ msg))
                        (emit Chmod h)))) as [l' Hl].
    exists l'. rewrite Hl. simpl. rewrite <- !app_assoc. reflexivity.
  - destruct (Hin (emit Chmod h)) as [l' Hl].
    exists l'. rewrite Hl. simpl. rewrite <- !app_assoc. reflexivity.
Qed.

(** X20. Applying [outfileMode] is never fatal: whether [chmod] fails or
    not, the cycle has the same outcome.  With [outfileMode] and an
    [outfile] the mode is applied in the cycle of a failed build as well,
    and a failure of [chmod] is logged as a configuration error and sets
    the error exit code. *)
Theorem chmod_failure_not_fatal (env : Env) (c c' : option string) (h : Handle)
    (err : EsbuildFailure) :
  snd (_esbuild_settle (with_chmod c env) h)
    = snd (_esbuild_settle (with_chmod c' env) h) /\
  (outfileMode env = true -> str_opt_truthy (outfile env) = true ->
   bundler env = RejectedWith err ->
   exists l l',
     log (fst (_esbuild_settle env h))
     = log h ++ l ++ Chmod ::
         match chmod_throws env with
         | Some msg => [LogError ("configuration error: outfileMode: " ++ msg);
                        SetErrorExitCode]
         | None => []
         end ++ l').
Proof.
  split.
  - unfold _esbuild_settle. cbn [bundler with_chmod].
    destruct (bundler env) as [ws|e].
    + rewrite !onBuildSuccess_outcome. reflexivity.
    + rewrite !onBuildFail_result. reflexivity.
  - intros Hm Ho Hb. unfold _esbuild_settle, onBuildFail. rewrite Hb.
    unfold bind at 1.
    assert (Hw : exists lw, logWarnings (default [] (fail_warnings err)) h
                            = (emits lw h, inr tt)).
    { unfold logWarnings, when, act, ret. destruct (negb _).
      - eexists [_]. reflexivity.
      - exists []. reflexivity. }
    destruct Hw as [lw ->].
    destruct (onEnd_applies_mode env (default [] (fail_warnings err))
                match default [] (fail_errors err) with
                | [] => [fail_string err]
                | _ :: _ => default [] (fail_errors err)
                end false (emits lw h) Hm Ho) as (l & l' & Hl).
    exists (lw ++ l), l'. rewrite Hl, emits_log, <- !app_assoc. reflexivity.
Qed.

Definition env_failed_chmod : Env :=
  {| isMainCall := false; watch := false; clear := false; onStart := None; userOnEnd := None;
     outfile := Some "out.js"; outdir := None; outfileMode := true;
     sourcemap := Js.Bool false;
     bundler := RejectedWith {| fail_warnings := None; fail_errors := None;
                                fail_string := "Error: boom" |};
     patchSourceMap_throws := None; chmod_throws := Some "ENOENT" |}.

Lemma chmod_failure_not_fatal_witness :
  exists l l',
    log (fst (_esbuild_settle env_failed_chmod build))
    = [] ++ l ++ Chmod :: [LogError "configuration error: outfileMode: ENOENT";
                           SetErrorExitCode] ++ l'.
Proof.
  destruct (chmod_failure_not_fatal env_failed_chmod None None build
              {| fail_warnings := None; fail_errors := None;
                 fail_string := "Error: boom" |}) as [_ H].
  exact (H eq_refl eq_refl eq_refl).
Defined.

Lemma cancel_inside reason h :
  isInsideCallToUserOnEnd (cancel reason h) = isInsideCallToUserOnEnd h.
Proof. apply cancel_slots. Qed.

Lemma onEndInner_inside env ws es d h :
  isInsideCallToUserOnEnd (fst (onEndInner env ws es d h))
  = match userOnEnd env with
    | Some _ => false
    | None => isInsideCallToUserOnEnd h
    end.
Proof.
  unfold onEndInner. destruct (userOnEnd env) as [hook|].
  - unfold_m. destruct (hook_cancel (hook ws es));
      destruct (awaited (hook_result (hook ws es))); simpl; try reflexivity;
      destruct (negb _); reflexivity.
  - unfold_m. destruct (negb _); reflexivity.
Qed.

Lemma onEnd_inside env ws es d h :
  isInsideCallToUserOnEnd h = false ->
  isInsideCallToUserOnEnd (fst (onEnd env ws es d h)) = false.
Proof.
  intros Hi. unfold onEnd.
  destruct (outfileMode env && str_opt_truthy (outfile env)).
  - unfold bind, act, ret. destruct (chmod_throws env); simpl;
      rewrite onEndInner_inside; destruct (userOnEnd env); auto.
  - rewrite onEndInner_inside. destruct (userOnEnd env); auto.
Qed.

Lemma esbuild_settle_inside env h :
  isInsideCallToUserOnEnd h = false ->
  isInsideCallToUserOnEnd (fst (_esbuild_settle env h)) = false.
Proof.
  intros Hi. unfold _esbuild_settle, onBuildSuccess, onBuildFail.
  destruct (bundler env) as [ws|err].
  - unfold logWarnings, when. unfold bind, act, ret.
    destruct (negb (length ws =? 0)%nat); destruct (str_opt_truthy (outfile env));
      try destruct (externalSourcemap (sourcemap env));
      try destruct (patchSourceMap_throws env); simpl;
      try exact Hi; apply onEnd_inside; exact Hi.
  - unfold logWarnings, when. unfold bind, act, ret.
    destruct (negb _); simpl; apply onEnd_inside; exact Hi.
Qed.

(** X21. The flag [isInsideCallToUserOnEnd] is lowered again by the end of
    every cycle, also when the [onEnd] hook throws or cancels the build;
    hence a [rebuild()] called outside the hook never logs the deadlock
    warning and is exactly one cycle [_esbuild([])]. *)
Theorem inside_flag_is_reset (env : Env) (files : list string) (h : Handle) :
  isInsideCallToUserOnEnd h = false ->
  isInsideCallToUserOnEnd (fst (_esbuild env files h)) = false /\
  (rebuildInstalled h = true -> rebuild env h = _esbuild env [] h).
Proof.
  intros Hi.
  assert (Hcycle : forall fs,
            isInsideCallToUserOnEnd (fst (_esbuild env fs h)) = false).
  { intros fs. unfold _esbuild, bind.
    pose proof (keeps_esbuild_invoke
                  (fun h h' => isInsideCallToUserOnEnd h' = isInsideCallToUserOnEnd h)
                  (fun _ => eq_refl)
                  (fun _ _ _ H1 H2 => eq_trans H2 H1)
                  (fun _ _ _ => eq_refl) (fun _ => eq_refl)
                  (fun reason h0 => cancel_inside reason h0) env fs h) as Hinv.
    destruct (_esbuild_invoke env fs h) as [h1 [e|[|]]]; simpl in *.
    - congruence.
    - apply esbuild_settle_inside. congruence.
    - congruence. }
  split; [apply Hcycle|].
  intros Hr. unfold rebuild. cbv beta delta [bind get act ret when]. rewrite Hr.
  specialize (Hcycle []).
  destruct (_esbuild env [] h) as [h' [e|ok]]; simpl in *; [reflexivity|].
  now rewrite Hcycle.
Qed.

Definition env_onEnd_throws : Env :=
  {| isMainCall := false; watch := false; clear := false; onStart := None;
     userOnEnd := Some (fun _ _ => {| hook_cancel := Some Js.Undefined;
                                      hook_result := Throws (Js.Error "hook failed"); hook_errors := None |});
     outfile := Some "out.js"; outdir := None; outfileMode := false;
     sourcemap := Js.Bool false; bundler := Fulfilled ["unused import"];
     patchSourceMap_throws := None; chmod_throws := None |}.

Lemma inside_flag_is_reset_witness :
  isInsideCallToUserOnEnd (fst (_esbuild env_onEnd_throws [] initial_build_in_flight))
    = false /\
  rebuild env_onEnd_throws initial_build_in_flight
    = _esbuild env_onEnd_throws [] initial_build_in_flight.
Proof.
  destruct (inside_flag_is_reset env_onEnd_throws [] initial_build_in_flight eq_refl)
    as [H1 H2].
  split; [exact H1|exact (H2 eq_refl)].
Defined.










End Build.

(** ** The watch set: [refreshFiles] inside [watchFiles] *)

Module Watch.

(** The bundler's metadata file after [JSON.parse]: two dictionaries from
    path to an information object. *)
Record Meta := {
  inputs : gmap string Js.Value;
  outputs : gmap string Js.Value;
}.

(** [Object.keys(o)]: the own keys of [o], each once.  Their order is the
    map's; the order of the metadata file is not kept, and nothing below
    depends on it beyond the list being enumerated the same way each
    time. *)
Definition Object_keys (o : gmap string Js.Value) : list string :=
  (map_to_list o).*1.

(** Whether a plain object inherits the property [fn]. *)
Definition inherited (fn : string) : bool :=
  existsb (String.eqb fn) Js.Object_prototype.

(** [fn in o]: an own property of [o], or one that [o] inherits. *)
Definition has_key (fn : string) (o : gmap string Js.Value) : bool :=
  bool_decide (is_Some (o !! fn)) || inherited fn.

(** The watcher and what surrounds it: the file list installed by
    [fswatcher.setFiles], the log of self-originating modifications fed by
    [fileModificationLogAppend], and the errors logged. *)
Record Watcher := {
  files : list string;
  modificationLog : list string;
  errorLog : list string;
}.

Definition setFiles (l : list string) (w : Watcher) : Watcher :=
  {| files := l; modificationLog := modificationLog w; errorLog := errorLog w |}.

Definition fileModificationLogAppend (fn : string) (w : Watcher) : Watcher :=
  {| files := files w; modificationLog := modificationLog w ++ [fn];
     errorLog := errorLog w |}.

Definition log_error (msg : string) (w : Watcher) : Watcher :=
  {| files := files w; modificationLog := modificationLog w;
     errorLog := errorLog w ++ [msg] |}.

(** [s.includes(sub)], the substring test of ECMAScript strings. *)
Definition includes (s sub : string) : bool :=
  match String.index 0 sub s with
  | Some _ => true
  | None => false
  end.

Section RefreshFiles.

(** [Path.sep]: ["/"] on POSIX. *)
Variable sep : string.

(** What the property [contains] of a string is in the running program: a
    method taking the substring, or nothing ([undefined]). *)
Variable contains : option (string -> string -> bool).

Definition nodeModulesPathSubstr : string := sep ++ "node_modules" ++ sep.

(** [fn.contains(nodeModulesPathSubstr)]: calling a property that is not a
    function raises a [TypeError]. *)
Definition call_contains (fn : string) : Js.Exn + bool :=
  match contains with
  | Some method => inr (method fn nodeModulesPathSubstr)
  | None => inl (Js.TypeError "fn.contains is not a function")
  end.

(** The loop of lines 766-779 over [srcfiles], with [n = srcfiles.length]. *)
Fixpoint collectSourceFiles (n : nat) (outfiles : gmap string Js.Value)
    (srcfiles sourceFiles : list string) : Js.Exn + list string :=
  match srcfiles with
  | [] => inr sourceFiles
  | fn :: rest =>
      if has_key fn outfiles then collectSourceFiles n outfiles rest sourceFiles
      else if (100 <? n)%nat then
        match call_contains fn with
        | inl e => inl e
        | inr true => collectSourceFiles n outfiles rest sourceFiles
        | inr false => collectSourceFiles n outfiles rest (sourceFiles ++ [fn])
        end
      else collectSourceFiles n outfiles rest (sourceFiles ++ [fn])
  end.

(** [refreshFiles()].  [esbuildMeta] is [None] when the metadata file
    cannot be read or parsed. *)
Definition refreshFiles (esbuildMeta : option Meta) (w : Watcher) : Watcher * (Js.Exn + unit) :=
  match esbuildMeta with
  | None => (log_error "internal error when reading esbuild metafile" w, inr tt)
  | Some meta =>
      let srcfiles := Object_keys (inputs meta) in
      let outfiles := outputs meta in
      let w := fold_left (fun w fn => fileModificationLogAppend fn w)
                         (Object_keys outfiles) w in
      match collectSourceFiles (length srcfiles) outfiles srcfiles [] with
      | inr sourceFiles => (setFiles sourceFiles w, inr tt)
      | inl e => (w, inl e)
      end
  end.

(** Whether the loop keeps a path, when [contains] is a method. *)
Definition kept (method : string -> string -> bool) (n : nat)
    (outfiles : gmap string Js.Value) (fn : string) : bool :=
  negb (has_key fn outfiles) &&
  negb ((100 <? n)%nat && method fn nodeModulesPathSubstr).

Lemma fold_append_files outs : forall w,
  files (fold_left (fun w fn => fileModificationLogAppend fn w) outs w) = files w.
Proof. induction outs as [|o outs IH]; intros w; simpl; [reflexivity|]. now rewrite IH. Qed.

Lemma collectSourceFiles_method method n outfiles srcfiles : forall sourceFiles,
  contains = Some method ->
  collectSourceFiles n outfiles srcfiles sourceFiles
  = inr (sourceFiles ++ List.filter (kept method n outfiles) srcfiles).
Proof.
  intros sourceFiles Hm. revert sourceFiles.
  induction srcfiles as [|fn rest IH]; intros sourceFiles; simpl.
  - now rewrite app_nil_r.
  - unfold kept at 1, call_contains. rewrite Hm.
    destruct (has_key fn outfiles); simpl; [apply IH|].
    destruct (100 <? n)%nat; simpl.
    + destruct (method fn nodeModulesPathSubstr); simpl; [apply IH|].
      rewrite IH, <- app_assoc. reflexivity.
    + rewrite IH, <- app_assoc. reflexivity.
Qed.

Lemma collectSourceFiles_small n outfiles srcfiles : forall sourceFiles,
  n <= 100 ->
  collectSourceFiles n outfiles srcfiles sourceFiles
  = inr (sourceFiles ++ List.filter (fun fn => negb (has_key fn outfiles)) srcfiles).
Proof.
  intros sourceFiles Hn. revert sourceFiles.
  assert (Hlt : (100 <? n)%nat = false) by (apply Nat.ltb_ge; exact Hn).
  induction srcfiles as [|fn rest IH]; intros sourceFiles; simpl.
  - now rewrite app_nil_r.
  - rewrite Hlt. destruct (has_key fn outfiles); simpl; [apply IH|].
    rewrite IH, <- app_assoc. reflexivity.
Qed.

Lemma collectSourceFiles_throws n outfiles srcfiles : forall sourceFiles,
  contains = None -> 100 < n ->
  (exists fn, In fn srcfiles /\ has_key fn outfiles = false) ->
  collectSourceFiles n outfiles srcfiles sourceFiles
  = inl (Js.TypeError "fn.contains is not a function").
Proof.
  intros sourceFiles Hc Hn. revert sourceFiles.
  assert (Hlt : (100 <? n)%nat = true) by (apply Nat.ltb_lt; exact Hn).
  induction srcfiles as [|fn rest IH]; intros sourceFiles [x [Hin Hx]].
  - destruct Hin.
  - simpl. destruct (has_key fn outfiles) eqn:Hk.
    + apply IH. exists x. split; [|exact Hx].
      destruct Hin as [->|Hin]; [congruence|exact Hin].
    + rewrite Hlt. unfold call_contains. now rewrite Hc.
Qed.

Lemma elem_of_Object_keys fn (o : gmap string Js.Value) :
  In fn (Object_keys o) <-> is_Some (o !! fn).
Proof.
  unfold Object_keys. rewrite <- list_elem_of_In, list_elem_of_fmap. split.
  - intros [[k v] [-> Hkv]]. apply elem_of_map_to_list in Hkv. simpl. eauto.
  - intros [v Hv]. exists (fn, v). split; [reflexivity|].
    now apply elem_of_map_to_list.
Qed.

Lemma has_key_false fn (o : gmap string Js.Value) :
  has_key fn o = false <-> (fn ∉ dom o) /\ inherited fn = false.
Proof.
  unfold has_key. rewrite orb_false_iff, bool_decide_eq_false, elem_of_dom.
  reflexivity.
Qed.

Lemma length_Object_keys (o : gmap string Js.Value) : length (Object_keys o) = size o.
Proof. unfold Object_keys. now rewrite length_fmap, length_map_to_list. Qed.

(** Up to 100 inputs the watch set is the inputs that are neither an
    output nor the name of an inherited property, whatever [contains] is:
    the call is never reached. *)
Lemma refreshFiles_small meta w :
  size (inputs meta) <= 100 ->
  snd (refreshFiles (Some meta) w) = inr tt /\
  forall fn,
    In fn (files (fst (refreshFiles (Some meta) w))) <->
    fn ∈ dom (inputs meta) ∖ dom (outputs meta) /\ inherited fn = false.
Proof.
  intros Hn. unfold refreshFiles.
  rewrite collectSourceFiles_small by (now rewrite length_Object_keys).
  simpl. split; [reflexivity|]. intros fn.
  rewrite filter_In, elem_of_Object_keys, elem_of_difference, elem_of_dom,
    negb_true_iff, has_key_false, elem_of_dom.
  tauto.
Qed.

(** The watch set the loop is written to compute: when [contains] is the
    substring test, it is the inputs that are neither an output nor the
    name of an inherited property, minus the paths with a [node_modules]
    directory component exactly when there are more than 100 inputs. *)
Lemma refreshFiles_method method meta w :
  contains = Some method ->
  snd (refreshFiles (Some meta) w) = inr tt /\
  forall fn,
    In fn (files (fst (refreshFiles (Some meta) w))) <->
    fn ∈ dom (inputs meta) ∖ dom (outputs meta) /\ inherited fn = false /\
    ~ (100 < size (inputs meta) /\ method fn nodeModulesPathSubstr = true).
Proof.
  intros Hm. unfold refreshFiles.
  rewrite (collectSourceFiles_method method) by exact Hm.
  simpl. split; [reflexivity|]. intros fn.
  rewrite filter_In, elem_of_Object_keys, elem_of_difference, elem_of_dom.
  unfold kept. rewrite andb_true_iff, !negb_true_iff, has_key_false,
    andb_false_iff, length_Object_keys, Nat.ltb_ge, elem_of_dom.
  split.
  - intros (Hin & (Hout & Hinh) & Hnm). repeat split; auto.
    intros [Hn Hc]. destruct Hnm as [Hle|Hf]; [lia|congruence].
  - intros ((Hin & Hout) & Hinh & Hnm). repeat split; auto.
    destruct (method fn nodeModulesPathSubstr); [|now right].
    left. apply Nat.nlt_ge. intros Hlt. apply Hnm. auto.
Qed.

(** Without a [contains] method, more than 100 inputs of which one is
    neither an output nor the name of an inherited property make
    [refreshFiles] throw before [setFiles] is reached: the watcher keeps
    the file list it had. *)
Lemma refreshFiles_large_throws meta w :
  contains = None ->
  100 < size (inputs meta) ->
  (exists fn, fn ∈ dom (inputs meta) /\ (fn ∉ dom (outputs meta)) /\ inherited fn = false) ->
  snd (refreshFiles (Some meta) w) = inl (Js.TypeError "fn.contains is not a function") /\
  files (fst (refreshFiles (Some meta) w)) = files w.
Proof.
  intros Hc Hn (fn & Hin & Hout & Hinh). unfold refreshFiles.
  rewrite collectSourceFiles_throws.
  - simpl. split; [reflexivity|apply fold_append_files].
  - exact Hc.
  - now rewrite length_Object_keys.
  - exists fn. split.
    + apply elem_of_Object_keys, elem_of_dom, Hin.
    + apply has_key_false. auto.
Qed.

End RefreshFiles.

(** The strings of the running program have no [contains] property:
    ECMAScript's [String.prototype] offers the substring test under the
    name [includes], and nothing in [estrella.js] adds a [contains] method
    to it. *)
Definition String_prototype_contains : option (string -> string -> bool) := None.

(** A project of [n] modules: [src/m0.ts] ... and, among them, one file of a
    library under [node_modules]; the bundle is written to [out.js]. *)
Definition modulePath (i : nat) : string :=
  if Nat.eqb i 0 then "/p/node_modules/lib/index.js"
  else "src/m" ++ pretty i ++ ".ts".

Definition project (n : nat) : Meta :=
  {| inputs := list_to_map (map (fun i => (modulePath i, Js.Obj i None)) (seq 0 n));
     outputs := {[ "out.js" := Js.Obj 0 None ]} |}.

Definition watching (l : list string) : Watcher :=
  {| files := l; modificationLog := []; errorLog := [] |}.

(** With 100 inputs every input is watched, the library file included. *)
Example refreshFiles_100_inputs :
  size (inputs (project 100)) = 100 /\
  snd (refreshFiles "/" String_prototype_contains (Some (project 100)) (watching []))
    = inr tt /\
  length (files (fst (refreshFiles "/" String_prototype_contains (Some (project 100))
                        (watching [])))) = 100 /\
  "/p/node_modules/lib/index.js"
    ∈ files (fst (refreshFiles "/" String_prototype_contains (Some (project 100))
                    (watching []))).
Proof.
  split; [vm_compute; reflexivity|]. split; [vm_compute; reflexivity|].
  split; [vm_compute; reflexivity|].
  apply (bool_decide_unpack _). vm_compute. exact I.
Qed.

(** With a substring test in the place of [contains], 101 inputs give the
    100 project files: the library file is left out. *)
Example refreshFiles_101_inputs_with_includes :
  snd (refreshFiles "/" (Some includes) (Some (project 101)) (watching [])) = inr tt /\
  length (files (fst (refreshFiles "/" (Some includes) (Some (project 101))
                        (watching [])))) = 100 /\
  "/p/node_modules/lib/index.js"
    ∉ files (fst (refreshFiles "/" (Some includes) (Some (project 101))
                    (watching []))).
Proof.
  split; [vm_compute; reflexivity|]. split; [vm_compute; reflexivity|].
  apply (bool_decide_unpack _). vm_compute. exact I.
Qed.

(** C1, on the code as it runs: for a metadata file with 101 inputs, none of
    them an output, [refreshFiles] raises a [TypeError] at the first input
    and never reaches [setFiles]; the watcher keeps the file list it had
    instead of the inputs minus the outputs and the library paths. *)
Theorem refreshFiles_101_inputs_throws :
  size (inputs (project 101)) = 101 /\
  refreshFiles "/" String_prototype_contains (Some (project 101)) (watching ["src/m1.ts"])
  = ({| files := ["src/m1.ts"]; modificationLog := ["out.js"]; errorLog := [] |},
     inl (Js.TypeError "fn.contains is not a function")).
Proof. split; vm_compute; reflexivity. Qed.

(** *** What [refreshFiles] guarantees in every case *)

Section RefreshFilesProperties.

Variable sep : string.
Variable contains : option (string -> string -> bool).

Lemma collectSourceFiles_sound n outfiles srcfiles : forall sourceFiles l,
  collectSourceFiles sep contains n outfiles srcfiles sourceFiles = inr l ->
  exists kept, l = sourceFiles ++ kept /\ sublist kept srcfiles /\
               Forall (fun fn => has_key fn outfiles = false) kept.
Proof.
  induction srcfiles as [|fn rest IH]; intros sourceFiles l; simpl.
  - intros [= <-]. exists []. rewrite app_nil_r. repeat constructor.
  - destruct (has_key fn outfiles) eqn:Hk.
    + intros H. destruct (IH _ _ H) as (kept & -> & Hsub & Hall).
      exists kept. split; [reflexivity|]. split; [now apply sublist_cons|exact Hall].
    + assert (Hpush : collectSourceFiles sep contains n outfiles rest (sourceFiles ++ [fn])
                      = inr l ->
                exists kept, l = sourceFiles ++ kept /\ sublist kept (fn :: rest) /\
                             Forall (fun fn => has_key fn outfiles = false) kept).
      { intros H. destruct (IH _ _ H) as (kept & -> & Hsub & Hall).
        exists (fn :: kept). rewrite <- app_assoc. split; [reflexivity|].
        split; [now apply sublist_skip|now constructor]. }
      assert (Hskip : collectSourceFiles sep contains n outfiles rest sourceFiles = inr l ->
                exists kept, l = sourceFiles ++ kept /\ sublist kept (fn :: rest) /\
                             Forall (fun fn => has_key fn outfiles = false) kept).
      { intros H. destruct (IH _ _ H) as (kept & -> & Hsub & Hall).
        exists kept. split; [reflexivity|]. split; [now apply sublist_cons|exact Hall]. }
      destruct (100 <? n)%nat; [|exact Hpush].
      destruct (call_contains sep contains fn) as [e|[|]]; [discriminate|exact Hskip|exact Hpush].
Qed.

Lemma fold_append_log outs : forall w,
  modificationLog (fold_left (fun w fn => fileModificationLogAppend fn w) outs w)
    = modificationLog w ++ outs /\
  errorLog (fold_left (fun w fn => fileModificationLogAppend fn w) outs w) = errorLog w.
Proof.
  induction outs as [|o outs IH]; intros w; simpl.
  - now rewrite app_nil_r.
  - destruct (IH (fileModificationLogAppend o w)) as [-> ->]. simpl.
    now rewrite <- app_assoc.
Qed.

(** X23. Whatever the program's strings offer and however many inputs
    there are: when [refreshFiles] succeeds, the list it installs in the
    watcher has no duplicates, holds only inputs of the build, and never
    holds an output of the build - the watcher cannot trigger on what the
    build itself writes. *)
Theorem installed_files_are_inputs_only (meta : Meta) (w : Watcher) :
  snd (refreshFiles sep contains (Some meta) w) = inr tt ->
  NoDup (files (fst (refreshFiles sep contains (Some meta) w))) /\
  forall fn, fn ∈ files (fst (refreshFiles sep contains (Some meta) w)) ->
             fn ∈ dom (inputs meta) /\ fn ∉ dom (outputs meta).
Proof.
  unfold refreshFiles.
  destruct (collectSourceFiles sep contains (length (Object_keys (inputs meta)))
              (outputs meta) (Object_keys (inputs meta)) []) as [e|l] eqn:Hc;
    [discriminate|].
  intros _. simpl.
  destruct (collectSourceFiles_sound _ _ _ _ _ Hc) as (kept & -> & Hsub & Hall).
  simpl. split.
  - eapply sublist_NoDup; [|exact Hsub]. apply NoDup_fst_map_to_list.
  - intros fn Hfn. split.
    + apply elem_of_dom, elem_of_Object_keys, list_elem_of_In.
      eapply elem_of_sublist; eassumption.
    + rewrite Forall_forall in Hall. now apply (has_key_false fn (outputs meta)), Hall.
Qed.

(** X24. A refresh that fails leaves the watcher with the file list it
    had: when the metadata cannot be read one error is logged and nothing
    is thrown; when the loop throws, the outputs have already been
    recorded as self-originating modifications, each once, and the error
    goes to the caller. *)
Theorem failed_refresh_keeps_files (esbuildMeta : option Meta) (w : Watcher) :
  match esbuildMeta with
  | None =>
      refreshFiles sep contains None w
      = ({| files := files w; modificationLog := modificationLog w;
            errorLog := errorLog w ++ ["internal error when reading esbuild metafile"] |},
         inr tt)
  | Some meta =>
      modificationLog (fst (refreshFiles sep contains (Some meta) w))
        = modificationLog w ++ Object_keys (outputs meta) /\
      NoDup (Object_keys (outputs meta)) /\
      errorLog (fst (refreshFiles sep contains (Some meta) w)) = errorLog w /\
      (forall e, snd (refreshFiles sep contains (Some meta) w) = inl e ->
                 files (fst (refreshFiles sep contains (Some meta) w)) = files w)
  end.
Proof.
  destruct esbuildMeta as [meta|]; [|reflexivity].
  unfold refreshFiles.
  destruct (fold_append_log (Object_keys (outputs meta)) w) as [Hm He].
  destruct (collectSourceFiles sep contains _ _ _ []) as [e|l]; simpl.
  - split; [exact Hm|]. split; [apply NoDup_fst_map_to_list|]. split; [exact He|].
    intros e0 _. apply fold_append_files.
  - split; [exact Hm|]. split; [apply NoDup_fst_map_to_list|]. split; [exact He|].
    intros e0 H. discriminate.
Qed.

End RefreshFilesProperties.

Lemma installed_files_are_inputs_only_witness :
  NoDup (files (fst (refreshFiles "/" String_prototype_contains (Some (project 3))
                       (watching [])))).
Proof.
  apply (installed_files_are_inputs_only "/" String_prototype_contains (project 3)
           (watching [])).
  vm_compute. reflexivity.
Defined.

End Watch.

(** ** The type-check process registry: [startTSLint] and [tslintProcessCache] *)

Module TSLint.

(** A [TSLintBasicOptions] object. *)
Record BasicOptions := {
  b_mode : option string;
  b_colors : option bool;
  b_quiet : option bool;
  b_format : option string;
}.

(** [tslintOptions]: a mode (["auto"], ["on"], [true], ...) or an object. *)
Inductive TSLintOptions :=
| Mode (m : Js.Value)
| Basic (o : BasicOptions).

(** What [startTSLint] reads of [cliopts] and [config]. *)
Record Config := {
  cwd : string;
  watch : bool;
  clear : bool;
  quiet : bool;
  entryPoints : list string;
  tsrules : bool;                  (* config.tsrules && config.tsrules.length *)
}.

(** The options object handed to [tslint]. *)
Record Options := {
  o_colors : bool;
  o_quiet : bool;
  o_mode : Js.Value;
  o_format : option string;
  o_watch : bool;
  o_cwd : string;
  o_clearScreen : bool;
  o_srcdir : string;
  o_tsconfigFile : option string;
}.

(** A process handle is the position of the process among those started. *)
Definition TSLintProcess : Type := nat.

(** The module-level [tslintProcessCache], the processes started so far by
    [tslint(options)], and the log. *)
Record Registry := {
  tslintProcessCache : gmap string TSLintProcess;
  started : list Options;
  messages : list string;
}.

Definition log_message (msg : string) (r : Registry) : Registry :=
  {| tslintProcessCache := tslintProcessCache r; started := started r;
     messages := messages r ++ [msg] |}.

(** [tslint(options)]: a new process. *)
Definition tslint (options : Options) (r : Registry) : Registry * TSLintProcess :=
  ({| tslintProcessCache := tslintProcessCache r; started := started r ++ [options];
      messages := messages r |}, length (started r)).

Definition cache_set (key : string) (p : TSLintProcess) (r : Registry) : Registry :=
  {| tslintProcessCache := <[key := p]> (tslintProcessCache r); started := started r;
     messages := messages r |}.

Section StartTSLint.

(** [tsutil.getTSConfigFileForConfig], [Path.dirname] and the colour
    support of the terminal ([style.ncolors > 0]) come from outside. *)
Variable getTSConfigFileForConfig : Config -> option string.
Variable dirname : string -> string.
Variable colors : bool.

(** [tscBasicOptions.mode == "off"] for an options object. *)
Definition disabled (tslintOptions : TSLintOptions) : bool :=
  match tslintOptions with
  | Basic o => match b_mode o with
               | Some m => String.eqb m "off"
               | None => false
               end
  | Mode _ => false
  end.

(** [`${tsconfigFile || config.cwd}`] *)
Definition cacheKey (config : Config) : string :=
  match getTSConfigFileForConfig config with
  | Some f => if Js.str_truthy f then f else cwd config
  | None => cwd config
  end.

(** The object literal of lines 825-850; [dirname(undefined)] raises a
    [TypeError]. *)
Definition makeOptions (tslintOptions : TSLintOptions) (diag : bool) (config : Config)
  : Js.Exn + Options :=
  match entryPoints config with
  | [] => inl (Js.TypeError "The 'path' argument must be of type string")
  | entry :: _ =>
      let basic := match tslintOptions with
                   | Basic o => o
                   | Mode _ => {| b_mode := None; b_colors := None; b_quiet := None;
                                  b_format := None |}
                   end in
      let mode := match tslintOptions with
                  | Basic _ => Js.Undefined
                  | Mode m => m
                  end in
      inr {| o_colors := default colors (b_colors basic);
             o_quiet := default (quiet config) (b_quiet basic);
             o_mode := match b_mode basic with
                       | Some m => Js.Str m
                       | None => mode
                       end;
             o_format := b_format basic;
             o_watch := watch config;
             o_cwd := cwd config;
             o_clearScreen := diag && watch config && clear config;
             o_srcdir := dirname entry;
             o_tsconfigFile := getTSConfigFileForConfig config |}
  end.

(** [startTSLint(tslintOptions, cliopts, config)], returning
    [[tslintProcess, tslintProcessReused]]; [diag] is [cliopts.diag]. *)
Definition startTSLint (tslintOptions : TSLintOptions) (diag : bool) (config : Config)
    (r : Registry) : Registry * (Js.Exn + (option TSLintProcess * bool)) :=
  if disabled tslintOptions then
    (log_message "tslint disabled by tslint config {mode:'off'}" r, inr (None, false))
  else
    let r := if tsrules config
             then log_message
                    "The 'tsrules' property is deprecated. Please use 'tslint.rules' instead" r
             else r in
    match tslintProcessCache r !! cacheKey config with
    | Some existingTSLintProcess =>
        (log_message "tslint sharing process (no new process created)" r,
         inr (Some existingTSLintProcess, true))
    | None =>
        match makeOptions tslintOptions diag config with
        | inl e => (r, inl e)
        | inr options =>
            let r := log_message "starting tslint with options" r in
            let '(r, tslintProcess) := tslint options r in
            (cache_set (cacheKey config) tslintProcess r, inr (Some tslintProcess, false))
        end
    end.

Lemma startTSLint_hit tslintOptions diag config r p :
  disabled tslintOptions = false ->
  tslintProcessCache r !! cacheKey config = Some p ->
  snd (startTSLint tslintOptions diag config r) = inr (Some p, true) /\
  started (fst (startTSLint tslintOptions diag config r)) = started r /\
  tslintProcessCache (fst (startTSLint tslintOptions diag config r))
    = tslintProcessCache r.
Proof.
  intros Hd Hp. unfold startTSLint. rewrite Hd.
  destruct (tsrules config); simpl; rewrite Hp; simpl; auto.
Qed.

Lemma startTSLint_miss tslintOptions diag config r :
  disabled tslintOptions = false ->
  entryPoints config <> [] ->
  tslintProcessCache r !! cacheKey config = None ->
  snd (startTSLint tslintOptions diag config r)
    = inr (Some (length (started r)), false) /\
  (exists options, started (fst (startTSLint tslintOptions diag config r))
                   = started r ++ [options]) /\
  tslintProcessCache (fst (startTSLint tslintOptions diag config r))
    = <[cacheKey config := length (started r)]> (tslintProcessCache r).
Proof.
  intros Hd He Hp. unfold startTSLint. rewrite Hd.
  assert (Hopt : exists options, makeOptions tslintOptions diag config = inr options).
  { unfold makeOptions. destruct (entryPoints config); [congruence|eauto]. }
  destruct Hopt as [options Hopt].
  destruct (tsrules config); simpl; rewrite Hp, Hopt; simpl; eauto.
Qed.

(** C8. Type-check processes are cached under the type-config file path
    when one is found, else under the working directory.  A request whose
    key is in the cache returns the cached process with [reused = true]
    and starts no process; a request with a fresh key starts exactly one
    new process, caches it and returns it with [reused = false]; hence a
    second request with the same key returns the process of the first
    with [reused = true] and starts no duplicate. *)
Theorem startTSLint_reuses_by_key
    (tslintOptions tslintOptions' : TSLintOptions) (diag diag' : bool)
    (config config' : Config) (r : Registry) :
  disabled tslintOptions = false -> disabled tslintOptions' = false ->
  entryPoints config <> [] ->
  cacheKey config' = cacheKey config ->
  cacheKey config = match getTSConfigFileForConfig config with
                    | Some f => if Js.str_truthy f then f else cwd config
                    | None => cwd config
                    end /\
  match tslintProcessCache r !! cacheKey config with
  | Some existing =>
      snd (startTSLint tslintOptions diag config r) = inr (Some existing, true) /\
      started (fst (startTSLint tslintOptions diag config r)) = started r
  | None =>
      snd (startTSLint tslintOptions diag config r)
        = inr (Some (length (started r)), false) /\
      length (started (fst (startTSLint tslintOptions diag config r)))
        = S (length (started r)) /\
      tslintProcessCache r !! cacheKey config = None
  end /\
  (exists p reused,
     snd (startTSLint tslintOptions diag config r) = inr (Some p, reused) /\
     snd (startTSLint tslintOptions' diag' config'
            (fst (startTSLint tslintOptions diag config r)))
       = inr (Some p, true) /\
     started (fst (startTSLint tslintOptions' diag' config'
                     (fst (startTSLint tslintOptions diag config r))))
       = started (fst (startTSLint tslintOptions diag config r))).
Proof.
  intros Hd Hd' He Hk. split; [reflexivity|].
  destruct (tslintProcessCache r !! cacheKey config) as [p|] eqn:Hp.
  - destruct (startTSLint_hit tslintOptions diag config r p Hd Hp) as (Hs & Hst & Hc).
    split; [auto|]. exists p, true. split; [exact Hs|].
    destruct (startTSLint_hit tslintOptions' diag' config'
                (fst (startTSLint tslintOptions diag config r)) p Hd') as (Hs' & Hst' & _).
    { rewrite Hc, Hk. exact Hp. }
    auto.
  - destruct (startTSLint_miss tslintOptions diag config r Hd He Hp)
      as (Hs & [options Hst] & Hc).
    split.
    { repeat split; auto. rewrite Hst, length_app. simpl. lia. }
    exists (length (started r)), false. split; [exact Hs|].
    destruct (startTSLint_hit tslintOptions' diag' config'
                (fst (startTSLint tslintOptions diag config r)) (length (started r)) Hd')
      as (Hs' & Hst' & _).
    { rewrite Hc, Hk. apply lookup_insert_eq. }
    auto.
Qed.

End StartTSLint.

(** Two builds of the project in [/p], whose type configuration is found
    at [/p/tsconfig.json]. *)
Definition config_p : Config :=
  {| cwd := "/p"; watch := true; clear := true; quiet := false;
     entryPoints := ["src/main.ts"]; tsrules := false |}.

Definition empty_registry : Registry :=
  {| tslintProcessCache := ∅; started := []; messages := [] |}.

Definition find_tsconfig (config : Config) : option string :=
  Some (cwd config ++ "/tsconfig.json")%string.

Lemma startTSLint_reuses_by_key_witness :
  snd (startTSLint find_tsconfig (fun _ => "src") true (Mode (Js.Str "auto")) false config_p
         empty_registry)
    = inr (Some 0, false) /\
  snd (startTSLint find_tsconfig (fun _ => "src") true (Mode (Js.Str "on")) false config_p
         (fst (startTSLint find_tsconfig (fun _ => "src") true (Mode (Js.Str "auto")) false
                 config_p empty_registry)))
    = inr (Some 0, true).
Proof.
  destruct (startTSLint_reuses_by_key find_tsconfig (fun _ => "src") true
              (Mode (Js.Str "auto")) (Mode (Js.Str "on")) false false
              config_p config_p empty_registry eq_refl eq_refl)
    as (_ & Hfirst & (p & reused & Hp & Hsecond & _)).
  - discriminate.
  - reflexivity.
  - split; [reflexivity|]. rewrite Hsecond. rewrite Hp in Hfirst.
    destruct Hfirst as (Hfirst & _). injection Hfirst as -> _. reflexivity.
Defined.

(** *** The registry over a sequence of requests *)

Section RegistryInvariant.

Variable getTSConfigFileForConfig : Config -> option string.
Variable dirname : string -> string.
Variable colors : bool.

(** What a call of [startTSLint] does to the registry. *)
Lemma startTSLint_effect (tslintOptions : TSLintOptions) (diag : bool)
    (config : Config) (r : Registry) :
  match snd (startTSLint getTSConfigFileForConfig dirname colors
               tslintOptions diag config r) with
  | inr (Some p, false) =>
      p = length (started r) /\
      tslintProcessCache r !! cacheKey getTSConfigFileForConfig config = None /\
      (exists options,
         started (fst (startTSLint getTSConfigFileForConfig dirname colors
                         tslintOptions diag config r)) = started r ++ [options]) /\
      tslintProcessCache (fst (startTSLint getTSConfigFileForConfig dirname colors
                                 tslintOptions diag config r))
        = <[cacheKey getTSConfigFileForConfig config := p]> (tslintProcessCache r)
  | _ =>
      started (fst (startTSLint getTSConfigFileForConfig dirname colors
                      tslintOptions diag config r)) = started r /\
      tslintProcessCache (fst (startTSLint getTSConfigFileForConfig dirname colors
                                 tslintOptions diag config r))
        = tslintProcessCache r
  end.
Proof.
  unfold startTSLint. destruct (disabled tslintOptions); [simpl; auto|].
  destruct (tsrules config); simpl;
    destruct (tslintProcessCache r !! cacheKey getTSConfigFileForConfig config) eqn:Hc;
    simpl; auto;
    destruct (makeOptions getTSConfigFileForConfig dirname colors tslintOptions diag config);
    simpl; eauto 10.
Qed.

(** X26. [startTSLint] starts a process exactly when it returns one with
    [reused = false]: then one process is appended and cached under the
    request's key.  In every other case - a disabled request, a shared
    process, an exception while the options are built - no process is
    started and the cache is left as it was. *)
Theorem startTSLint_starts_iff_fresh (tslintOptions : TSLintOptions) (diag : bool)
    (config : Config) (r : Registry) :
  match snd (startTSLint getTSConfigFileForConfig dirname colors
               tslintOptions diag config r) with
  | inr (Some p, false) =>
      p = length (started r) /\
      tslintProcessCache r !! cacheKey getTSConfigFileForConfig config = None /\
      (exists options,
         started (fst (startTSLint getTSConfigFileForConfig dirname colors
                         tslintOptions diag config r)) = started r ++ [options]) /\
      tslintProcessCache (fst (startTSLint getTSConfigFileForConfig dirname colors
                                 tslintOptions diag config r))
        = <[cacheKey getTSConfigFileForConfig config := p]> (tslintProcessCache r)
  | _ =>
      started (fst (startTSLint getTSConfigFileForConfig dirname colors
                      tslintOptions diag config r)) = started r /\
      tslintProcessCache (fst (startTSLint getTSConfigFileForConfig dirname colors
                                 tslintOptions diag config r))
        = tslintProcessCache r
  end.
Proof. exact (startTSLint_effect tslintOptions diag config r). Qed.

(** A registry is coherent when every cached handle is a started process,
    no process is cached under two keys, and there are as many processes
    as keys. *)
Definition coherent (r : Registry) : Prop :=
  (forall key p, tslintProcessCache r !! key = Some p -> p < length (started r)) /\
  (forall key key' p, tslintProcessCache r !! key = Some p ->
                      tslintProcessCache r !! key' = Some p -> key = key') /\
  size (tslintProcessCache r) = length (started r).

(** A request, as [build1] issues it. *)
Record Request := {
  req_options : TSLintOptions;
  req_diag : bool;
  req_config : Config;
}.

Definition serve (r : Registry) (q : Request) : Registry :=
  fst (startTSLint getTSConfigFileForConfig dirname colors
         (req_options q) (req_diag q) (req_config q) r).

Lemma serve_coherent r q : coherent r -> coherent (serve r q).
Proof.
  intros (Hlt & Hinj & Hsz). unfold serve.
  pose proof (startTSLint_effect (req_options q) (req_diag q)
                (req_config q) r) as H.
  destruct (startTSLint getTSConfigFileForConfig dirname colors
              (req_options q) (req_diag q) (req_config q) r) as [r' res].
  simpl in *.
  assert (Hsame : started r' = started r /\ tslintProcessCache r' = tslintProcessCache r ->
                  coherent r').
  { intros [Hs Hc]. unfold coherent. rewrite Hs, Hc. auto. }
  destruct res as [e|[[p|] [|]]]; try (apply Hsame; exact H).
  destruct H as (-> & Hnone & [options Hst] & Hc).
  unfold coherent. rewrite Hst, Hc, length_app. simpl.
  split; [|split].
  - intros key p. rewrite lookup_insert.
    destruct (decide (cacheKey getTSConfigFileForConfig (req_config q) = key)).
    + intros [= <-]. lia.
    + intros Hp. apply Hlt in Hp. lia.
  - intros key key' p. rewrite !lookup_insert.
    destruct (decide (cacheKey getTSConfigFileForConfig (req_config q) = key));
      destruct (decide (cacheKey getTSConfigFileForConfig (req_config q) = key')).
    + congruence.
    + intros [= <-] Hp. apply Hlt in Hp. lia.
    + intros Hp [= <-]. apply Hlt in Hp. lia.
    + apply Hinj.
  - rewrite map_size_insert_None by exact Hnone. lia.
Qed.

(** X27. Over any sequence of requests, starting from an empty cache, the
    registry stays coherent: every cached handle is a process that was
    really started, no two keys share a process, and the number of
    processes started is the number of keys cached - never more than the
    number of requests. *)
Theorem registry_stays_coherent (requests : list Request) :
  coherent (fold_left serve requests
              {| tslintProcessCache := ∅; started := []; messages := [] |}) /\
  length (started (fold_left serve requests
                     {| tslintProcessCache := ∅; started := []; messages := [] |}))
    <= length requests.
Proof.
  assert (H : forall reqs r, coherent r ->
            coherent (fold_left serve reqs r) /\
            length (started (fold_left serve reqs r)) <= length (started r) + length reqs).
  { induction reqs as [|q reqs IH]; intros r Hr; simpl; [split; [exact Hr|lia]|].
    destruct (IH (serve r q) (serve_coherent r q Hr)) as [Hc Hl].
    split; [exact Hc|].
    assert (Hstep : length (started (serve r q)) <= S (length (started r))).
    { unfold serve.
      pose proof (startTSLint_effect (req_options q) (req_diag q)
                    (req_config q) r) as H.
      destruct (startTSLint getTSConfigFileForConfig dirname colors
                  (req_options q) (req_diag q) (req_config q) r) as [r' res].
      simpl in *.
      destruct res as [e|[[p|] [|]]]; try (destruct H as [-> _]; lia).
      destruct H as (_ & _ & [options ->] & _). rewrite length_app. simpl. lia. }
    lia. }
  apply H. unfold coherent. simpl. split; [|split].
  - intros key p. rewrite lookup_empty. discriminate.
  - intros key key' p. rewrite lookup_empty. discriminate.
  - apply map_size_empty.
Qed.

End RegistryInvariant.

End TSLint.

(** ** Options for the bundler: [esbuildOptionsFromConfig] and lines 525-550 of [build1] *)

Module Options.

(** The generated type information that follows the program text:
    [typeinfo.esbuild.BuildOptions] and [typeinfo.estrella.BuildConfig]. *)
Definition esbuild_BuildOptions : list string :=
  [ "sourcemap"; "legalComments"; "sourceRoot"; "sourcesContent"; "format";
    "globalName"; "target"; "drop"; "minify"; "minifyWhitespace";
    "minifyIdentifiers"; "minifySyntax"; "charset"; "treeShaking";
    "ignoreAnnotations"; "jsx"; "jsxFactory"; "jsxFragment"; "define"; "pure";
    "keepNames"; "color"; "logLevel"; "logLimit"; "bundle"; "splitting";
    "preserveSymlinks"; "outfile"; "metafile"; "outdir"; "outbase"; "platform";
    "external"; "loader"; "resolveExtensions"; "mainFields"; "conditions";
    "write"; "allowOverwrite"; "tsconfig"; "outExtension"; "publicPath";
    "entryNames"; "chunkNames"; "assetNames"; "inject"; "banner"; "footer";
    "incremental"; "entryPoints"; "stdin"; "plugins"; "absWorkingDir";
    "nodePaths"; "watch" ].

Definition estrella_BuildConfig : list string :=
  [ "entry"; "debug"; "watch"; "cwd"; "quiet"; "silent"; "clear"; "tslint";
    "onStart"; "onEnd"; "outfileMode"; "run"; "tsc"; "tsrules"; "title" ].

(** [set.has(k)] *)
Definition has (set : list string) (k : string) : bool := existsb (String.eqb k) set.

#[local] Arguments has : simpl never.

(** A configuration object: its own enumerable properties in the order of
    [Object.keys]. *)
Definition Object : Type := list (string * Js.Value).

(** The string an inherited property converts to: the text of a native
    function, and [[object Object]] for the prototype object that the
    accessor [__proto__] returns. *)
Definition inheritedText (k : string) : string :=
  if String.eqb k "__proto__" then "[object Object]"
  else "function " ++ (if String.eqb k "constructor" then "Object" else k)
       ++ "() { [native code] }".

(** An own property of an object. *)
Fixpoint own (o : Object) (k : string) : option Js.Value :=
  match o with
  | [] => None
  | (k0, v0) :: rest => if String.eqb k0 k then Some v0 else own rest k
  end.

(** [o[k]] for a plain object: the own property, else the inherited one,
    else [undefined]. *)
Definition prop (o : Object) (k : string) : Js.Value :=
  match own o k with
  | Some v => v
  | None => if has Js.Object_prototype k then Js.Obj 0 (Some (inheritedText k))
            else Js.Undefined
  end.

(** The property name that [k = esbuildOptionKeyMap[k] || k] stands for
    (line 224).  [esbuildOptionKeyMap] is the object literal
    [{ name: "globalName" }]: besides [name] the lookup finds the
    properties the literal inherits, and their values - functions, an
    object - are truthy and become the key. *)
Definition renamed (k : string) : string :=
  if String.eqb k "name" then "globalName"
  else if has Js.Object_prototype k then inheritedText k
  else k.

(** The function's two accumulators. *)
Record Acc := {
  esbuildOptions : gmap string Js.Value;
  unknownOptions : gmap string Js.Value;
}.

(** One turn of the loop of lines 216-226, for the own property [k] of
    [config] with value [v].  Line 222 reads [config[k]] before the
    renaming, line 225 after it: the value stored under the new name is
    the configuration's property of the NEW name.  An assignment to
    [unknownOptions["__proto__"]] runs the inherited setter and adds no
    property. *)
Definition visit (config : Object) (acc : Acc) (kv : string * Js.Value) : Acc :=
  let '(k, v) := kv in
  if has estrella_BuildConfig k then acc
  else
    {| esbuildOptions := <[renamed k := prop config (renamed k)]> (esbuildOptions acc);
       unknownOptions := if has esbuild_BuildOptions k then unknownOptions acc
                         else if String.eqb k "__proto__" then unknownOptions acc
                         else <[k := v]> (unknownOptions acc) |}.

(** [esbuildOptionsFromConfig(config)]: the options, the options it does
    not know, and whether the notice of lines 228-233 is logged. *)
Definition esbuildOptionsFromConfig (config : Object)
  : gmap string Js.Value * gmap string Js.Value * bool :=
  let acc := fold_left (visit config) config
                       {| esbuildOptions := ∅; unknownOptions := ∅ |} in
  (esbuildOptions acc, unknownOptions acc,
   negb (Nat.eqb (length (map_to_list (unknownOptions acc)).*1) 0)).

Lemma has_In set k : has set k = true <-> In k set.
Proof.
  unfold has. rewrite existsb_exists. split.
  - intros [x [Hin Heq]]. apply String.eqb_eq in Heq. now subst.
  - intros Hin. exists k. split; [exact Hin|apply String.eqb_refl].
Qed.

Lemma has_false set k : has set k = false <-> ~ In k set.
Proof. rewrite <- has_In. destruct (has set k); split; congruence. Qed.

(** The text of an inherited property is no option name and no
    inherited name. *)
Lemma inheritedText_fresh k :
  has Js.Object_prototype k = true ->
  has estrella_BuildConfig (inheritedText k) = false /\
  has Js.Object_prototype (inheritedText k) = false /\
  inheritedText k <> "name"%string /\ inheritedText k <> "globalName"%string /\
  inheritedText k <> k.
Proof.
  intros Hk. apply has_In in Hk. simpl in Hk.
  repeat (destruct Hk as [<-|Hk]; [vm_compute; repeat split; discriminate|]).
  destruct Hk.
Qed.

Lemma renamed_not_estrella k :
  has estrella_BuildConfig k = false -> has estrella_BuildConfig (renamed k) = false.
Proof.
  unfold renamed. destruct (String.eqb k "name"); [reflexivity|].
  destruct (has Js.Object_prototype k) eqn:Hp; [|auto].
  intros _. now apply inheritedText_fresh.
Qed.

Lemma renamed_not_name k : renamed k <> "name"%string.
Proof.
  unfold renamed. destruct (String.eqb_spec k "name"); [discriminate|].
  destruct (has Js.Object_prototype k) eqn:Hp; [|assumption].
  now apply inheritedText_fresh.
Qed.

Lemma renamed_ordinary k :
  k <> "name"%string -> has Js.Object_prototype k = false -> renamed k = k.
Proof.
  intros Hn Hp. unfold renamed. rewrite Hp.
  destruct (String.eqb_spec k "name"); [contradiction|reflexivity].
Qed.

Lemma fold_visit_estrella config cfg : forall acc k,
  has estrella_BuildConfig k = true ->
  esbuildOptions acc !! k = None ->
  esbuildOptions (fold_left (visit config) cfg acc) !! k = None.
Proof.
  induction cfg as [|[k0 v0] cfg IH]; intros acc k Hk Hacc; [exact Hacc|].
  simpl. apply IH; [exact Hk|].
  destruct (has estrella_BuildConfig k0) eqn:Hk0; [exact Hacc|].
  simpl. rewrite lookup_insert_ne; [exact Hacc|].
  intros Heq. apply renamed_not_estrella in Hk0. congruence.
Qed.

(** X9. No option of estrella's own ([entry], [watch], [cwd], [onStart],
    [onEnd], [tslint], ...) is ever passed on to the bundler, whatever the
    configuration holds; in particular the bundler's own [watch] option
    is never set from the configuration. *)
Theorem estrella_options_not_forwarded (config : Object) (k : string) :
  (In k estrella_BuildConfig ->
   (esbuildOptionsFromConfig config).1.1 !! k = None /\
   (esbuildOptionsFromConfig config).1.2 !! k = None) /\
  (esbuildOptionsFromConfig config).1.1 !! "watch" = None.
Proof.
  assert (Hunk : forall cfg acc k', has estrella_BuildConfig k' = true ->
            unknownOptions acc !! k' = None ->
            unknownOptions (fold_left (visit config) cfg acc) !! k' = None).
  { induction cfg as [|[k0 v0] cfg IH]; intros acc k' Hk Hacc; [exact Hacc|].
    simpl. apply IH; [exact Hk|].
    destruct (has estrella_BuildConfig k0) eqn:Hk0; [exact Hacc|]. simpl.
    destruct (has esbuild_BuildOptions k0); [exact Hacc|].
    destruct (String.eqb k0 "__proto__"); [exact Hacc|].
    rewrite lookup_insert_ne; [exact Hacc|]. congruence. }
  split.
  - intros Hin. apply has_In in Hin. unfold esbuildOptionsFromConfig. simpl. split.
    + apply fold_visit_estrella; [exact Hin|reflexivity].
    + apply Hunk; [exact Hin|reflexivity].
  - unfold esbuildOptionsFromConfig. simpl.
    apply fold_visit_estrella; reflexivity.
Qed.

(** Whatever the loop stores under a name is the configuration's property
    of that name. *)
Lemma fold_visit_value config cfg : forall acc k',
  (forall v, esbuildOptions acc !! k' = Some v -> v = prop config k') ->
  forall v, esbuildOptions (fold_left (visit config) cfg acc) !! k' = Some v ->
            v = prop config k'.
Proof.
  induction cfg as [|[k0 v0] cfg IH]; intros acc k' Hacc; [exact Hacc|].
  simpl. apply IH.
  destruct (has estrella_BuildConfig k0); [exact Hacc|]. simpl.
  intros v. destruct (String.eqb_spec (renamed k0) k') as [<-|Hne].
  - rewrite lookup_insert_eq. congruence.
  - rewrite lookup_insert_ne by exact Hne. apply Hacc.
Qed.

(** A property that is not estrella's own leaves a property under its new
    name. *)
Lemma fold_visit_present config cfg : forall acc k,
  (In k (map fst cfg) /\ has estrella_BuildConfig k = false) \/
  is_Some (esbuildOptions acc !! renamed k) ->
  is_Some (esbuildOptions (fold_left (visit config) cfg acc) !! renamed k).
Proof.
  induction cfg as [|[k0 v0] cfg IH]; intros acc k H.
  - destruct H as [[[] _]|H]. exact H.
  - simpl. apply IH.
    destruct (has estrella_BuildConfig k0) eqn:Hk0.
    + destruct H as [[[Heq|Hin] Hk]|H];
        [simpl in Heq; subst; congruence|left; auto|right; exact H].
    + simpl. destruct (String.eqb_spec (renamed k0) (renamed k)) as [->|Hne].
      * right. rewrite lookup_insert_eq. eauto.
      * rewrite lookup_insert_ne by exact Hne.
        destruct H as [[[Heq|Hin] Hk]|H];
          [simpl in Heq; subst; congruence|left; auto|right; exact H].
Qed.

Lemma own_In o k v : NoDup (map fst o) -> In (k, v) o -> own o k = Some v.
Proof.
  induction o as [|[k0 v0] o IH]; intros Hnd Hin; [destruct Hin|].
  simpl in *. inversion Hnd as [|? ? Hnotin Hnd']; subst.
  destruct Hin as [Heq|Hin].
  - injection Heq as -> ->. now rewrite String.eqb_refl.
  - destruct (String.eqb_spec k0 k) as [->|Hne]; [|now apply IH].
    exfalso. apply Hnotin. apply list_elem_of_In. apply in_map_iff.
    exists (k, v). auto.
Qed.

(** X10. Every property of the configuration that is not one of
    estrella's own makes the options for the bundler hold a property
    under its new name, and the value of that property is read from the
    configuration under the NEW name.  So an ordinary property reaches
    the bundler with its value; the legacy [name] does not: [globalName]
    is set to the configuration's own [globalName] - [undefined] when it
    has none - and the value given as [name] is dropped; no property
    [name] is passed on. *)
Theorem other_options_forwarded (config : Object) (k : string) (v : Js.Value) :
  NoDup (map fst config) ->
  In (k, v) config ->
  has estrella_BuildConfig k = false ->
  (esbuildOptionsFromConfig config).1.1 !! renamed k = Some (prop config (renamed k)) /\
  (k <> "name" -> has Js.Object_prototype k = false ->
   (esbuildOptionsFromConfig config).1.1 !! k = Some v) /\
  (k = "name" ->
   (esbuildOptionsFromConfig config).1.1 !! "globalName"
     = Some (default Js.Undefined (own config "globalName")) /\
   (esbuildOptionsFromConfig config).1.1 !! "name" = None).
Proof.
  intros Hnd Hin Hk. unfold esbuildOptionsFromConfig. cbn [fst snd].
  set (init := {| esbuildOptions := ∅; unknownOptions := ∅ |}).
  assert (Hnew : esbuildOptions (fold_left (visit config) config init) !! renamed k
                 = Some (prop config (renamed k))).
  { destruct (fold_visit_present config config init k) as [x Hx].
    - left. split; [|exact Hk]. apply in_map_iff. exists (k, v). auto.
    - rewrite Hx. f_equal.
      apply (fold_visit_value config config init (renamed k)); [|exact Hx].
      intros v0. unfold init. cbn [esbuildOptions]. rewrite lookup_empty. discriminate. }
  split; [exact Hnew|]. split.
  - intros Hn Hp. rewrite (renamed_ordinary k Hn Hp) in Hnew. rewrite Hnew.
    unfold prop. now rewrite (own_In config k v Hnd Hin).
  - intros ->. split.
    + change (renamed "name") with "globalName"%string in Hnew. rewrite Hnew.
      unfold prop. destruct (own config "globalName"); reflexivity.
    + assert (Hnone : forall cfg acc, esbuildOptions acc !! "name" = None ->
                esbuildOptions (fold_left (visit config) cfg acc) !! "name" = None).
      { induction cfg as [|[k1 v1] cfg IHc]; intros acc Hacc; [exact Hacc|].
        simpl. apply IHc. destruct (has estrella_BuildConfig k1); [exact Hacc|].
        simpl. rewrite lookup_insert_ne; [exact Hacc|]. apply renamed_not_name. }
      apply Hnone. reflexivity.
Qed.

Lemma fold_visit_unknown config cfg : forall acc k,
  is_Some (unknownOptions (fold_left (visit config) cfg acc) !! k) <->
  is_Some (unknownOptions acc !! k) \/
  (In k (map fst cfg) /\ has estrella_BuildConfig k = false /\
   has esbuild_BuildOptions k = false /\ k <> "__proto__"%string).
Proof.
  induction cfg as [|[k0 v0] cfg IH]; intros acc k; simpl.
  - split; [auto|]. intros [H|[[] _]]. exact H.
  - rewrite IH. clear IH.
    destruct (has estrella_BuildConfig k0) eqn:Hk0.
    + split; [tauto|]. intros [H|[[<-|Hin] [He Hb]]]; [tauto|congruence|tauto].
    + simpl. destruct (has esbuild_BuildOptions k0) eqn:Hb0.
      * split; [tauto|].
        intros [H|[[<-|Hin] (He & Hb & Hp)]]; [tauto|congruence|tauto].
      * destruct (String.eqb_spec k0 "__proto__") as [->|Hproto].
        -- split; [tauto|].
           intros [H|[[<-|Hin] (He & Hb & Hp)]]; [tauto|congruence|tauto].
        -- destruct (String.eqb_spec k0 k) as [->|Hne].
           ++ rewrite lookup_insert_eq. split; [|eauto]. intros _. right. auto.
           ++ rewrite lookup_insert_ne by exact Hne.
              split; [tauto|].
              intros [H|[[Heq|Hin] Hrest]]; [tauto|congruence|tauto].
Qed.

(** X11. The notice about potentially invalid options is logged exactly
    when the configuration has a property that is neither estrella's nor
    in the list of the bundler's options (nor named [__proto__], whose
    assignment adds no property), and it names exactly those.  The legacy
    [name] is among them: it is translated to [globalName] and reported
    all the same. *)
Theorem unknown_options_reported (config : Object) (k : string) :
  (is_Some ((esbuildOptionsFromConfig config).1.2 !! k) <->
   In k (map fst config) /\ ~ In k estrella_BuildConfig /\
   ~ In k esbuild_BuildOptions /\ k <> "__proto__") /\
  ((esbuildOptionsFromConfig config).2 = true <->
   exists k', In k' (map fst config) /\ ~ In k' estrella_BuildConfig /\
              ~ In k' esbuild_BuildOptions /\ k' <> "__proto__") /\
  (In "name" (map fst config) ->
   is_Some ((esbuildOptionsFromConfig config).1.2 !! "name")).
Proof.
  assert (Hk : forall x, is_Some ((esbuildOptionsFromConfig config).1.2 !! x) <->
            In x (map fst config) /\ ~ In x estrella_BuildConfig /\
            ~ In x esbuild_BuildOptions /\ x <> "__proto__"%string).
  { intros x. unfold esbuildOptionsFromConfig. cbn [fst snd].
    rewrite fold_visit_unknown. cbn [unknownOptions]. rewrite lookup_empty, !has_false.
    split; [|tauto]. intros [[? H]|H]; [discriminate|exact H]. }
  split; [apply Hk|]. split.
  - unfold esbuildOptionsFromConfig at 1. cbn [snd].
    rewrite negb_true_iff, Nat.eqb_neq, length_fmap, length_map_to_list.
    split.
    + intros Hsz.
      destruct (map_to_list (unknownOptions
                  (fold_left (visit config) config
                     {| esbuildOptions := ∅; unknownOptions := ∅ |})))
        as [|[k' v'] l] eqn:Hl.
      * apply map_to_list_empty_iff in Hl. rewrite Hl in Hsz.
        rewrite map_size_empty in Hsz. congruence.
      * exists k'. apply Hk. unfold esbuildOptionsFromConfig. simpl.
        exists v'. apply elem_of_map_to_list. rewrite Hl. left.
    + intros [k' Hk']. apply Hk in Hk'. destruct Hk' as [v' Hv'].
      unfold esbuildOptionsFromConfig in Hv'. simpl in Hv'.
      intros Hsz. apply map_size_empty_iff in Hsz. rewrite Hsz in Hv'.
      rewrite lookup_empty in Hv'. discriminate.
  - intros Hin. apply Hk. split; [exact Hin|].
    split; [|split]; try discriminate;
      intros Hn; apply has_In in Hn; vm_compute in Hn; discriminate.
Qed.

(** An own property named [__proto__] (as [JSON.parse] creates one) is
    neither estrella's nor the bundler's, and is not reported: the
    assignment to [unknownOptions] runs the inherited setter, and the
    options get [undefined] under the text of the prototype object. *)
Example proto_option_not_reported :
  (esbuildOptionsFromConfig [("__proto__", Js.Num 1)]).2 = false /\
  (esbuildOptionsFromConfig [("__proto__", Js.Num 1)]).1.2 !! "__proto__" = None /\
  (esbuildOptionsFromConfig [("__proto__", Js.Num 1)]).1.1 !! "[object Object]"
    = Some Js.Undefined.
Proof. repeat split; vm_compute; reflexivity. Qed.

Definition config_legacy : Object :=
  [ ("entry", Js.Str "main.ts"); ("name", Js.Str "app"); ("bundle", Js.Bool true);
    ("watch", Js.Bool true) ].

Lemma other_options_forwarded_witness :
  (esbuildOptionsFromConfig config_legacy).1.1 !! "globalName" = Some Js.Undefined /\
  (esbuildOptionsFromConfig config_legacy).1.1 !! "name" = None /\
  (esbuildOptionsFromConfig config_legacy).1.1 !! "bundle" = Some (Js.Bool true).
Proof.
  assert (Hnd : NoDup (map fst config_legacy))
    by (apply (bool_decide_unpack _); vm_compute; exact I).
  destruct (other_options_forwarded config_legacy "name" (Js.Str "app") Hnd)
    as (_ & _ & H); [simpl; auto|reflexivity|].
  destruct (other_options_forwarded config_legacy "bundle" (Js.Bool true) Hnd)
    as (_ & Hb & _); [simpl; auto|reflexivity|].
  destruct (H eq_refl) as [H1 H2].
  split; [exact H1|]. split; [exact H2|].
  apply Hb; [discriminate|reflexivity].
Defined.

(** *** The options object of [build1], lines 525-550 *)

Section BundlerOptions.

(** [os.tmpdir()] and [Path.join]. *)
Variable tmpdir : string.
Variable Path_join : string -> string -> string.

(** Truthiness of a property that may be missing. *)
Definition prop_truthy (o : gmap string Js.Value) (k : string) : bool :=
  match o !! k with
  | Some v => Js.truthy v
  | None => false
  end.

(** [{ minify: !debug, sourcemap: config.sourcemap, color, ...fromConfig, define }] *)
Definition spreadOptions (debug : bool) (sourcemap : Js.Value) (color : bool)
    (define : Js.Value) (fromConfig : gmap string Js.Value) : gmap string Js.Value :=
  <["define" := define]>
    (fromConfig ∪ <["minify" := Js.Bool (negb debug)]>
                    (<["sourcemap" := sourcemap]> {["color" := Js.Bool color]})).

(** Lines 538-550, for a truthy [config.watch]. *)
Definition forWatch (projectID : string) (o : gmap string Js.Value)
  : gmap string Js.Value :=
  let o :=
    if (negb (prop_truthy o "outfile") && negb (prop_truthy o "outdir"))
       || bool_decide (o !! "write" = Some (Js.Bool false))
    then delete "write"
           (<["outfile" := Js.Str (Path_join tmpdir ("esbuild." ++ projectID ++ ".out.js"))]> o)
    else o in
  <["metafile" := Js.Str (Path_join tmpdir ("esbuild." ++ projectID ++ ".meta.json"))]> o.

(** X12. In watch mode the options handed to the bundler always name a
    metadata file qualified by the project identity, always have an
    output file or directory, and never keep [write: false]; no other
    option is touched. *)
Theorem forWatch_can_write_metafile (projectID : string) (o : gmap string Js.Value) :
  (forall a b, Path_join a b <> "") ->
  forWatch projectID o !! "metafile"
    = Some (Js.Str (Path_join tmpdir ("esbuild." ++ projectID ++ ".meta.json"))) /\
  prop_truthy (forWatch projectID o) "outfile"
    || prop_truthy (forWatch projectID o) "outdir" = true /\
  forWatch projectID o !! "write" <> Some (Js.Bool false) /\
  (forall k, k <> "metafile" -> k <> "outfile" -> k <> "write" ->
             forWatch projectID o !! k = o !! k).
Proof.
  intros Hjoin. unfold forWatch.
  set (out := Js.Str (Path_join tmpdir ("esbuild." ++ projectID ++ ".out.js"))).
  assert (Hout : Js.truthy out = true).
  { unfold out. simpl. apply negb_true_iff. apply String.eqb_neq. apply Hjoin. }
  split; [apply lookup_insert_eq|].
  destruct (negb (prop_truthy o "outfile") && negb (prop_truthy o "outdir")
            || bool_decide (o !! "write" = Some (Js.Bool false))) eqn:Hcond.
  - split; [|split].
    + unfold prop_truthy at 1.
      rewrite lookup_insert_ne by discriminate.
      rewrite lookup_delete_ne by discriminate.
      rewrite lookup_insert_eq. now rewrite Hout.
    + rewrite lookup_insert_ne by discriminate. rewrite lookup_delete_eq. discriminate.
    + intros k Hm Ho Hw. rewrite lookup_insert_ne by congruence.
      rewrite lookup_delete_ne by congruence. now rewrite lookup_insert_ne by congruence.
  - apply orb_false_iff in Hcond. destruct Hcond as [Hdirs Hwrite].
    apply bool_decide_eq_false in Hwrite.
    split; [|split].
    + unfold prop_truthy. rewrite !lookup_insert_ne by discriminate.
      unfold prop_truthy in Hdirs.
      destruct (match o !! "outfile" with Some v => Js.truthy v | None => false end);
        [reflexivity|].
      destruct (match o !! "outdir" with Some v => Js.truthy v | None => false end);
        [reflexivity|discriminate].
    + rewrite lookup_insert_ne by discriminate. exact Hwrite.
    + intros k Hm Ho Hw. now rewrite lookup_insert_ne by congruence.
Qed.

End BundlerOptions.

Lemma forWatch_can_write_metafile_witness :
  forWatch "/tmp" (fun a b => a ++ "/" ++ b)%string "1hxsnbzu"
    {[ "write" := Js.Bool false; "outdir" := Js.Str "dist" ]} !! "write"
  <> Some (Js.Bool false).
Proof.
  apply (forWatch_can_write_metafile "/tmp" (fun a b => a ++ "/" ++ b)%string "1hxsnbzu"
           {[ "write" := Js.Bool false; "outdir" := Js.Str "dist" ]}).
  intros a b. destruct a; discriminate.
Defined.

Lemma estrella_options_not_forwarded_witness :
  (esbuildOptionsFromConfig [("watch", Js.Bool true); ("minify", Js.Bool true)]).1.1
    !! "watch" = None.
Proof.
  destruct (estrella_options_not_forwarded
              [("watch", Js.Bool true); ("minify", Js.Bool true)] "watch") as [H _].
  apply H. apply (bool_decide_unpack _). vm_compute. exact I.
Defined.

Lemma unknown_options_reported_witness :
  is_Some ((esbuildOptionsFromConfig [("name", Js.Str "app")]).1.2 !! "name").
Proof.
  destruct (unknown_options_reported [("name", Js.Str "app")] "name") as (_ & _ & H).
  apply H. simpl. auto.
Defined.

End Options.

(** ** The watcher registry: [watchFiles] and [fswatcherMap] *)

Module Watchers.

(** An [FSWatcher] as [watchFiles] sets it up: its base directory, the
    build whose callback its [onChange] calls, whether its [onStart]
    announces "Watching files for changes...", the cleanup function
    [() => { fswatcher.promise.cancel() }], and the state [refreshFiles]
    works on. *)
Record FSWatcher := {
  basedir : string;
  onChange : nat;
  onStart : bool;
  canceler : Build.Cleanup;
  watched : Watch.Watcher;
}.

Definition set_watched (w : Watch.Watcher) (fsw : FSWatcher) : FSWatcher :=
  {| basedir := basedir fsw; onChange := onChange fsw; onStart := onStart fsw;
     canceler := canceler fsw; watched := w |}.

Definition set_onStart (b : bool) (fsw : FSWatcher) : FSWatcher :=
  {| basedir := basedir fsw; onChange := onChange fsw; onStart := b;
     canceler := canceler fsw; watched := watched fsw |}.

Section WatchFiles.

Variable sep : string.
Variable contains : option (string -> string -> bool).

(** [FSWatcher] is defined outside this file: whether
    [fswatcher.promise.cancel()] throws is a parameter. *)
Variable promise_cancel_throws : option Js.Exn.

(** [await refreshFiles()] for the watcher of the project. *)
Definition refresh (projectID : string) (esbuildMeta : option Watch.Meta)
    (fswatcher : FSWatcher) (fswatcherMap : gmap string FSWatcher)
  : gmap string FSWatcher * (Js.Exn + unit) :=
  let '(w, r) := Watch.refreshFiles sep contains esbuildMeta (watched fswatcher) in
  (<[projectID := set_watched w fswatcher]> fswatcherMap, r).

(** [watchFiles(config, esbuildMetafile, ctx, callback)] up to
    [return fswatcher.promise], for the build numbered [build] with handle
    [h]; [fswatcherMap] maps project identities to watchers. *)
Definition watchFiles (projectID cwd : string) (build : nat)
    (esbuildMeta : option Watch.Meta)
    (fswatcherMap : gmap string FSWatcher) (h : Build.Handle)
  : gmap string FSWatcher * Build.Handle * (Js.Exn + unit) :=
  match fswatcherMap !! projectID with
  | Some fswatcher =>
      let '(fswatcherMap, r) := refresh projectID esbuildMeta fswatcher fswatcherMap in
      (fswatcherMap, h, r)
  | None =>
      let fswatcher :=
        {| basedir := cwd; onChange := build; onStart := false;
           canceler := {| Build.fn_id := size fswatcherMap;
                          Build.fn_throws := promise_cancel_throws |};
           watched := Watch.watching [] |} in
      let fswatcherMap := <[projectID := fswatcher]> fswatcherMap in
      match Build.addCancelCallback (Some (canceler fswatcher)) h with
      | (h, inl e) => (fswatcherMap, h, inl e)
      | (h, inr _) =>
          (* the first watcher of the process announces itself *)
          let fswatcher := if Nat.eqb (size fswatcherMap) 1
                           then set_onStart true fswatcher else fswatcher in
          let '(fswatcherMap, r) :=
            refresh projectID esbuildMeta fswatcher
              (<[projectID := fswatcher]> fswatcherMap) in
          (fswatcherMap, h, r)
      end
  end.

(** X25. Watchers are shared by project identity.  The first [watchFiles]
    for an identity creates its watcher, bound to that build's directory
    and rebuild callback, and registers its cancellation with that build.
    A later [watchFiles] for the same identity creates nothing and leaves
    its own build's handle untouched: the watcher keeps calling the first
    build's callback, and canceling the later build does not stop it. *)
Theorem watcher_shared_by_identity (projectID cwd cwd' : string) (build build' : nat)
    (meta meta' : option Watch.Meta) (fswatcherMap : gmap string FSWatcher)
    (h h' : Build.Handle) :
  fswatcherMap !! projectID = None ->
  Build.CANCELED h = false ->
  exists fsw fsw',
    (watchFiles projectID cwd build meta fswatcherMap h).1.1 !! projectID = Some fsw /\
    size (watchFiles projectID cwd build meta fswatcherMap h).1.1 = S (size fswatcherMap) /\
    Build.cancelCallbacks (watchFiles projectID cwd build meta fswatcherMap h).1.2
      = Build.cancelCallbacks h ++ [Some (canceler fsw)] /\
    basedir fsw = cwd /\ onChange fsw = build /\
    onStart fsw = Nat.eqb (size fswatcherMap) 0 /\
    (watchFiles projectID cwd' build' meta'
       (watchFiles projectID cwd build meta fswatcherMap h).1.1 h').1.1 !! projectID
      = Some fsw' /\
    size (watchFiles projectID cwd' build' meta'
            (watchFiles projectID cwd build meta fswatcherMap h).1.1 h').1.1
      = S (size fswatcherMap) /\
    (watchFiles projectID cwd' build' meta'
       (watchFiles projectID cwd build meta fswatcherMap h).1.1 h').1.2 = h' /\
    basedir fsw' = cwd /\ onChange fsw' = build /\ canceler fsw' = canceler fsw.
Proof.
  intros Hnone Hlive.
  assert (Hfirst : exists fsw,
    (watchFiles projectID cwd build meta fswatcherMap h).1.1 !! projectID = Some fsw /\
    size (watchFiles projectID cwd build meta fswatcherMap h).1.1 = S (size fswatcherMap) /\
    Build.cancelCallbacks (watchFiles projectID cwd build meta fswatcherMap h).1.2
      = Build.cancelCallbacks h ++ [Some (canceler fsw)] /\
    basedir fsw = cwd /\ onChange fsw = build /\
    onStart fsw = Nat.eqb (size fswatcherMap) 0).
  { unfold watchFiles, refresh. rewrite Hnone. cbv zeta.
    rewrite Build.addCancelCallback_live by exact Hlive.
    rewrite map_size_insert_None by exact Hnone.
    destruct (Watch.refreshFiles sep contains meta _) as [w r]. cbn [fst snd].
    eexists. split; [apply lookup_insert_eq|].
    rewrite !insert_insert_eq.
    rewrite map_size_insert_None by exact Hnone.
    destruct (size fswatcherMap) as [|n]; repeat split; reflexivity. }
  destruct Hfirst as (fsw & Hl & Hsz & Hcb & Hbd & Hoc & Hos).
  assert (Hsecond : forall m, m !! projectID = Some fsw ->
    exists fsw',
      (watchFiles projectID cwd' build' meta' m h').1.1 !! projectID = Some fsw' /\
      size (watchFiles projectID cwd' build' meta' m h').1.1 = size m /\
      (watchFiles projectID cwd' build' meta' m h').1.2 = h' /\
      basedir fsw' = basedir fsw /\ onChange fsw' = onChange fsw /\
      canceler fsw' = canceler fsw).
  { intros m Hm. unfold watchFiles, refresh. rewrite Hm.
    destruct (Watch.refreshFiles sep contains meta' _) as [w r]. cbn [fst snd].
    eexists. split; [apply lookup_insert_eq|].
    split; [|repeat split; reflexivity].
    apply map_size_insert_Some. eauto. }
  destruct (Hsecond _ Hl) as (fsw' & Hl' & Hsz' & Hh' & Hbd' & Hoc' & Hcn').
  exists fsw, fsw'. repeat split; try assumption; congruence.
Qed.

End WatchFiles.

Lemma watcher_shared_by_identity_witness :
  (watchFiles "/" Watch.String_prototype_contains None "1hxsnbzu" "/elsewhere" 2
     (Some (Watch.project 3))
     (watchFiles "/" Watch.String_prototype_contains None "1hxsnbzu" "/p" 1
        (Some (Watch.project 3)) ∅ Build.build).1.1 Build.build).1.2
  = Build.build.
Proof.
  destruct (watcher_shared_by_identity "/" Watch.String_prototype_contains None
              "1hxsnbzu" "/p" "/elsewhere" 1 2
              (Some (Watch.project 3)) (Some (Watch.project 3)) ∅
              Build.build Build.build)
    as (fsw & fsw' & _ & _ & _ & _ & _ & _ & _ & _ & H & _); [reflexivity..|].
  exact H.
Defined.

End Watchers.

(** ** [setErrorExitCode] *)

Module ExitCode.

Local Open Scope Z_scope.

(** The module-level flag [_setErrorExitCode], [process.exitCode], and
    the override codes of the ["exit"] listeners installed so far. *)
Record Process := {
  _setErrorExitCode : bool;
  exitCode : option Z;
  exitListeners : list Z;
}.

Definition fresh : Process :=
  {| _setErrorExitCode := false; exitCode := None; exitListeners := [] |}.

(** [code || d] for a number or [undefined]. *)
Definition or_code (code : option Z) (d : Z) : Z :=
  match code with
  | Some c => if c =? 0 then d else c
  | None => d
  end.

(** [setErrorExitCode(code)] *)
Definition setErrorExitCode (code : option Z) (p : Process) : Process :=
  if _setErrorExitCode p then p
  else
    let overrideCode := or_code code 1 in
    {| _setErrorExitCode := true;
       exitCode := Some overrideCode;
       exitListeners := exitListeners p ++ [overrideCode] |}.

(** The code the process is ended with when it exits with [code]
    ([process.exit(code)], or the end of the event loop for [None]): the
    ["exit"] event carries [code], else [process.exitCode], else 0, and the
    first listener installed above ends the process with
    [code || overrideCode]. *)
Definition finalCode (code : option Z) (p : Process) : Z :=
  let c := match code with
           | Some c => c
           | None => default 0 (exitCode p)
           end in
  match exitListeners p with
  | overrideCode :: _ => or_code (Some c) overrideCode
  | [] => c
  end.

(** The exit status the parent process sees (POSIX): the low eight bits
    of that code. *)
Definition exitStatus (code : option Z) (p : Process) : Z :=
  finalCode code p mod 256.

(** X28. [setErrorExitCode] acts once: the first call fixes the override
    code (the code given, or 1 when it is 0 or missing) and later calls
    change nothing.  From then on a clean exit, and an exit with code 0,
    end with the status of the override code; an exit with another code
    ends with the status of that code.  Hence, unless the override code
    is a multiple of 256, the process ends with status 0 only when it
    exits with a non-zero multiple of 256; with the codes the program
    itself passes (1, or none) a clean exit has status 1. *)
Theorem setErrorExitCode_once (code code' : option Z) (p : Process) :
  setErrorExitCode code' (setErrorExitCode code p) = setErrorExitCode code p /\
  (_setErrorExitCode p = false -> exitListeners p = [] ->
   exitStatus None (setErrorExitCode code p) = or_code code 1 mod 256 /\
   (forall c, exitStatus (Some c) (setErrorExitCode code p)
              = (if c =? 0 then or_code code 1 else c) mod 256) /\
   (or_code code 1 mod 256 <> 0 ->
    exitStatus None (setErrorExitCode code p) <> 0 /\
    forall c, exitStatus (Some c) (setErrorExitCode code p) = 0 ->
              c <> 0 /\ c mod 256 = 0) /\
   (code = None \/ code = Some 1 -> exitStatus None (setErrorExitCode code p) = 1)).
Proof.
  split.
  - unfold setErrorExitCode. destruct (_setErrorExitCode p) eqn:Hp.
    + now rewrite Hp.
    + reflexivity.
  - intros Hp Hl. unfold setErrorExitCode, exitStatus, finalCode. rewrite Hp, Hl.
    cbn [exitListeners exitCode app default from_option id].
    assert (Hov : or_code code 1 <> 0).
    { unfold or_code. destruct code as [c|]; [|lia].
      destruct (Z.eqb_spec c 0); lia. }
    assert (Hnone : or_code (Some (or_code code 1)) (or_code code 1) = or_code code 1).
    { unfold or_code at 1. destruct (Z.eqb_spec (or_code code 1) 0); reflexivity. }
    assert (Hsome : forall c, or_code (Some c) (or_code code 1)
                              = if c =? 0 then or_code code 1 else c) by reflexivity.
    rewrite Hnone. split; [reflexivity|]. split; [intros c; now rewrite Hsome|].
    split.
    + intros Hm. split; [exact Hm|]. intros c. rewrite Hsome.
      destruct (Z.eqb_spec c 0); [contradiction|auto].
    + intros [->| ->]; reflexivity.
Qed.

Lemma setErrorExitCode_once_witness :
  exitStatus (Some 0) (setErrorExitCode (Some 3) (setErrorExitCode None fresh)) = 1 /\
  exitStatus (Some 256) (setErrorExitCode None fresh) = 0.
Proof.
  destruct (setErrorExitCode_once None (Some 3) fresh) as [Hidem H].
  rewrite Hidem. destruct (H eq_refl eq_refl) as (_ & H0 & _).
  split; [exact (H0 0)|exact (H0 256)].
Defined.

End ExitCode.

(** ** [patchSourceMap] *)

Module SourceMap.

(** The loop of [patchSourceMap] over the properties of [overrides], on
    the parsed map: [undefined] deletes the key, any other value sets it. *)
Definition patch (map : gmap string Js.Value) (kv : string * Js.Value)
  : gmap string Js.Value :=
  match snd kv with
  | Js.Undefined => delete (fst kv) map
  | v => <[fst kv := v]> map
  end.

Definition patchSourceMap (overrides : list (string * Js.Value))
    (map : gmap string Js.Value) : gmap string Js.Value :=
  fold_left patch overrides map.

(** The last override given for a key. *)
Fixpoint override (overrides : list (string * Js.Value)) (k : string)
  : option Js.Value :=
  match overrides with
  | [] => None
  | (k', v) :: rest =>
      match override rest k with
      | Some v' => Some v'
      | None => if String.eqb k' k then Some v else None
      end
  end.

Lemma patch_lookup map k' v k :
  patch map (k', v) !! k
  = if String.eqb k' k then match v with Js.Undefined => None | _ => Some v end
    else map !! k.
Proof.
  unfold patch. simpl. destruct (String.eqb_spec k' k) as [->|Hne].
  - destruct v; rewrite ?lookup_delete_eq, ?lookup_insert_eq; reflexivity.
  - destruct v; rewrite ?lookup_delete_ne, ?lookup_insert_ne by exact Hne; reflexivity.
Qed.

Lemma patchSourceMap_lookup overrides : forall map k,
  patchSourceMap overrides map !! k
  = match override overrides k with
    | Some Js.Undefined => None
    | Some v => Some v
    | None => map !! k
    end.
Proof.
  induction overrides as [|[k' v] rest IH]; intros map k; [reflexivity|].
  simpl. unfold patchSourceMap in *. rewrite IH.
  destruct (override rest k) as [v'|]; [reflexivity|].
  rewrite patch_lookup. destruct (String.eqb k' k); [|reflexivity].
  destruct v; reflexivity.
Qed.

(** X29. [patchSourceMap] leaves every key without an override as it is,
    removes the keys overridden with [undefined] and sets the others, the
    last override of a key winning; patching twice is patching once.  For
    the one call in the program, the patched map has no [sourcesContent],
    has the given [sourceRoot], and is otherwise the map the bundler
    wrote. *)
Theorem patchSourceMap_overrides (overrides : list (string * Js.Value))
    (map : gmap string Js.Value) (sourceRoot : string) (k : string) :
  patchSourceMap overrides (patchSourceMap overrides map) = patchSourceMap overrides map /\
  patchSourceMap overrides map !! k
    = match override overrides k with
      | Some Js.Undefined => None
      | Some v => Some v
      | None => map !! k
      end /\
  patchSourceMap [("sourcesContent", Js.Undefined); ("sourceRoot", Js.Str sourceRoot)] map
    !! "sourcesContent" = None /\
  patchSourceMap [("sourcesContent", Js.Undefined); ("sourceRoot", Js.Str sourceRoot)] map
    !! "sourceRoot" = Some (Js.Str sourceRoot) /\
  (k <> "sourcesContent" -> k <> "sourceRoot" ->
   patchSourceMap [("sourcesContent", Js.Undefined); ("sourceRoot", Js.Str sourceRoot)] map
     !! k = map !! k).
Proof.
  split; [|split; [|split; [|split]]].
  - apply map_eq. intros i. rewrite !patchSourceMap_lookup.
    destruct (override overrides i) as [[]|]; reflexivity.
  - apply patchSourceMap_lookup.
  - now rewrite patchSourceMap_lookup.
  - now rewrite patchSourceMap_lookup.
  - intros H1 H2. rewrite patchSourceMap_lookup. cbn [override].
    destruct (String.eqb_spec "sourceRoot" k); [congruence|].
    destruct (String.eqb_spec "sourcesContent" k); [congruence|reflexivity].
Qed.

Lemma patchSourceMap_overrides_witness :
  patchSourceMap [("sourcesContent", Js.Undefined); ("sourceRoot", Js.Str "/src")]
    (<["version" := Js.Str "3"]> (<["sourcesContent" := Js.Str "x"]> ∅))
    !! "version" = Some (Js.Str "3").
Proof.
  destruct (patchSourceMap_overrides [] 
              (<["version" := Js.Str "3"]> (<["sourcesContent" := Js.Str "x"]> ∅))
              "/src" "version") as (_ & _ & _ & _ & H).
  rewrite H; [reflexivity|discriminate|discriminate].
Defined.

End SourceMap.

(** ** The effective type-check mode: lines 416-459 of [build1] *)

Module Diagnostics.

(** A value of [config.tslint] or [config.tsc]: missing, a boolean, a
    string, or an options object with its [mode]. *)
Inductive Setting :=
| Absent
| Flag (b : bool)
| Name (s : string)
| Object (mode : option string).

#[global] Instance Setting_eq_dec : EqDecision Setting.
Proof. solve_decision. Defined.

Definition truthy (s : Setting) : bool :=
  match s with
  | Absent => false
  | Flag b => b
  | Name n => Js.str_truthy n
  | Object _ => true
  end.

(** [s !== "auto"] *)
Definition not_auto (s : Setting) : bool :=
  match s with
  | Name n => negb (String.eqb n "auto")
  | _ => true
  end.

(** [config.tslint] after the deprecated [tsc] has been taken over. *)
Definition migrated (tsc tslint : Setting) : Setting :=
  match tsc, tslint with
  | Absent, _ => tslint
  | _, Absent => tsc
  | _, _ => tslint
  end.

(** [tslintOptions] as computed by lines 421-459; [diag] is [opts.diag]
    ([true], [false] or unset) and [tsconfigFound] tells whether
    [tsutil.getTSConfigFileForConfig(config)] finds a file. *)
Definition tslintOptions (diag : option bool) (tsc tslint : Setting)
    (tsconfigFound : bool) : Setting :=
  let initial := match diag with
                 | Some true => Name "on"
                 | Some false => Name "off"
                 | None => Name "auto"
                 end in
  match diag with
  | Some false => initial
  | _ =>
      let tslint := migrated tsc tslint in
      let options := if truthy tslint && not_auto tslint then tslint else initial in
      let tslintIsAuto :=
        match options with
        | Name n => String.eqb n "auto"
        | Object _ =>
            match tslint with
            | Object (Some m) => String.eqb m "auto" || negb (Js.str_truthy m)
            | Object None => true
            | _ => false
            end
        | _ => false
        end in
      if tslintIsAuto then (if tsconfigFound then options else Name "off")
      else
        match tslint with
        | Absent => options
        | _ => if not_auto tslint then tslint else options
        end
  end.

(** X30. How the type-check mode is decided.  [-no-diag] turns it off
    whatever the configuration says.  Otherwise an explicit setting of
    [tslint] - a non-empty string other than ["auto"], [true], or an
    object with a mode other than auto - is taken as it is, also against
    [-diag].  And without [-diag], a [tslint] that is missing, falsy or
    ["auto"] means auto mode: on when a tsconfig file is found, off
    otherwise - so [tslint: false] does not switch diagnostics off in a
    project that has a tsconfig file. *)
Theorem tslintOptions_decision (diag : option bool) (tsc tslint : Setting)
    (tsconfigFound : bool) :
  tslintOptions (Some false) tsc tslint tsconfigFound = Name "off" /\
  (diag <> Some false ->
   truthy (migrated tsc tslint) = true -> not_auto (migrated tsc tslint) = true ->
   (forall m, migrated tsc tslint = Object m ->
              exists n, m = Some n /\ n <> "auto" /\ n <> "") ->
   tslintOptions diag tsc tslint tsconfigFound = migrated tsc tslint) /\
  (truthy (migrated tsc tslint) = false \/ migrated tsc tslint = Name "auto" ->
   tslintOptions None tsc tslint tsconfigFound
   = if tsconfigFound then Name "auto" else Name "off") /\
  tslintOptions None Absent (Flag false) true = Name "auto".
Proof.
  split; [reflexivity|]. split; [|split; [|reflexivity]].
  - intros Hd Ht Hn Hobj. unfold tslintOptions.
    destruct diag as [[|]|]; try congruence;
      rewrite Ht, Hn; simpl;
      destruct (migrated tsc tslint) as [|b|n|m] eqn:Hm; simpl in *;
      try discriminate; try reflexivity.
    + destruct (String.eqb n "auto"); [discriminate|reflexivity].
    + destruct (Hobj m eq_refl) as (n & -> & Hna & Hne).
      destruct (String.eqb_spec n "auto"); [contradiction|].
      destruct n; [contradiction|reflexivity].
    + destruct (String.eqb n "auto"); [discriminate|reflexivity].
    + destruct (Hobj m eq_refl) as (n & -> & Hna & Hne).
      destruct (String.eqb_spec n "auto"); [contradiction|].
      destruct n; [contradiction|reflexivity].
  - intros [Hf|Hf]; unfold tslintOptions; rewrite Hf; simpl;
      destruct tsconfigFound; reflexivity.
Qed.

Lemma tslintOptions_decision_witness :
  tslintOptions (Some true) (Name "off") Absent true = Name "off".
Proof.
  destruct (tslintOptions_decision (Some true) (Name "off") Absent true)
    as (_ & H & _).
  apply H; try reflexivity; discriminate.
Defined.

End Diagnostics.
